(** * zstdfile.c: a zstd-compressed source presented as a read-only,
      forward-seekable cookie stream.

    The development embeds the cookie callbacks of [zstdfile.c]
    ([zstdfile_read], [zstdfile_seek]), the life-cycle functions
    ([zstdfile_init], [zstdfile_cleanup], [zstdopenfile]) and the part of
    stdio they rely on, and proves properties of them.

    Modelling conventions.
    - [size_t], [uint64_t] and [uint32_t] values are [Z] with the wrap-around
      written where the C code can wrap; [off64_t]/[ssize_t] values go
      through [sint64] (two's complement).
    - The zstd library is not part of the repository: it is the interface
      [ZstdEngine].  The general properties are proved for an arbitrary
      engine; a small reference decoder ([RefZstd]) instantiates it to run
      the adapter on concrete streams.
    - errno values are those of Linux (ENOBUFS = 105, EINVAL = 22).
    - [exit(1)], [err(1, ...)] and a failed [assert] end the process: the
      functions return [Abort].  Loops run on fuel; [OutOfFuel] is not a
      behaviour of the program.
    - Heap exhaustion is outside the model: [malloc], [ZSTD_createDCtx],
      [ZSTD_initDStream] and [fopencookie] succeed.  The number of live
      heap blocks owned by the adapter is tracked in [p_heap].
    - Diagnostics written to stderr are not modelled. *)

From Stdlib Require Import ZArith List Lia Bool String Ascii.
From Stdlib Require Import Strings.Byte.
Import ListNotations.
Local Open Scope Z_scope.

(** Case analysis on the scrutinee of the first [match] or [if] of a
    hypothesis or of the goal. *)
Ltac destr_in H :=
  match type of H with
  | context [match ?x with _ => _ end] => destruct x eqn:?
  | context [if ?x then _ else _] => destruct x eqn:?
  end.

Ltac destr_goal :=
  match goal with
  | |- context [match ?x with _ => _ end] => destruct x eqn:?
  | |- context [if ?x then _ else _] => destruct x eqn:?
  end.

Ltac inv H := inversion H; subst; clear H.

(** ** Machine integers and constants *)

Definition wrap32 (x : Z) : Z := x mod 2 ^ 32.
Definition wrap64 (x : Z) : Z := x mod 2 ^ 64.

(** Conversion to a signed 64-bit type ([off64_t], [ssize_t]). *)
Definition sint64 (x : Z) : Z :=
  let u := wrap64 x in if u <? 2 ^ 63 then u else u - 2 ^ 64.

Definition SSIZE_MAX : Z := 2 ^ 63 - 1.

Definition EINVAL : Z := 22.
Definition ENOBUFS : Z := 105.

Definition SEEK_SET : Z := 0.
Definition SEEK_CUR : Z := 1.
Definition SEEK_END : Z := 2.

Definition ZSTD_MAGICNUMBER : Z := 0xFD2FB528.

(** ** Byte buffers *)

Definition zlen {A : Type} (l : list A) : Z := Z.of_nat (List.length l).

Fixpoint take {A : Type} (n : Z) (l : list A) : list A :=
  match l with
  | [] => []
  | x :: t => if n <=? 0 then [] else x :: take (n - 1) t
  end.

Fixpoint drop {A : Type} (n : Z) (l : list A) : list A :=
  match l with
  | [] => []
  | _ :: t => if n <=? 0 then l else drop (n - 1) t
  end.

(** [memcpy]/[fread] of [src] over the start of a buffer holding [old]. *)
Definition overwrite (src old : list byte) : list byte :=
  src ++ drop (zlen src) old.

(** The bytes behind a buffer pointer; a NULL pointer holds none. *)
Definition buf_bytes (b : option (list byte)) : list byte :=
  match b with Some l => l | None => [] end.

Definition byteZ (b : byte) : Z := Z.of_N (Byte.to_N b).

(** [le32dec] of <sys/endian.h>, on the first four bytes of [l]. *)
Definition le32dec (l : list byte) : Z :=
  match l with
  | b0 :: b1 :: b2 :: b3 :: _ =>
      Z.lor (byteZ b0)
        (Z.lor (Z.shiftl (byteZ b1) 8)
           (Z.lor (Z.shiftl (byteZ b2) 16) (Z.shiftl (byteZ b3) 24)))
  | _ => 0
  end.

(** ** The underlying source: a stdio stream *)

Record FILE : Type := mkFILE {
  f_data : list byte;   (* all the bytes the source delivers *)
  f_fault : option Z;   (* [Some e]: reading past [f_data] fails with errno
                           [e] (a nested stream reporting truncation);
                           [None]: a clean end of file *)
  f_pos : Z;
  f_eof : bool;         (* feof *)
  f_error : bool        (* ferror *)
}.

(** [fread(buf, 1, n, f)]: the bytes read, the stream afterwards and errno
    afterwards.  The flags are sticky. *)
Definition fread (n : Z) (f : FILE) (errno : Z) : list byte * FILE * Z :=
  let got := take n (drop (f_pos f) (f_data f)) in
  let pos' := f_pos f + zlen got in
  if zlen got <? n then
    match f_fault f with
    | Some e => (got, mkFILE (f_data f) (f_fault f) pos' (f_eof f) true, e)
    | None => (got, mkFILE (f_data f) (f_fault f) pos' true (f_error f), errno)
    end
  else (got, mkFILE (f_data f) (f_fault f) pos' (f_eof f) (f_error f), errno).

Definition rewind (f : FILE) : FILE :=
  mkFILE (f_data f) (f_fault f) 0 false false.

(** A file holding [data], freshly opened. *)
Definition file_of (data : list byte) : FILE := mkFILE data None 0 false false.

(** ** Process state and outcomes *)

Record proc : Type := mkProc {
  p_errno : Z;
  p_heap : Z;    (* live heap blocks allocated by the adapter *)
  p_streams : Z  (* open stdio streams *)
}.

(** A process with errno 0 that has allocated nothing yet and has no
    stream open. *)
Definition p0 : proc := mkProc 0 0 0.

Definition set_errno (e : Z) (p : proc) : proc :=
  mkProc e (p_heap p) (p_streams p).
Definition heap_add (k : Z) (p : proc) : proc :=
  mkProc (p_errno p) (p_heap p + k) (p_streams p).
Definition stream_add (k : Z) (p : proc) : proc :=
  mkProc (p_errno p) (p_heap p) (p_streams p + k).

(** [fclose] of a stream that was opened for reading: one stream less. *)
Definition fclose (p : proc) : proc := stream_add (-1) p.

Inductive fatal : Type :=
| AssertFailed (what : string)
| Exit1 (what : string)
| NullDeref.

Inductive outcome (A : Type) : Type :=
| Ret (a : A)
| Abort (why : fatal)
| OutOfFuel.
Arguments Ret {A} a.
Arguments Abort {A} why.
Arguments OutOfFuel {A}.

(** ** The decompression engine (libzstd) *)

Record engine_step (D : Type) : Type := mkStep {
  es_ret : Z;               (* return value of ZSTD_decompressStream *)
  es_dctx : D;              (* session afterwards *)
  es_consumed : Z;          (* advance of ibuf.pos *)
  es_output : list byte     (* bytes written at dst[0..), obuf.pos afterwards *)
}.
Arguments mkStep {D}.
Arguments es_ret {D}.
Arguments es_dctx {D}.
Arguments es_consumed {D}.
Arguments es_output {D}.

Class ZstdEngine (ZSTD_DCtx : Type) : Type := {
  (* a session fresh from ZSTD_createDCtx and ZSTD_initDStream *)
  ZSTD_createDCtx : ZSTD_DCtx;
  ZSTD_DStreamInSize : Z;
  ZSTD_DStreamOutSize : Z;
  ZSTD_isError : Z -> bool;
  (* session, src[pos..size), capacity of dst (obuf.pos is 0 at every call) *)
  ZSTD_decompressStream : ZSTD_DCtx -> list byte -> Z -> engine_step ZSTD_DCtx
}.

(** ** The adapter *)

Section Adapter.
Context {ZSTD_DCtx : Type} {E : ZstdEngine ZSTD_DCtx}.

(** [struct zstdfile].  [ibuf.src] and [obuf.dst] alias [inbuf] and
    [outbuf] and are not kept apart.  A buffer pointer is [None] when NULL;
    the list behind it holds the bytes written so far, the rest of the
    allocation being unspecified. *)
Record zstdfile : Type := mkCookie {
  in_ : FILE;
  logic_offset : Z;
  decode_offset : Z;
  actual_len : Z;
  outbuf_start : Z;
  decomp : option ZSTD_DCtx;
  inbuf : option (list byte);
  outbuf : option (list byte);
  inbuf_size : Z;
  obuf_size : Z;
  obuf_pos : Z;
  ibuf_size : Z;
  ibuf_pos : Z;
  eof : bool;
  truncated : bool
}.

Definition set_in (f : FILE) (c : zstdfile) : zstdfile :=
  mkCookie f (logic_offset c) (decode_offset c) (actual_len c)
    (outbuf_start c) (decomp c) (inbuf c) (outbuf c) (inbuf_size c)
    (obuf_size c) (obuf_pos c) (ibuf_size c) (ibuf_pos c) (eof c)
    (truncated c).

Definition set_inbuf (b : option (list byte)) (c : zstdfile) : zstdfile :=
  mkCookie (in_ c) (logic_offset c) (decode_offset c) (actual_len c)
    (outbuf_start c) (decomp c) b (outbuf c) (inbuf_size c)
    (obuf_size c) (obuf_pos c) (ibuf_size c) (ibuf_pos c) (eof c)
    (truncated c).

Definition set_ibuf (size pos : Z) (c : zstdfile) : zstdfile :=
  mkCookie (in_ c) (logic_offset c) (decode_offset c) (actual_len c)
    (outbuf_start c) (decomp c) (inbuf c) (outbuf c) (inbuf_size c)
    (obuf_size c) (obuf_pos c) size pos (eof c) (truncated c).

Definition set_eof (b : bool) (c : zstdfile) : zstdfile :=
  mkCookie (in_ c) (logic_offset c) (decode_offset c) (actual_len c)
    (outbuf_start c) (decomp c) (inbuf c) (outbuf c) (inbuf_size c)
    (obuf_size c) (obuf_pos c) (ibuf_size c) (ibuf_pos c) b (truncated c).

Definition set_truncated (b : bool) (c : zstdfile) : zstdfile :=
  mkCookie (in_ c) (logic_offset c) (decode_offset c) (actual_len c)
    (outbuf_start c) (decomp c) (inbuf c) (outbuf c) (inbuf_size c)
    (obuf_size c) (obuf_pos c) (ibuf_size c) (ibuf_pos c) (eof c) b.

(** [outbuf_start += k; decode_offset += k] of the skip branch. *)
Definition skip_output (k : Z) (c : zstdfile) : zstdfile :=
  mkCookie (in_ c) (logic_offset c) (wrap64 (decode_offset c + k))
    (actual_len c) (wrap32 (outbuf_start c + k)) (decomp c) (inbuf c)
    (outbuf c) (inbuf_size c) (obuf_size c) (obuf_pos c) (ibuf_size c)
    (ibuf_pos c) (eof c) (truncated c).

(** [outbuf_start += k; decode_offset += k; logic_offset += k] after the
    [memcpy] to the caller. *)
Definition deliver_output (k : Z) (c : zstdfile) : zstdfile :=
  mkCookie (in_ c) (wrap64 (logic_offset c + k))
    (wrap64 (decode_offset c + k)) (actual_len c)
    (wrap32 (outbuf_start c + k)) (decomp c) (inbuf c) (outbuf c)
    (inbuf_size c) (obuf_size c) (obuf_pos c) (ibuf_size c) (ibuf_pos c)
    (eof c) (truncated c).

(** [obuf.pos = 0; outbuf_start = 0]. *)
Definition reset_output (c : zstdfile) : zstdfile :=
  mkCookie (in_ c) (logic_offset c) (decode_offset c) (actual_len c) 0
    (decomp c) (inbuf c) (outbuf c) (inbuf_size c) (obuf_size c) 0
    (ibuf_size c) (ibuf_pos c) (eof c) (truncated c).

(** The effect of one [ZSTD_decompressStream] call on the cookie, followed
    by [actual_len += obuf.pos]. *)
Definition after_engine (r : engine_step ZSTD_DCtx) (c : zstdfile) : zstdfile :=
  mkCookie (in_ c) (logic_offset c) (decode_offset c)
    (wrap64 (actual_len c + zlen (es_output r))) (outbuf_start c)
    (Some (es_dctx r)) (inbuf c)
    (Some (overwrite (es_output r) (buf_bytes (outbuf c)))) (inbuf_size c)
    (obuf_size c) (zlen (es_output r)) (ibuf_size c)
    (ibuf_pos c + es_consumed r) (eof c) (truncated c).

(** *** Life cycle *)

(** [zstdfile_init]: everything but [in] is overwritten; three heap blocks
    (session, input buffer, output buffer) are allocated. *)
Definition zstdfile_init (c : zstdfile) (p : proc) : zstdfile * proc :=
  (mkCookie (in_ c) 0 0 0 0 (Some ZSTD_createDCtx) (Some []) (Some [])
     ZSTD_DStreamInSize ZSTD_DStreamOutSize 0 0 0 false false,
   heap_add 3 p).

(** [zstdfile_cleanup]: the session and both buffers are freed and their
    pointers set to NULL. *)
Definition zstdfile_cleanup (c : zstdfile) (p : proc) : zstdfile * proc :=
  (mkCookie (in_ c) (logic_offset c) (decode_offset c) (actual_len c)
     (outbuf_start c) None None None (inbuf_size c) (obuf_size c)
     (obuf_pos c) (ibuf_size c) (ibuf_pos c) (eof c) (truncated c),
   heap_add (-3) p).

(** A cookie fresh from [malloc] with [cookie->in = in]: the other fields
    are unspecified ([zstdfile_init] overwrites them all). *)
Definition cookie_alloc (inp : FILE) : zstdfile :=
  mkCookie inp 0 0 0 0 None None None 0 0 0 0 0 false false.

(** [strstr(mode, ch)] for a one-character needle. *)
Fixpoint mode_has (ch : ascii) (mode : string) : bool :=
  match mode with
  | EmptyString => false
  | String a rest => Ascii.eqb a ch || mode_has ch rest
  end.

Inductive opened : Type :=
| OpenNull (inp : FILE)        (* NULL; [inp] is still the caller's *)
| OpenPlain (inp : FILE)       (* [in] itself is returned *)
| OpenCookie (c : zstdfile).   (* a cookie stream over [c] *)

(** The modes [fopencookie] accepts: those that start with 'r', 'w' or
    'a'. *)
Definition cookie_mode (mode : string) : bool :=
  match mode with
  | String "r" _ | String "w" _ | String "a" _ => true
  | _ => false
  end.

(** [fopencookie(cookie, mode, zstdfile_io)] as the C library implements
    it (glibc libio/iofopncook.c, and musl alike): any other mode is
    refused with errno EINVAL and NULL is returned; otherwise one more
    stream is open.  The library's own allocation failure is left out. *)
Definition fopencookie (mode : string) (p : proc) : bool * proc :=
  if cookie_mode mode then (true, stream_add 1 p)
  else (false, set_errno EINVAL p).

(** [zstdopenfile(in, mode, was_zstd)] with a non-NULL [was_zstd]: the
    stream returned, what was stored in [*was_zstd] ([None] when nothing
    was), and the process afterwards.  A [malloc] that fails (of the
    cookie here, of the session and the buffers in [zstdfile_init]) is
    left out. *)
Definition zstdopenfile (inp : FILE) (mode : string) (p : proc)
  : opened * option bool * proc :=
  if mode_has "w"%char mode || mode_has "a"%char mode then
    (OpenNull inp, None, set_errno EINVAL p)
  else
    let '(hdr, f1, e1) := fread 4 inp (p_errno p) in
    let p1 := set_errno e1 p in
    if f_error f1 then (OpenNull f1, None, p1)
    else if zlen hdr <? 4 then (OpenNull f1, None, p1)
    else
      let f2 := rewind f1 in
      if negb (le32dec hdr =? ZSTD_MAGICNUMBER) then
        (OpenPlain f2, Some false, p1)
      else
        let '(c, p2) := zstdfile_init (cookie_alloc f2) (heap_add 1 p1) in
        match fopencookie mode p2 with
        | (true, p3) => (OpenCookie c, Some true, p3)
        | (false, p3) =>
            (* res == NULL: cleanup and free(cookie); [in] stays open *)
            let '(_, p4) := zstdfile_cleanup c p3 in
            (OpenNull f2, None, heap_add (-1) p4)
        end.

(** [zstdfile_close]: cleanup, [fclose(cookie->in)], [free(cookie)]. *)
Definition zstdfile_close (c : zstdfile) (p : proc) : Z * proc :=
  let '(_, p1) := zstdfile_cleanup c p in (0, heap_add (-1) (fclose p1)).

(** *** The read callback *)

(** The locals of [zstdfile_read] that live across the loops.  [l_buf] is
    what has been copied to the caller's buffer so far. *)
Record locals : Type := mkLocals {
  l_size : Z;
  l_ignorebytes : Z;
  l_total : Z;
  l_buf : list byte
}.

(** The inner [while (cookie->obuf.pos > cookie->outbuf_start)] loop. *)
Fixpoint drain (fuel : nat) (c : zstdfile) (l : locals)
  : option (zstdfile * locals) :=
  match fuel with
  | O => None
  | S fuel' =>
      if obuf_pos c >? outbuf_start c then
        let left := obuf_pos c - outbuf_start c in
        let ignoreskip := Z.min (l_ignorebytes l) left in
        let '(c1, ignorebytes, left1) :=
          if ignoreskip >? 0
          then (skip_output ignoreskip c, l_ignorebytes l - ignoreskip,
                left - ignoreskip)
          else (c, l_ignorebytes l, left) in
        if ignorebytes >? 0 then
          Some (c1, mkLocals (l_size l) ignorebytes (l_total l) (l_buf l))
        else
          let toread := Z.min left1 (l_size l) in
          let chunk := take toread (drop (outbuf_start c1) (buf_bytes (outbuf c1))) in
          let c2 := deliver_output toread c1 in
          let l2 := mkLocals (l_size l - toread) ignorebytes
                      (sint64 (l_total l + toread)) (l_buf l ++ chunk) in
          if l_size l2 =? 0 then Some (c2, l2) else drain fuel' c2 l2
      else Some (c, l)
  end.

Inductive refilled : Type :=
| RefillOk (c : zstdfile) (p : proc)
| RefillTruncated (c : zstdfile) (p : proc)   (* goto out *)
| RefillFatal.                                (* err(1, ...) *)

(** "Read more input if empty". *)
Definition refill (c : zstdfile) (p : proc) : refilled :=
  if ibuf_pos c =? ibuf_size c then
    let '(got, f1, e1) := fread (inbuf_size c) (in_ c) (p_errno p) in
    let c1 := set_in f1 (set_inbuf (Some (overwrite got (buf_bytes (inbuf c)))) c) in
    let p1 := set_errno e1 p in
    if f_error f1 then
      if e1 =? ENOBUFS then RefillTruncated (set_truncated true c1) p1
      else RefillFatal
    else if (zlen got =? 0) && f_eof f1 then
      RefillTruncated (set_truncated true c1) p1
    else RefillOk (set_ibuf (zlen got) 0 c1) p1
  else RefillOk c p.

(** The unconsumed input [src[pos..size)] handed to the engine. *)
Definition pending_input (c : zstdfile) : list byte :=
  take (ibuf_size c - ibuf_pos c) (drop (ibuf_pos c) (buf_bytes (inbuf c))).

(** The [do ... while (!ferror(cookie->in) && size > 0)] loop, up to the
    label [out]. *)
Fixpoint read_loop (fuel : nat) (c : zstdfile) (p : proc) (ret : Z)
    (l : locals) : outcome (zstdfile * proc * locals) :=
  match fuel with
  | O => OutOfFuel
  | S fuel' =>
      match drain fuel' c l with
      | None => OutOfFuel
      | Some (c1, l1) =>
          if l_size l1 =? 0 then Ret (c1, p, l1)
          else if negb (obuf_pos c1 =? outbuf_start c1) then
            Abort (AssertFailed "cookie->obuf.pos == cookie->outbuf_start")
          else if ret =? 0 then Ret (set_eof true c1, p, l1)
          else
            match refill c1 p with
            | RefillFatal => Abort (Exit1 "error read core")
            | RefillTruncated c2 p2 => Ret (c2, p2, l1)
            | RefillOk c2 p2 =>
                let c3 := reset_output c2 in
                match decomp c3 with
                | None => Abort NullDeref
                | Some d =>
                    let r := ZSTD_decompressStream d (pending_input c3)
                               (obuf_size c3) in
                    if ZSTD_isError (es_ret r) then Abort (Exit1 "zstd")
                    else
                      let c4 := after_engine r c3 in
                      if negb (f_error (in_ c4)) && (l_size l1 >? 0)
                      then read_loop fuel' c4 p2 (es_ret r) l1
                      else Ret (c4, p2, l1)
                end
            end
      end
  end.

(** The code after the label [out]: return value, bytes delivered, cookie
    and process. *)
Definition read_out (c : zstdfile) (p : proc) (l : locals)
  : outcome (Z * list byte * zstdfile * proc) :=
  if l_total l >? SSIZE_MAX then Abort (AssertFailed "total <= SSIZE_MAX")
  else if l_total l >? 0 then Ret (l_total l, l_buf l, c, p)
  else if truncated c then
    Ret (-1, l_buf l, set_eof true c, set_errno ENOBUFS p)
  else Ret (0, l_buf l, c, p).

(** [zstdfile_read(cookie, buf, size)]. *)
Definition zstdfile_read (fuel : nat) (c : zstdfile) (size : Z) (p : proc)
  : outcome (Z * list byte * zstdfile * proc) :=
  if size >? SSIZE_MAX then Abort (AssertFailed "size <= SSIZE_MAX")
  else if size =? 0 then Ret (0, [], c, p)
  else if eof c then Ret (0, [], c, p)
  else if truncated c then read_out c p (mkLocals size 0 0 [])
  else
    let ignorebytes := wrap64 (logic_offset c - decode_offset c) in
    if negb (ignorebytes =? 0) then Abort (AssertFailed "ignorebytes == 0")
    else
      match read_loop fuel c p 1 (mkLocals size ignorebytes 0 []) with
      | Ret (c1, p1, l1) => read_out c1 p1 l1
      | Abort w => Abort w
      | OutOfFuel => OutOfFuel
      end.

(** *** The seek callback *)

(** The absolute target computed from [*offset_] and [whence]; [None] for
    a whence that is neither SEEK_SET nor SEEK_CUR. *)
Definition seek_target (c : zstdfile) (offset whence : Z) : option Z :=
  if whence =? SEEK_SET then Some offset
  else if whence =? SEEK_CUR then Some (sint64 (sint64 (logic_offset c) + offset))
  else None.

Definition bsz : Z := 32 * 1024.

(** The skipping loop of an emulated forward seek: [Some new_offset] when
    the loop is left normally, [None] when the seek returns -1 from inside
    it. *)
Fixpoint seek_skip (fuel : nat) (c : zstdfile) (p : proc) (new_offset : Z)
  : outcome (option Z * zstdfile * proc) :=
  match fuel with
  | O => OutOfFuel
  | S fuel' =>
      if wrap64 new_offset >? logic_offset c then
        let diff := Z.min bsz (wrap64 (wrap64 new_offset - logic_offset c)) in
        match zstdfile_read fuel' c diff p with
        | Ret (err, _, c1, p1) =>
            if err <? 0 then Ret (None, c1, p1)
            else if err =? 0 then
              if eof c1 then Ret (Some (sint64 (logic_offset c1)), c1, p1)
              else Abort (AssertFailed "cookie->eof")
            else seek_skip fuel' c1 p1 new_offset
        | Abort w => Abort w
        | OutOfFuel => OutOfFuel
        end
      else Ret (Some new_offset, c, p)
  end.

(** [zstdfile_seek(cookie, offset_, whence)]: return value, [*offset_]
    afterwards, cookie and process. *)
Definition zstdfile_seek (fuel : nat) (c : zstdfile) (offset whence : Z)
    (p : proc) : outcome (Z * Z * zstdfile * proc) :=
  match seek_target c offset whence with
  | None => Ret (-1, offset, c, p)
  | Some new_offset =>
      if new_offset <? 0 then Ret (-1, offset, c, p)
      else if (new_offset <? sint64 (logic_offset c)) && negb (new_offset =? 0)
      then Ret (-1, offset, c, p)
      else
        let moved :=
          if new_offset =? 0 then
            let '(c1, p1) := zstdfile_cleanup c p in
            let '(c2, p2) := zstdfile_init (set_in (rewind (in_ c1)) c1) p1 in
            Ret (Some new_offset, c2, p2)
          else if wrap64 new_offset >? logic_offset c then
            match seek_skip fuel c (heap_add 1 p) new_offset with
            | Ret (r, c1, p1) => Ret (r, c1, heap_add (-1) p1)
            | other => other
            end
          else Ret (Some new_offset, c, p) in
        match moved with
        | Ret (None, c1, p1) => Ret (-1, offset, c1, p1)
        | Ret (Some new_offset', c1, p1) =>
            if logic_offset c1 =? wrap64 new_offset'
            then Ret (0, new_offset', c1, p1)
            else Abort (AssertFailed "cookie->logic_offset == (uint64_t)new_offset")
        | Abort w => Abort w
        | OutOfFuel => OutOfFuel
        end
  end.

(** *** Drivers used to state the properties *)

(** Consecutive read calls with the given sizes: the return values. *)
Fixpoint read_seq (fuel : nat) (c : zstdfile) (p : proc) (sizes : list Z)
  : outcome (list Z * zstdfile * proc) :=
  match sizes with
  | [] => Ret ([], c, p)
  | n :: rest =>
      match zstdfile_read fuel c n p with
      | Ret (r, _, c1, p1) =>
          match read_seq fuel c1 p1 rest with
          | Ret (rs, c2, p2) => Ret (r :: rs, c2, p2)
          | other => other
          end
      | Abort w => Abort w
      | OutOfFuel => OutOfFuel
      end
  end.

(** Read in chunks of [chunk] bytes until a call returns no data: the
    bytes collected and the return value of the last call (0 or -1). *)
Fixpoint read_to_end (fuel : nat) (chunk : Z) (c : zstdfile) (p : proc)
  : outcome (list byte * Z * zstdfile * proc) :=
  match fuel with
  | O => OutOfFuel
  | S fuel' =>
      match zstdfile_read fuel' c chunk p with
      | Ret (r, bytes, c1, p1) =>
          if r >? 0 then
            match read_to_end fuel' chunk c1 p1 with
            | Ret (more, last, c2, p2) => Ret (bytes ++ more, last, c2, p2)
            | other => other
            end
          else Ret ([], r, c1, p1)
      | Abort w => Abort w
      | OutOfFuel => OutOfFuel
      end
  end.

(** *** Predicates used to state the properties *)

(** What the assertion at the top of [zstdfile_read] checks. *)
Definition offsets_agree (c : zstdfile) : Prop :=
  decode_offset c = logic_offset c.

(** The cookies a caller can get to from the cookie [c0] of a successful
    open, through read and seek calls that return.  errno is the
    caller's between two calls. *)
Inductive reachable (c0 : zstdfile) : zstdfile -> Prop :=
| reach_open : reachable c0 c0
| reach_read : forall c fuel size p r b c' p',
    reachable c0 c ->
    zstdfile_read fuel c size p = Ret (r, b, c', p') ->
    reachable c0 c'
| reach_seek : forall c fuel offset whence p r o c' p',
    reachable c0 c ->
    zstdfile_seek fuel c offset whence p = Ret (r, o, c', p') ->
    reachable c0 c'.

(** [zstdopenfile] wrapped the source in a cookie stream over [c0]. *)
Definition opens_to (inp : FILE) (mode : string) (p : proc) (c0 : zstdfile)
  : Prop :=
  exists p', zstdopenfile inp mode p = (OpenCookie c0, Some true, p').

(** The state in which a read call that does not return at once (nonzero
    size, [eof] clear) arrives at the label [out]. *)
Definition arrives_out (fuel : nat) (c : zstdfile) (size : Z) (p : proc)
  : outcome (zstdfile * proc * locals) :=
  if truncated c then Ret (c, p, mkLocals size 0 0 [])
  else read_loop fuel c p 1
         (mkLocals size (wrap64 (logic_offset c - decode_offset c)) 0 []).

(** The data-model invariant "once [truncated] is true, at most one more
    successful short read occurs, after which every subsequent read
    fails", as worded, on the return values [rs] of consecutive read
    calls: at most the first is positive and all the later ones are
    negative. *)
Definition reads_fail_after_drain (rs : list Z) : Prop :=
  exists k : nat,
    (k <= 1)%nat /\
    Forall (fun r => 0 < r) (firstn k rs) /\
    Forall (fun r => r < 0) (skipn k rs).

Definition truncated_reads_fail_spec : Prop :=
  forall (c : zstdfile) (p : proc) (fuel : nat) (sizes rs : list Z)
         (c' : zstdfile) (p' : proc),
    truncated c = true ->
    Forall (fun n => 0 < n <= SSIZE_MAX) sizes ->
    read_seq fuel c p sizes = Ret (rs, c', p') ->
    reads_fail_after_drain rs.

(** Two sources that deliver the same bytes and end the same way. *)
Definition same_source (f g : FILE) : Prop :=
  f_data f = f_data g /\ f_fault f = f_fault g.

(** A sticky error flag on the source has been turned into [truncated]. *)
Definition error_noted (c : zstdfile) : Prop :=
  f_error (in_ c) = true -> truncated c = true.

(** The counters of a read of [n] bytes: [total] delivered, [size] to go. *)
Definition counts_ok (n : Z) (l : locals) : Prop :=
  0 <= l_size l /\ 0 <= l_total l /\ l_total l + l_size l = n.

(** Everything has been delivered and consumed, the source is at its
    clean end, and neither flag is set: the state a caller is in after
    reading exactly the bytes of a stream, one that ends with its frame or
    one cut off at a block boundary alike. *)
Definition drained (c : zstdfile) : Prop :=
  eof c = false /\ truncated c = false /\
  decode_offset c = logic_offset c /\
  obuf_pos c = outbuf_start c /\
  ibuf_pos c = ibuf_size c /\
  0 < inbuf_size c /\
  f_error (in_ c) = false /\ f_fault (in_ c) = None /\
  drop (f_pos (in_ c)) (f_data (in_ c)) = [].

(** The cookie [zstdopenfile] builds over [file_of data]. *)
Definition fresh_cookie (data : list byte) : zstdfile :=
  fst (zstdfile_init (cookie_alloc (file_of data)) p0).

(** The cookie once the source [data] has been read whole, the engine has
    decoded it to [out] in one call and left the session [d1], and [k]
    bytes have been delivered. *)
Definition buffered (data out : list byte) (d1 : ZSTD_DCtx) (k : Z)
  : zstdfile :=
  mkCookie (mkFILE data None (zlen data) true false) k k (zlen out) k
    (Some d1) (Some data) (Some out) ZSTD_DStreamInSize ZSTD_DStreamOutSize
    (zlen out) (zlen data) (zlen data) false false.

(** *** Further drivers and predicates *)

(** What the adapter relies on from libzstd: positive buffer sizes, an
    output size that [outbuf_start] (a uint32_t) can hold, and a
    [ZSTD_decompressStream] that consumes no more than src holds and
    writes no more than dst holds. *)
Definition engine_fits : Prop :=
  0 < ZSTD_DStreamInSize /\ 0 < ZSTD_DStreamOutSize < 2 ^ 32 /\
  forall (d : ZSTD_DCtx) (inp : list byte) (cap : Z),
    0 <= cap ->
    0 <= es_consumed (ZSTD_decompressStream d inp cap) <= zlen inp /\
    zlen (es_output (ZSTD_decompressStream d inp cap)) <= cap.

(** The buffer invariants of [struct zstdfile]: the cursors lie inside
    their buffers, the buffers and the session are allocated, and the
    logical offset is a uint64_t. *)
Definition cursors_ok (c : zstdfile) : Prop :=
  0 <= outbuf_start c <= obuf_pos c /\
  obuf_pos c <= obuf_size c /\ obuf_size c < 2 ^ 32 /\
  obuf_pos c <= zlen (buf_bytes (outbuf c)) /\
  0 <= ibuf_pos c <= ibuf_size c /\
  ibuf_size c <= inbuf_size c /\
  ibuf_size c <= zlen (buf_bytes (inbuf c)) /\
  0 < inbuf_size c /\
  decomp c <> None /\
  0 <= logic_offset c < 2 ^ 64.

(** What holds of a cookie between two calls. *)
Definition steady (c : zstdfile) : Prop :=
  cursors_ok c /\ offsets_agree c /\ error_noted c.

(** A call a user of the stream can make. *)
Inductive op : Type :=
| OpRead (size : Z)
| OpSeek (offset whence : Z).

(** A sequence of calls on one stream, the process threaded through. *)
Fixpoint run_ops (fuel : nat) (c : zstdfile) (p : proc) (ops : list op)
  : outcome (zstdfile * proc) :=
  match ops with
  | [] => Ret (c, p)
  | OpRead n :: rest =>
      match zstdfile_read fuel c n p with
      | Ret (_, _, c1, p1) => run_ops fuel c1 p1 rest
      | Abort w => Abort w
      | OutOfFuel => OutOfFuel
      end
  | OpSeek offset whence :: rest =>
      match zstdfile_seek fuel c offset whence p with
      | Ret (_, _, c1, p1) => run_ops fuel c1 p1 rest
      | Abort w => Abort w
      | OutOfFuel => OutOfFuel
      end
  end.

(** Consecutive read calls with the given sizes: the bytes they deliver,
    one after the other. *)
Fixpoint read_chunks (fuel : nat) (c : zstdfile) (p : proc) (sizes : list Z)
  : outcome (list byte * zstdfile * proc) :=
  match sizes with
  | [] => Ret ([], c, p)
  | n :: rest =>
      match zstdfile_read fuel c n p with
      | Ret (_, b, c1, p1) =>
          match read_chunks fuel c1 p1 rest with
          | Ret (bs, c2, p2) => Ret (b ++ bs, c2, p2)
          | other => other
          end
      | Abort w => Abort w
      | OutOfFuel => OutOfFuel
      end
  end.

Definition zsum (l : list Z) : Z := fold_right Z.add 0 l.

(** The cookie once the end of a one-call stream has been detected, and
    once it has been taken for a truncation. *)
Definition at_end (data out : list byte) (d1 : ZSTD_DCtx) : zstdfile :=
  set_eof true (buffered data out d1 (zlen out)).

Definition at_cut (data out : list byte) (d1 : ZSTD_DCtx) : zstdfile :=
  set_truncated true (buffered data out d1 (zlen out)).

(** What the drain loop of a read with nothing to skip comes to: the
    smaller of what the buffer holds and what is asked for is delivered. *)
Definition drained_to (c : zstdfile) (n t : Z) (b : list byte)
  : zstdfile * locals :=
  let k := Z.min (obuf_pos c - outbuf_start c) n in
  (deliver_output k c,
   mkLocals (n - k) 0 (t + k)
     (b ++ take k (drop (outbuf_start c) (buf_bytes (outbuf c))))).

(** The rest of one pass of the do-loop, from the assertion on the empty
    output buffer to the loop condition: the loop is left, or goes on
    with the cookie, process and [ret] given. *)
Inductive passed : Type :=
| PassStop (o : outcome (zstdfile * proc))
| PassOn (c : zstdfile) (p : proc) (ret : Z).

Definition pass (c : zstdfile) (p : proc) (ret : Z) : passed :=
  if negb (obuf_pos c =? outbuf_start c) then
    PassStop (Abort (AssertFailed "cookie->obuf.pos == cookie->outbuf_start"))
  else if ret =? 0 then PassStop (Ret (set_eof true c, p))
  else
    match refill c p with
    | RefillFatal => PassStop (Abort (Exit1 "error read core"))
    | RefillTruncated c2 p2 => PassStop (Ret (c2, p2))
    | RefillOk c2 p2 =>
        let c3 := reset_output c2 in
        match decomp c3 with
        | None => PassStop (Abort NullDeref)
        | Some d =>
            let r := ZSTD_decompressStream d (pending_input c3)
                       (obuf_size c3) in
            if ZSTD_isError (es_ret r) then PassStop (Abort (Exit1 "zstd"))
            else
              let c4 := after_engine r c3 in
              if negb (f_error (in_ c4)) then PassOn c4 p2 (es_ret r)
              else PassStop (Ret (c4, p2))
        end
    end.

(** What the loop of a read call works on between two passes. *)
Definition tidy (c : zstdfile) : Prop :=
  cursors_ok c /\ offsets_agree c /\ f_error (in_ c) = false.

(** The fuel the drain loop of a read of [n] bytes needs: one pass, and a
    second one when the first leaves the read unsatisfied. *)
Definition drain_ok (f : nat) (c : zstdfile) (n : Z) : Prop :=
  (1 <= f)%nat /\
  ((2 <= f)%nat \/ obuf_pos c = outbuf_start c \/
   n <= obuf_pos c - outbuf_start c).

(** An upper bound of the logical offset after a call, given one before
    it. *)
Definition bound_after (b : Z) (o : op) : Z :=
  match o with
  | OpRead n => b + n
  | OpSeek offset whence =>
      if whence =? SEEK_SET then Z.max b offset
      else if whence =? SEEK_CUR then Z.max b (b + offset)
      else b
  end.

(** Calls whose arguments fit their C types ([size <= SSIZE_MAX] as
    [zstdfile_read] asserts, [*offset_] an off64_t) and that cannot take
    the logical offset beyond what an off64_t holds. *)
Fixpoint in_range (b : Z) (ops : list op) : Prop :=
  match ops with
  | [] => True
  | o :: rest =>
      match o with
      | OpRead n => 0 <= n <= SSIZE_MAX
      | OpSeek offset _ => - 2 ^ 63 <= offset < 2 ^ 63
      end /\
      bound_after b o <= SSIZE_MAX /\ in_range (bound_after b o) rest
  end.

(** *** Opening by path *)

(** The files [fopen] can reach: what is stored under each path. *)
Definition filesystem : Type := string -> option (list byte).

Definition fs_store (path : string) (d : list byte) (fs : filesystem)
  : filesystem :=
  fun q => if String.eqb q path then Some d else fs q.

Definition ENOENT : Z := 2.

Definition EEXIST : Z := 17.

Definition file_exists (path : string) (fs : filesystem) : bool :=
  match fs path with
  | Some _ => true
  | None => false
  end.

(** The process as [zstdopen] sees it: errno, heap and open streams, and
    the file system. *)
Record world : Type := mkWorld {
  w_proc : proc;
  w_fs : filesystem
}.

(** The mode string as glibc's [fopen] reads it (libio/fileops.c,
    [_IO_new_file_fopen]).  The first character chooses between reading,
    writing and appending.  Of the characters that follow only the first
    six are looked at: an 'x' among them asks for the exclusive creation
    of the file (O_EXCL), and a charset conversion is looked for behind
    the last '+', 'x' or 'b' among them. *)
Definition mode_flags (mode : string) : string := substring 1 6 mode.

Definition mode_excl (mode : string) : bool :=
  mode_has "x"%char (mode_flags mode).

Fixpoint last_recognized (flags : string) (i last : nat) : nat :=
  match flags with
  | EmptyString => last
  | String a rest =>
      last_recognized rest (S i)
        (if Ascii.eqb a "+" || Ascii.eqb a "x" || Ascii.eqb a "b"
         then i else last)
  end.

Definition mode_ccs (mode : string) : bool :=
  match index (S (last_recognized (mode_flags mode) 1 0)) ",ccs=" mode with
  | Some _ => true
  | None => false
  end.

(** [fopen(path, mode)] on regular files.  "r" opens an existing file at
    its start; "w" creates the file or truncates it to zero length; "a"
    creates it when missing and positions at its end; with the exclusive
    flag "w" and "a" fail with EEXIST on a file that exists, which is left
    as it is (for "r" the flag has no effect on a regular file); any other
    first character is refused with EINVAL before the file is touched.  A
    mode that asks for a charset conversion makes the stream
    wide-oriented, on which the byte input the adapter uses is not
    defined; such a mode is failed here with EINVAL after the file has
    been opened, as glibc does for a charset it cannot load.  Permissions
    and resource limits are left out, and a stream opened for writing is
    never read from. *)
Definition fopen (path mode : string) (w : world) : option FILE * world :=
  let failed e fs := (None, mkWorld (set_errno e (w_proc w)) fs) in
  let opened_ok f fs :=
    if mode_ccs mode then failed EINVAL fs
    else (Some f, mkWorld (stream_add 1 (w_proc w)) fs) in
  match mode with
  | String "r" _ =>
      match w_fs w path with
      | Some d => opened_ok (file_of d) (w_fs w)
      | None => failed ENOENT (w_fs w)
      end
  | String "w" _ =>
      match w_fs w path with
      | Some _ =>
          if mode_excl mode then failed EEXIST (w_fs w)
          else opened_ok (file_of []) (fs_store path [] (w_fs w))
      | None => opened_ok (file_of []) (fs_store path [] (w_fs w))
      end
  | String "a" _ =>
      match w_fs w path with
      | Some d =>
          if mode_excl mode then failed EEXIST (w_fs w)
          else opened_ok (mkFILE d None (zlen d) false false) (w_fs w)
      | None => opened_ok (file_of []) (fs_store path [] (w_fs w))
      end
  | _ => failed EINVAL (w_fs w)
  end.

(** [zstdopen(path, mode, was_zstd)] with a non-NULL [was_zstd]: the
    stream returned ([None] for NULL), what was stored in [*was_zstd], and
    the process afterwards. *)
Definition zstdopen (path mode : string) (w : world)
  : option opened * option bool * world :=
  match fopen path mode w with
  | (None, w1) => (None, None, w1)
  | (Some inp, w1) =>
      let '(res, wz, p1) := zstdopenfile inp mode (w_proc w1) in
      match res with
      | OpenNull _ => (None, wz, mkWorld (fclose p1) (w_fs w1))
      | _ => (Some res, wz, mkWorld p1 (w_fs w1))
      end
  end.

(** What the loops of the adapter rely on to end.  On the sessions the
    engine itself produces (those that satisfy [ok]: the fresh one, and
    the one every call leaves), a call that is given input and room and
    reports no error consumes or produces at least one byte. *)
Definition engine_progresses (ok : ZSTD_DCtx -> Prop) : Prop :=
  ok ZSTD_createDCtx /\
  forall (d : ZSTD_DCtx) (inp : list byte) (cap : Z),
    ok d ->
    ok (es_dctx (ZSTD_decompressStream d inp cap)) /\
    (inp <> [] -> 0 < cap ->
     ZSTD_isError (es_ret (ZSTD_decompressStream d inp cap)) = false ->
     0 < es_consumed (ZSTD_decompressStream d inp cap) \/
     0 < zlen (es_output (ZSTD_decompressStream d inp cap))).

(** The input still to be decoded: what the source has not delivered and
    what the engine has not consumed. *)
Definition input_left (c : zstdfile) : Z :=
  zlen (drop (f_pos (in_ c)) (f_data (in_ c))) + (ibuf_size c - ibuf_pos c).

(** The session is one of the engine's, the source has a position, and
    the output buffer has room. *)
Definition equipped (ok : ZSTD_DCtx -> Prop) (c : zstdfile) : Prop :=
  (exists d, decomp c = Some d /\ ok d) /\
  0 <= f_pos (in_ c) /\ 0 < obuf_size c.

Definition ready (ok : ZSTD_DCtx -> Prop) (c : zstdfile) : Prop :=
  steady c /\ equipped ok c.

(** What decreases from one pass of the read loop to the next. *)
Definition loop_measure (c : zstdfile) (n : Z) : Z :=
  2 * input_left c + 2 * n + (if obuf_pos c =? outbuf_start c then 1 else 0).

(** The fuel that is enough for a read call of [n] bytes. *)
Definition read_fuel (c : zstdfile) (n : Z) : nat :=
  Z.to_nat (2 * input_left c + 2 * n + 1) + 3.

End Adapter.

(** An outcome without the process state. *)
Definition forget_proc {A : Type} (o : outcome (A * proc)) : outcome A :=
  match o with
  | Ret (a, _) => Ret a
  | Abort w => Abort w
  | OutOfFuel => OutOfFuel
  end.

(** ** A reference engine

    A streaming decoder for the subset of the zstd frame format (RFC 8878)
    made of single-segment frames (a content size of 1, 2, 4 or 8 bytes,
    no checksum, no dictionary) with Raw blocks, written after the
    streaming path of libzstd 1.5 ([ZSTD_decompressStream] on a fresh
    session with its default parameters), from which it takes what a
    caller can see of a call: the bytes consumed, the bytes written and
    the value returned.

    - The header is loaded piece by piece.  Fewer than five bytes that
      are not the start of the magic number are refused at once.
    - A Raw block is passed on as its bytes arrive, a part at a time if
      the input ends inside it.
    - Decoded bytes are written as far as [dst] has room; what is left is
      written by the next calls before anything more is decoded.
    - The content size bounds the size of a block and of the decoded
      data, and is compared with the decoded length when the last block
      has been decoded; behind a last block of size zero only when the
      whole frame was at hand in one call that had room for all of its
      content ([decompressStream]).
    - At the end of a frame the call returns 0 and stops, whatever input
      is left.  If the frame is decoded but not all of it written, the
      last input byte is handed back to the caller and taken again only
      once everything is written.
    - Any other return value that is not an error is a hint at the input
      that is wanted next.  An error leaves the positions of both buffers
      as they were, except for the one that refuses the first bytes.

    A frame outside the subset (a window descriptor, a dictionary, a
    checksum, RLE or compressed blocks, a skippable frame) is refused
    with an error, where libzstd would decode it.  The guard of libzstd
    against sixteen calls in a row without progress is left out. *)

Module RefZstd.

Inductive dctx : Type :=
| FrameHeader (acc : list byte)
    (* magic number and descriptor: the bytes loaded so far *)
| ContentSize (w : Z) (acc : list byte)
    (* the content size field of [w] bytes: the bytes loaded so far *)
| BlockHeader (fcs done : Z) (acc : list byte)
    (* content size, bytes decoded so far; the 3 header bytes as loaded *)
| BlockBody (fcs done : Z) (last : bool) (need : Z)
    (* inside a Raw block with [need] bytes to come *)
| Flush (fcs done : Z) (last : bool) (need : Z) (pending : list byte)
    (* decoded bytes still to be written; then the block goes on *)
| Tail (pending : list byte).
    (* the frame is decoded; its last input byte is held back until
       [pending] is written *)

(** [(size_t)-ZSTD_error_prefix_unknown] and the like. *)
Definition err_prefix_unknown : Z := 2 ^ 64 - 10.
Definition err_unsupported : Z := 2 ^ 64 - 14.
Definition err_window_too_large : Z := 2 ^ 64 - 16.
Definition err_corruption : Z := 2 ^ 64 - 20.
Definition err_dst_too_small : Z := 2 ^ 64 - 70.

(** [ZSTD_isError]: a code above [(size_t)-ZSTD_error_maxCode]. *)
Definition isError (code : Z) : bool := code >? 2 ^ 64 - 120.

Definition magic : list byte := [Byte.x28; Byte.xb5; Byte.x2f; Byte.xfd].

Definition ZSTD_BLOCKSIZE_MAX : Z := 128 * 1024.

(** The largest window a session accepts by default,
    [(1 << ZSTD_WINDOWLOG_LIMIT_DEFAULT) + 1]. *)
Definition WINDOW_MAX : Z := 2 ^ 27 + 1.

Definition list_eqb (l m : list byte) : bool :=
  if list_eq_dec Byte.byte_eq_dec l m then true else false.

Fixpoint ledec (l : list byte) : Z :=
  match l with
  | [] => 0
  | b :: rest => byteZ b + 256 * ledec rest
  end.

(** Width of the content-size field for the frame header descriptors of
    the subset: Single_Segment_flag set, nothing else but the size flag
    (and the unused bit, which is ignored). *)
Definition fcs_width (descriptor : Z) : option Z :=
  let d := Z.land descriptor 0xEF in
  if d =? 0x20 then Some 1
  else if d =? 0x60 then Some 2
  else if d =? 0xA0 then Some 4
  else if d =? 0xE0 then Some 8
  else None.

(** The frame header descriptor, the byte behind the magic number. *)
Definition descriptor (hdr : list byte) : Z :=
  match drop 4 hdr with
  | b :: _ => byteZ b
  | [] => 0
  end.

(** The value of a content-size field; a field of two bytes is stored
    less 256. *)
Definition fcs_value (w : Z) (field : list byte) : Z :=
  ledec field + (if w =? 2 then 256 else 0).

(** What is returned while a Raw block with [need] bytes to come is the
    next thing wanted: its bytes, and the header of the block after it. *)
Definition body_hint (last : bool) (need : Z) : Z :=
  need + (if last then 0 else 3).

(** One call: consume [inp] and fill [out] as far as possible. *)
Fixpoint run (fuel : nat) (d : dctx) (inp : list byte) (consumed cap : Z)
    (out : list byte) : engine_step dctx :=
  let failed e := mkStep e d 0 [] in
  match fuel with
  | O => mkStep 1 d consumed out
  | S fuel' =>
      match d with
      | FrameHeader acc =>
          let chunk := take (5 - zlen acc) inp in
          let acc' := acc ++ chunk in
          if zlen acc' <? 5 then
            if negb (list_eqb acc' (take (zlen acc') magic)) then
              mkStep err_prefix_unknown d (consumed + zlen chunk) out
            else
              mkStep (9 - zlen acc') (FrameHeader acc')
                (consumed + zlen chunk) out
          else if negb (le32dec acc' =? ZSTD_MAGICNUMBER) then
            failed err_prefix_unknown
          else
            match fcs_width (descriptor acc') with
            | None => failed err_unsupported
            | Some w =>
                run fuel' (ContentSize w []) (drop (5 - zlen acc) inp)
                  (consumed + zlen chunk) cap out
            end
      | ContentSize w acc =>
          let chunk := take (w - zlen acc) inp in
          let acc' := acc ++ chunk in
          if zlen acc' <? w then
            mkStep (w - zlen acc' + 3) (ContentSize w acc')
              (consumed + zlen chunk) out
          else if fcs_value w acc' >? WINDOW_MAX then
            failed err_window_too_large
          else
            run fuel' (BlockHeader (fcs_value w acc') 0 [])
              (drop (w - zlen acc) inp) (consumed + zlen chunk) cap out
      | BlockHeader fcs done acc =>
          let chunk := take (3 - zlen acc) inp in
          let acc' := acc ++ chunk in
          let rest := drop (3 - zlen acc) inp in
          if zlen acc' <? 3 then
            mkStep (3 - zlen acc') (BlockHeader fcs done acc')
              (consumed + zlen chunk) out
          else
            let h := ledec (take 3 acc') in
            let last := Z.testbit h 0 in
            let btype := Z.land (Z.shiftr h 1) 3 in
            let bsize := Z.shiftr h 3 in
            if btype =? 3 then failed err_corruption
            else if negb (btype =? 0) then failed err_unsupported
            else if bsize >? Z.min fcs ZSTD_BLOCKSIZE_MAX then
              failed err_corruption
            else if 0 <? bsize then
              run fuel' (BlockBody fcs done last bsize) rest
                (consumed + zlen chunk) cap out
            else if last then
              mkStep 0 (FrameHeader []) (consumed + zlen chunk) out
            else
              run fuel' (BlockHeader fcs done []) rest
                (consumed + zlen chunk) cap out
      | BlockBody fcs done last need =>
          match inp with
          | [] => mkStep (body_hint last need) d consumed out
          | _ :: _ =>
              let chunk := take need inp in
              let got := zlen chunk in
              let room := cap - zlen out in
              if done + got >? fcs then failed err_dst_too_small
              else if (need - got =? 0) && last then
                if negb (done + got =? fcs) then failed err_corruption
                else if got <=? room then
                  mkStep 0 (FrameHeader []) (consumed + got) (out ++ chunk)
                else
                  mkStep 1 (Tail (drop room chunk)) (consumed + got - 1)
                    (out ++ take room chunk)
              else
                run fuel' (Flush fcs (done + got) last (need - got) chunk)
                  (drop need inp) (consumed + got) cap out
          end
      | Flush fcs done last need pending =>
          let room := cap - zlen out in
          let out' := out ++ take room pending in
          match drop room pending with
          | [] =>
              if 0 <? need then
                run fuel' (BlockBody fcs done last need) inp consumed cap out'
              else run fuel' (BlockHeader fcs done []) inp consumed cap out'
          | rest =>
              mkStep (if 0 <? need then body_hint last need else 3)
                (Flush fcs done last need rest) consumed out'
          end
      | Tail pending =>
          let room := cap - zlen out in
          let out' := out ++ take room pending in
          match drop room pending with
          | [] =>
              match inp with
              | [] => mkStep 1 (Tail []) consumed out'
              | _ :: _ => mkStep 0 (FrameHeader []) (consumed + 1) out'
              end
          | rest => mkStep 1 (Tail rest) consumed out'
          end
      end
  end.

(** The content size a frame announces: the field behind its
    descriptor. *)
Definition announced (frame : list byte) : Z :=
  match fcs_width (descriptor frame) with
  | Some w => fcs_value w (take w (drop 5 frame))
  | None => 0
  end.

(** [ZSTD_decompressStream].  Given a frame from its first byte to its
    last together with room for all of its content, libzstd decodes the
    frame in one pass, and then compares the content size with the
    decoded length also behind an empty last block. *)
Definition decompressStream (d : dctx) (inp : list byte) (cap : Z)
  : engine_step dctx :=
  let r := run (2 * List.length inp + 4) d inp 0 cap [] in
  match d with
  | FrameHeader [] =>
      if (es_ret r =? 0) && (announced inp <=? cap)
         && negb (zlen (es_output r) =? announced inp)
      then mkStep err_corruption d 0 []
      else r
  | _ => r
  end.

#[export] Instance engine : ZstdEngine dctx := {
  ZSTD_createDCtx := FrameHeader [];
  ZSTD_DStreamInSize := 131075;
  ZSTD_DStreamOutSize := 131072;
  ZSTD_isError := isError;
  ZSTD_decompressStream := decompressStream
}.

(** One frame, one Raw block: "hello world". *)
Definition hello_frame : list byte :=
  magic ++ [Byte.x20; Byte.x0b] ++ [Byte.x59; Byte.x00; Byte.x00]
    ++ list_byte_of_string "hello world".

(** A frame announcing 11 bytes, of which "hello" is there as a first
    Raw block; the file is cut off behind the header of the second. *)
Definition cut_frame : list byte :=
  magic ++ [Byte.x20; Byte.x0b] ++ [Byte.x28; Byte.x00; Byte.x00]
    ++ list_byte_of_string "hello" ++ [Byte.x31; Byte.x00; Byte.x00].

(** The cookie a read call of [n] bytes leaves behind. *)
Definition after_read (c : zstdfile) (n : Z) : zstdfile :=
  match zstdfile_read 4 c n p0 with
  | Ret (_, _, c', _) => c'
  | _ => c
  end.

Definition hello_c0 : zstdfile := fresh_cookie hello_frame.
Definition hello_c5 : zstdfile := after_read hello_c0 5.     (* "hello" read *)
Definition hello_c11 : zstdfile := after_read hello_c5 6.    (* " world" read *)
Definition hello_failed : zstdfile := after_read hello_c11 1.
Definition hello_all : zstdfile := after_read hello_c0 11.   (* one read of 11 *)

(** The cookie an absolute seek to [offset] leaves behind. *)
Definition after_seek (c : zstdfile) (offset : Z) : zstdfile :=
  match zstdfile_seek 5 c offset SEEK_SET p0 with
  | Ret (_, _, c', _) => c'
  | _ => c
  end.

Definition hello_end : zstdfile := after_seek hello_c0 100.   (* at the end *)
Definition hello_c16 : zstdfile := after_read hello_c0 16.    (* at the end *)

Definition cut_c0 : zstdfile := fresh_cookie cut_frame.
Definition cut_c5 : zstdfile := after_read cut_c0 8.         (* short read of 5 *)
Definition cut_failed : zstdfile := after_read cut_c5 8.

(** One frame, one Raw block of 40000 bytes: more than the 32 KiB a
    forward seek skips per read call. *)
Definition big_frame : list byte :=
  magic ++ [Byte.x60; Byte.x40; Byte.x9b] ++ [Byte.x01; Byte.xe2; Byte.x04]
    ++ List.repeat Byte.x61 (Z.to_nat 40000).

Definition big_c0 : zstdfile := fresh_cookie big_frame.

(** What a caller sees of a seek: return value, [*offset_], then the
    logical offset, the two flags and errno. *)
Definition seek_summary (o : outcome (Z * Z * @zstdfile dctx * proc))
  : option (Z * Z * Z * bool * bool * Z) :=
  match o with
  | Ret (r, off, c, p) =>
      Some (r, off, logic_offset c, eof c, truncated c, p_errno p)
  | _ => None
  end.

(** What a caller sees of a read: return value and number of bytes
    written, then the logical offset, the two flags and errno. *)
Definition read_summary (o : outcome (Z * list byte * @zstdfile dctx * proc))
  : option (Z * Z * Z * bool * bool * Z) :=
  match o with
  | Ret (r, b, c, p) =>
      Some (r, zlen b, logic_offset c, eof c, truncated c, p_errno p)
  | _ => None
  end.

(** A file that is not zstd. *)
Definition plain_file : FILE :=
  file_of (list_byte_of_string "plain text").

(** The sessions a call can leave behind: a header or a field that still
    lacks bytes, a block with bytes to come, decoded bytes to write. *)
Definition sane (d : dctx) : Prop :=
  match d with
  | FrameHeader acc => zlen acc < 5
  | ContentSize w acc => zlen acc < w
  | BlockHeader _ _ acc => zlen acc < 3
  | BlockBody _ _ _ need => 0 < need
  | Flush _ _ _ _ pending => pending <> []
  | Tail _ => True
  end.

(** The steps [run] can take from a session before it consumes input
    again, beyond two for each byte of input. *)
Definition slack (d : dctx) : Z :=
  match d with
  | FrameHeader _ | ContentSize _ _ | Tail _ => 1
  | BlockHeader _ _ _ | BlockBody _ _ _ _ => 2
  | Flush _ _ _ _ _ => 3
  end.



End RefZstd.

(** * Properties *)

Section Properties.
Context {ZSTD_DCtx : Type} {E : ZstdEngine ZSTD_DCtx}.
Local Abbreviation zstdfile := (@zstdfile ZSTD_DCtx).
Implicit Types c cm : zstdfile.

(** ** Machine integers *)

Lemma wrap64_range (x : Z) : 0 <= wrap64 x < 2 ^ 64.
Proof. unfold wrap64. apply Z.mod_pos_bound. lia. Qed.

Lemma wrap64_small (x : Z) : 0 <= x < 2 ^ 64 -> wrap64 x = x.
Proof. intros H. unfold wrap64. apply Z.mod_small. exact H. Qed.

Lemma sint64_small (x : Z) : 0 <= x < 2 ^ 63 -> sint64 x = x.
Proof.
  intros H. unfold sint64. rewrite wrap64_small by lia.
  destruct (x <? 2 ^ 63) eqn:Hlt; [reflexivity | apply Z.ltb_ge in Hlt; lia].
Qed.

(** ** The offsets move together (the assertion at the top of a read) *)

Lemma drain_offsets_agree (fuel : nat) :
  forall c l c' l',
    drain fuel c l = Some (c', l') ->
    l_ignorebytes l = 0 -> offsets_agree c ->
    offsets_agree c' /\ l_ignorebytes l' = 0.
Proof.
  induction fuel as [|fuel IH]; simpl; intros c l c' l' H Hi Ha; [discriminate|].
  destruct (obuf_pos c >? outbuf_start c) eqn:Hgt.
  - apply Z.gtb_lt in Hgt. rewrite Hi in H.
    rewrite Z.min_l in H by lia. simpl in H.
    destruct (l_size l - Z.min (obuf_pos c - outbuf_start c) (l_size l) =? 0).
    + inv H. split; [|reflexivity]. unfold offsets_agree in *. simpl. congruence.
    + apply IH in H; [exact H | reflexivity |].
      unfold offsets_agree in *. simpl. congruence.
  - inv H. auto.
Qed.

Lemma refill_offsets (c : zstdfile) (p : proc) :
  match refill c p with
  | RefillOk c' _ | RefillTruncated c' _ =>
      decode_offset c' = decode_offset c /\ logic_offset c' = logic_offset c
  | RefillFatal => True
  end.
Proof.
  unfold refill. destruct (ibuf_pos c =? ibuf_size c); [|auto].
  destruct (fread _ _ _) as [[got f1] e1].
  destruct (f_error f1).
  - destruct (e1 =? ENOBUFS); simpl; auto.
  - destruct (_ && _); simpl; auto.
Qed.

Lemma read_loop_offsets_agree (fuel : nat) :
  forall c p ret l c' p' l',
    read_loop fuel c p ret l = Ret (c', p', l') ->
    l_ignorebytes l = 0 -> offsets_agree c ->
    offsets_agree c'.
Proof.
  induction fuel as [|fuel IH]; simpl; intros c p ret l c' p' l' H Hi Ha;
    [discriminate|].
  destruct (drain fuel c l) as [[c1 l1]|] eqn:Hd; [|discriminate].
  destruct (drain_offsets_agree _ _ _ _ _ Hd Hi Ha) as [Ha1 Hi1].
  destruct (l_size l1 =? 0); [inv H; exact Ha1|].
  destruct (negb (obuf_pos c1 =? outbuf_start c1)); [discriminate|].
  destruct (ret =? 0); [inv H; exact Ha1|].
  pose proof (refill_offsets c1 p) as Hr.
  destruct (refill c1 p) as [c2 p2|c2 p2|]; [| |discriminate].
  - destruct Hr as [Hr1 Hr2]. simpl in H.
    destruct (decomp c2) as [d|]; [|discriminate].
    destruct (ZSTD_isError _); [discriminate|].
    destruct (negb (f_error (in_ c2)) && (l_size l1 >? 0)).
    + eapply IH; [exact H | exact Hi1 |].
      unfold offsets_agree in *. simpl. congruence.
    + inv H. unfold offsets_agree in *. simpl. congruence.
  - destruct Hr as [Hr1 Hr2]. inv H. unfold offsets_agree in *. congruence.
Qed.

Lemma read_out_offsets_agree (c : zstdfile) (p : proc) (l : locals) :
  forall r b c' p',
    read_out c p l = Ret (r, b, c', p') -> offsets_agree c -> offsets_agree c'.
Proof.
  unfold read_out. intros r b c' p' H Ha.
  repeat destr_in H; inv H; exact Ha.
Qed.

Lemma read_offsets_agree (fuel : nat) (c : zstdfile) (size : Z) (p : proc) :
  forall r b c' p',
    zstdfile_read fuel c size p = Ret (r, b, c', p') ->
    offsets_agree c -> offsets_agree c'.
Proof.
  unfold zstdfile_read. intros r b c' p' H Ha.
  destruct (size >? SSIZE_MAX); [discriminate|].
  destruct (size =? 0); [inv H; exact Ha|].
  destruct (eof c); [inv H; exact Ha|].
  destruct (truncated c); [eapply read_out_offsets_agree; eauto|].
  destruct (negb _) eqn:Hz; [discriminate|].
  apply negb_false_iff, Z.eqb_eq in Hz.
  destruct (read_loop _ _ _ _ _) as [[[c1 p1] l1]| |] eqn:Hl; try discriminate.
  eapply read_out_offsets_agree; [exact H|].
  eapply read_loop_offsets_agree; [exact Hl | exact Hz | exact Ha].
Qed.

Lemma seek_skip_offsets_agree (fuel : nat) :
  forall c p t r c' p',
    seek_skip fuel c p t = Ret (r, c', p') ->
    offsets_agree c -> offsets_agree c'.
Proof.
  induction fuel as [|fuel IH]; simpl; intros c p t r c' p' H Ha; [discriminate|].
  destruct (wrap64 t >? logic_offset c); [|inv H; exact Ha].
  destruct (zstdfile_read _ _ _ _) as [[[[err b] c1] p1]| |] eqn:Hr;
    try discriminate.
  pose proof (read_offsets_agree _ _ _ _ _ _ _ _ Hr Ha) as Ha1.
  destruct (err <? 0); [inv H; exact Ha1|].
  destruct (err =? 0).
  - destruct (eof c1); [inv H; exact Ha1 | discriminate].
  - eapply IH; eauto.
Qed.

Lemma seek_offsets_agree (fuel : nat) (c : zstdfile) (offset whence : Z)
    (p : proc) :
  forall r o c' p',
    zstdfile_seek fuel c offset whence p = Ret (r, o, c', p') ->
    offsets_agree c -> offsets_agree c'.
Proof.
  unfold zstdfile_seek. intros r o c' p' H Ha.
  destruct (seek_target c offset whence) as [t|]; [|inv H; exact Ha].
  destruct (t <? 0); [inv H; exact Ha|].
  destruct (_ && _); [inv H; exact Ha|].
  destruct (t =? 0).
  - simpl in H. destr_in H; [inv H; reflexivity | discriminate].
  - destruct (wrap64 t >? logic_offset c).
    + destruct (seek_skip _ _ _ _) as [[[r1 c1] p1]| |] eqn:Hs; try discriminate.
      apply seek_skip_offsets_agree in Hs; [|exact Ha].
      destruct r1 as [t'|]; [|inv H; exact Hs].
      destruct (logic_offset c1 =? wrap64 t'); [inv H; exact Hs | discriminate].
    + destruct (logic_offset c =? wrap64 t); [inv H; exact Ha | discriminate].
Qed.

(** ** C8: the offsets agree at every read *)

Lemma reachable_offsets_agree (c0 c : zstdfile) :
  offsets_agree c0 -> reachable c0 c -> offsets_agree c.
Proof.
  intros H0 Hr. induction Hr as [|c fuel size p r b c' p' _ IH Hread
                                  |c fuel offset whence p r o c' p' _ IH Hseek].
  - exact H0.
  - eapply read_offsets_agree; eauto.
  - eapply seek_offsets_agree; eauto.
Qed.

Lemma open_offsets_agree (inp : FILE) (mode : string) (p : proc)
    (c0 : zstdfile) :
  opens_to inp mode p c0 -> offsets_agree c0.
Proof.
  intros [p' H]. unfold zstdopenfile in H.
  destruct (_ || _); [discriminate|].
  destruct (fread 4 inp (p_errno p)) as [[hdr f1] e1].
  destruct (f_error f1); [discriminate|].
  destruct (zlen hdr <? 4); [discriminate|].
  destruct (negb _); [discriminate|].
  cbv beta iota zeta in H. unfold zstdfile_init in H.
  destruct (fopencookie mode _) as [[|] p3]; [|discriminate].
  inv H. reflexivity.
Qed.

Lemma read_loop_no_entry_assert (fuel : nat) :
  forall c p ret l,
    read_loop fuel c p ret l <> Abort (AssertFailed "ignorebytes == 0").
Proof.
  induction fuel as [|fuel IH]; simpl; intros c p ret l; [discriminate|].
  destruct (drain fuel c l) as [[c1 l1]|]; [|discriminate].
  destruct (l_size l1 =? 0); [discriminate|].
  destruct (negb (obuf_pos c1 =? outbuf_start c1)); [discriminate|].
  destruct (ret =? 0); [discriminate|].
  destruct (refill c1 p) as [c2 p2|c2 p2|]; try discriminate.
  destruct (decomp c2); [|discriminate].
  destruct (ZSTD_isError _); [discriminate|].
  destruct (_ && _); [apply IH | discriminate].
Qed.

(** C8.  In every state reached from a successful open through read and
    seek calls, [decode_offset] equals [logic_offset], the difference
    computed at the top of a read is zero, and no read call ends in the
    failure of the assertion [ignorebytes == 0]. *)
Theorem read_entry_offsets_equal :
  forall (inp : FILE) (mode : string) (p : proc) (c0 c : zstdfile),
    opens_to inp mode p c0 ->
    reachable c0 c ->
    decode_offset c = logic_offset c /\
    wrap64 (logic_offset c - decode_offset c) = 0 /\
    forall (fuel : nat) (size : Z) (q : proc),
      zstdfile_read fuel c size q <> Abort (AssertFailed "ignorebytes == 0").
Proof.
  intros inp mode p c0 c Ho Hr.
  assert (Ha : offsets_agree c).
  { eapply reachable_offsets_agree; [eapply open_offsets_agree|]; eauto. }
  unfold offsets_agree in Ha.
  assert (Hz : wrap64 (logic_offset c - decode_offset c) = 0).
  { rewrite Ha, Z.sub_diag. reflexivity. }
  repeat split; [exact Ha | exact Hz |].
  intros fuel size q. unfold zstdfile_read. rewrite Hz.
  change (negb (0 =? 0)) with false. cbv iota.
  destruct (size >? SSIZE_MAX); [discriminate|].
  destruct (size =? 0); [discriminate|].
  destruct (eof c); [discriminate|].
  destruct (truncated c).
  - unfold read_out. repeat destr_goal; discriminate.
  - pose proof (read_loop_no_entry_assert fuel c q 1
                  (mkLocals size 0 0 [])) as Hn.
    destruct (read_loop _ _ _ _ _) as [[[c1 p1] l1]| |] eqn:Hl.
    + unfold read_out. repeat destr_goal; discriminate.
    + intros Heq. apply Hn. inversion Heq. reflexivity.
    + discriminate.
Qed.

(** ** C5: rejected seek requests *)

(** C5.  A seek whose whence is neither SEEK_SET nor SEEK_CUR, or whose
    target is negative, or whose target is below the current logical
    offset and not zero, returns -1 and leaves [*offset_], the cookie and
    the process as they were.  In the last case the logical offset is one
    an [off64_t] can hold, so that the code's signed comparison is the
    numeric one. *)
Theorem seek_rejected_unchanged :
  forall (fuel : nat) (c : zstdfile) (offset whence : Z) (p : proc),
    (whence <> SEEK_SET /\ whence <> SEEK_CUR) \/
    (exists t, seek_target c offset whence = Some t /\
               (t < 0 \/
                (t < logic_offset c /\ t <> 0 /\
                 logic_offset c <= SSIZE_MAX))) ->
    zstdfile_seek fuel c offset whence p = Ret (-1, offset, c, p).
Proof.
  intros fuel c offset whence p H. unfold zstdfile_seek.
  destruct H as [[Hset Hcur] | [t [Ht Hbad]]].
  - unfold seek_target.
    apply Z.eqb_neq in Hset. apply Z.eqb_neq in Hcur.
    rewrite Hset, Hcur. reflexivity.
  - rewrite Ht. destruct (t <? 0) eqn:Hneg; [reflexivity|].
    apply Z.ltb_ge in Hneg.
    destruct Hbad as [Hlt | (Hlt & Hnz & Hmax)]; [lia|].
    rewrite sint64_small by (unfold SSIZE_MAX in Hmax; lia).
    apply Z.ltb_lt in Hlt. apply Z.eqb_neq in Hnz.
    rewrite Hlt, Hnz. reflexivity.
Qed.

(** ** C9: seeking to offset 0 *)

Lemma seek_zero (fuel : nat) (c : zstdfile) (offset whence : Z) (p : proc) :
  seek_target c offset whence = Some 0 ->
  zstdfile_seek fuel c offset whence p =
  Ret (0, 0, fst (zstdfile_init (cookie_alloc (rewind (in_ c))) p),
       heap_add 3 (heap_add (-3) p)).
Proof.
  intros Ht. unfold zstdfile_seek. rewrite Ht.
  simpl. rewrite andb_false_r. reflexivity.
Qed.

(** C9.  From every state, whatever its [eof] and [truncated] flags, a seek
    whose target is 0 returns 0 with [*offset_ = 0]; the cookie afterwards
    is the one [zstdfile_init] builds over the rewound source, the same as
    for a newly allocated cookie: flags clear, offsets and cursors zero,
    fresh session and buffers; the heap holds as many blocks as before. *)
Theorem seek_zero_reinitializes :
  forall (fuel : nat) (c : zstdfile) (offset whence : Z) (p : proc),
    seek_target c offset whence = Some 0 ->
    exists c' p',
      zstdfile_seek fuel c offset whence p = Ret (0, 0, c', p') /\
      c' = fst (zstdfile_init (cookie_alloc (rewind (in_ c))) p) /\
      in_ c' = rewind (in_ c) /\ f_pos (in_ c') = 0 /\
      f_eof (in_ c') = false /\ f_error (in_ c') = false /\
      eof c' = false /\ truncated c' = false /\
      logic_offset c' = 0 /\ decode_offset c' = 0 /\
      outbuf_start c' = 0 /\ obuf_pos c' = 0 /\
      ibuf_pos c' = 0 /\ ibuf_size c' = 0 /\
      decomp c' = Some ZSTD_createDCtx /\
      p_heap p' = p_heap p /\ p_errno p' = p_errno p.
Proof.
  intros fuel c offset whence p Ht.
  do 2 eexists. split; [apply seek_zero; exact Ht|].
  simpl. repeat split. lia.
Qed.

(** ** C2: reads once [truncated] is set *)

Lemma read_truncated (fuel : nat) (c : zstdfile) (size : Z) (p : proc) :
  truncated c = true -> 0 < size <= SSIZE_MAX ->
  zstdfile_read fuel c size p =
  if eof c then Ret (0, [], c, p)
  else Ret (-1, [], set_eof true c, set_errno ENOBUFS p).
Proof.
  intros Ht [Hpos Hmax]. unfold zstdfile_read.
  destruct (size >? SSIZE_MAX) eqn:Hbig; [apply Z.gtb_lt in Hbig; lia|].
  destruct (size =? 0) eqn:Hz; [apply Z.eqb_eq in Hz; lia|].
  destruct (eof c); [reflexivity|].
  rewrite Ht. unfold read_out. simpl. rewrite Ht. reflexivity.
Qed.

Lemma read_seq_eof (fuel : nat) (c : zstdfile) (p : proc) (sizes : list Z) :
  eof c = true ->
  Forall (fun n => 0 < n <= SSIZE_MAX) sizes ->
  read_seq fuel c p sizes = Ret (map (fun _ => 0) sizes, c, p).
Proof.
  intros He Hs. induction Hs as [|n rest Hn _ IH]; simpl; [reflexivity|].
  unfold zstdfile_read.
  destruct (n >? SSIZE_MAX) eqn:Hbig; [apply Z.gtb_lt in Hbig; lia|].
  destruct (n =? 0) eqn:Hz; [apply Z.eqb_eq in Hz; lia|].
  rewrite He, IH. reflexivity.
Qed.

(** C2, amended.  From a state with [truncated] set no read call returns a
    positive count: while [eof] is clear the next read call returns -1
    with errno ENOBUFS and sets [eof]; every read call made once [eof] is
    set returns 0 and changes nothing. *)
Theorem truncated_reads_error_then_zero :
  forall (fuel : nat) (c : zstdfile) (p : proc) (sizes : list Z),
    truncated c = true ->
    Forall (fun n => 0 < n <= SSIZE_MAX) sizes ->
    read_seq fuel c p sizes =
    if eof c then Ret (map (fun _ => 0) sizes, c, p)
    else match sizes with
         | [] => Ret ([], c, p)
         | _ :: rest =>
             Ret (-1 :: map (fun _ => 0) rest, set_eof true c,
                  set_errno ENOBUFS p)
         end.
Proof.
  intros fuel c p sizes Ht Hs.
  destruct (eof c) eqn:He; [apply read_seq_eof; assumption|].
  destruct Hs as [|n rest Hn Hrest]; [reflexivity|].
  simpl. rewrite read_truncated by assumption. rewrite He.
  rewrite read_seq_eof by (auto). reflexivity.
Qed.

(** ** C3: the error path of a read *)

Lemma drain_counts (fuel : nat) (n : Z) :
  n <= SSIZE_MAX ->
  forall c l c' l',
    drain fuel c l = Some (c', l') -> counts_ok n l -> counts_ok n l'.
Proof.
  intros Hn. induction fuel as [|fuel IH]; simpl; intros c l c' l' H Hc;
    [discriminate|].
  destruct (obuf_pos c >? outbuf_start c) eqn:Hgt; [|inv H; exact Hc].
  apply Z.gtb_lt in Hgt. destruct Hc as (Hs & Ht & Hsum).
  set (left := obuf_pos c - outbuf_start c) in *.
  set (skip := Z.min (l_ignorebytes l) left) in *.
  assert (Hstep : forall c1 ign left1, 0 <= left1 ->
    (if ign >? 0
     then Some (c1, mkLocals (l_size l) ign (l_total l) (l_buf l))
     else
       if l_size l - Z.min left1 (l_size l) =? 0
       then Some (deliver_output (Z.min left1 (l_size l)) c1,
                  mkLocals (l_size l - Z.min left1 (l_size l)) ign
                    (sint64 (l_total l + Z.min left1 (l_size l)))
                    (l_buf l ++ take (Z.min left1 (l_size l))
                                  (drop (outbuf_start c1) (buf_bytes (outbuf c1)))))
       else drain fuel (deliver_output (Z.min left1 (l_size l)) c1)
              (mkLocals (l_size l - Z.min left1 (l_size l)) ign
                 (sint64 (l_total l + Z.min left1 (l_size l)))
                 (l_buf l ++ take (Z.min left1 (l_size l))
                               (drop (outbuf_start c1) (buf_bytes (outbuf c1))))))
    = Some (c', l') -> counts_ok n l').
  { intros c1 ign left1 Hl1 H1.
    destruct (ign >? 0); [inv H1; repeat split; assumption|].
    assert (Hok : counts_ok n
              (mkLocals (l_size l - Z.min left1 (l_size l)) ign
                 (sint64 (l_total l + Z.min left1 (l_size l)))
                 (l_buf l ++ take (Z.min left1 (l_size l))
                               (drop (outbuf_start c1) (buf_bytes (outbuf c1)))))).
    { unfold counts_ok; simpl.
      rewrite sint64_small by (unfold SSIZE_MAX in Hn; lia). lia. }
    destruct (_ =? 0); [inv H1; exact Hok | eapply IH; eauto]. }
  destruct (skip >? 0) eqn:Hsk.
  - apply (Hstep (skip_output skip c) (l_ignorebytes l - skip) (left - skip));
      [subst skip; lia | exact H].
  - apply (Hstep c (l_ignorebytes l) left); [lia | exact H].
Qed.

Lemma read_loop_counts (fuel : nat) (n : Z) :
  n <= SSIZE_MAX ->
  forall c p ret l c' p' l',
    read_loop fuel c p ret l = Ret (c', p', l') ->
    counts_ok n l -> counts_ok n l'.
Proof.
  intros Hn. induction fuel as [|fuel IH]; simpl;
    intros c p ret l c' p' l' H Hc; [discriminate|].
  destruct (drain fuel c l) as [[c1 l1]|] eqn:Hd; [|discriminate].
  pose proof (drain_counts _ _ Hn _ _ _ _ Hd Hc) as Hc1.
  destruct (l_size l1 =? 0); [inv H; exact Hc1|].
  destruct (negb (obuf_pos c1 =? outbuf_start c1)); [discriminate|].
  destruct (ret =? 0); [inv H; exact Hc1|].
  destruct (refill c1 p) as [c2 p2|c2 p2|]; [| |discriminate].
  - simpl in H. destruct (decomp c2) as [d|]; [|discriminate].
    destruct (ZSTD_isError _); [discriminate|].
    destruct (_ && _); [eapply IH; eauto | inv H; exact Hc1].
  - inv H. exact Hc1.
Qed.

(** The error path.  A read call on a stream at [eof] returns 0 and
    changes nothing.  Every other read call of nonzero size that returns does so through the
    label [out], and there: with [total > 0] it returns [total] and
    changes nothing more (a short read); with [total = 0] and [truncated]
    set it sets [eof], sets errno to ENOBUFS and returns -1; with
    [total = 0] and [truncated] clear it returns 0 and sets nothing. *)
Theorem read_error_path :
  forall (fuel : nat) (c : zstdfile) (size : Z) (p : proc),
    0 < size <= SSIZE_MAX ->
    (eof c = true -> zstdfile_read fuel c size p = Ret (0, [], c, p)) /\
    (forall r b c' p',
        eof c = false ->
        zstdfile_read fuel c size p = Ret (r, b, c', p') ->
        exists cm pm l,
          arrives_out fuel c size p = Ret (cm, pm, l) /\
          b = l_buf l /\ 0 <= l_total l /\
          ((0 < l_total l /\ r = l_total l /\ c' = cm /\ p' = pm) \/
           (l_total l = 0 /\ truncated cm = true /\ r = -1 /\
            c' = set_eof true cm /\ eof c' = true /\
            p' = set_errno ENOBUFS pm /\ p_errno p' = ENOBUFS) \/
           (l_total l = 0 /\ truncated cm = false /\ r = 0 /\
            c' = cm /\ p' = pm))).
Proof.
  intros fuel c size p [Hpos Hmax].
  assert (Hbig : (size >? SSIZE_MAX) = false).
  { destruct (size >? SSIZE_MAX) eqn:Hb; [apply Z.gtb_lt in Hb; lia | reflexivity]. }
  assert (Hz : (size =? 0) = false) by (apply Z.eqb_neq; lia).
  split.
  - intros He. unfold zstdfile_read. rewrite Hbig, Hz, He. reflexivity.
  - intros r b c' p' He H. unfold zstdfile_read in H.
    rewrite Hbig, Hz, He in H. unfold arrives_out.
    assert (Hout : forall cm pm l,
      0 <= l_total l ->
      read_out cm pm l = Ret (r, b, c', p') ->
      b = l_buf l /\ 0 <= l_total l /\
      ((0 < l_total l /\ r = l_total l /\ c' = cm /\ p' = pm) \/
       (l_total l = 0 /\ truncated cm = true /\ r = -1 /\
        c' = set_eof true cm /\ eof c' = true /\
        p' = set_errno ENOBUFS pm /\ p_errno p' = ENOBUFS) \/
       (l_total l = 0 /\ truncated cm = false /\ r = 0 /\
        c' = cm /\ p' = pm))).
    { intros cm pm l Hge Ho. unfold read_out in Ho.
      destruct (l_total l >? SSIZE_MAX); [discriminate|].
      destruct (l_total l >? 0) eqn:Hgt.
      - apply Z.gtb_lt in Hgt. inv Ho.
        split; [reflexivity|]. split; [exact Hge|]. left. auto.
      - assert (Hzero : l_total l = 0).
        { destruct (Z.gtb_spec (l_total l) 0); [discriminate | lia]. }
        destruct (truncated cm) eqn:Htr; inv Ho;
          (split; [reflexivity|]); (split; [exact Hge|]).
        + right; left. repeat split; auto.
        + right; right. repeat split; auto. }
    destruct (truncated c) eqn:Htr.
    + exists c, p, (mkLocals size 0 0 []). split; [reflexivity|].
      apply Hout; [simpl; lia | exact H].
    + destruct (negb _); [discriminate|].
      destruct (read_loop _ _ _ _ _) as [[[c1 p1] l1]| |] eqn:Hl;
        try discriminate.
      exists c1, p1, l1. split; [reflexivity|].
      apply Hout; [|exact H].
      eapply (read_loop_counts fuel size Hmax) in Hl;
        [destruct Hl as (_ & Hl & _); exact Hl|].
      unfold counts_ok; simpl; lia.
Qed.

(** ** C4: a source that is not zstd *)

Lemma fread_same_source (n : Z) (f : FILE) (e : Z) :
  same_source (snd (fst (fread n f e))) f.
Proof.
  unfold fread, same_source.
  destruct (_ <? n); [destruct (f_fault f)|]; simpl; auto.
Qed.

(** C4.  Opened for reading on a source whose next four bytes are read
    without error and are not the little-endian zstd magic number,
    [zstdopenfile] returns the source itself, rewound to its start with
    the same contents, stores false in [*was_zstd], and allocates nothing:
    no cookie is built and the heap and errno are as before. *)
Theorem open_not_zstd_returns_source :
  forall (inp : FILE) (mode : string) (p : proc) (hdr : list byte),
    mode_has "w"%char mode = false ->
    mode_has "a"%char mode = false ->
    f_error inp = false ->
    take 4 (drop (f_pos inp) (f_data inp)) = hdr ->
    zlen hdr = 4 ->
    le32dec hdr <> ZSTD_MAGICNUMBER ->
    zstdopenfile inp mode p = (OpenPlain (rewind inp), Some false, p) /\
    f_pos (rewind inp) = 0 /\
    f_data (rewind inp) = f_data inp /\
    p_heap (snd (zstdopenfile inp mode p)) = p_heap p.
Proof.
  intros inp mode p hdr Hw Ha Herr Hhdr Hlen Hmagic.
  assert (Hopen : zstdopenfile inp mode p = (OpenPlain (rewind inp), Some false, p)).
  { unfold zstdopenfile, fread. rewrite Hw, Ha, Hhdr, Hlen. simpl.
    rewrite Herr. apply Z.eqb_neq in Hmagic. rewrite Hmagic. simpl.
    rewrite Hlen. unfold rewind, set_errno. simpl. destruct p; reflexivity. }
  rewrite Hopen. repeat split.
Qed.

(** ** C7: rewinding *)

(** *** Reads and seeks never change what the source holds *)

Lemma same_source_refl (f : FILE) : same_source f f.
Proof. split; reflexivity. Qed.

Lemma same_source_trans (f g h : FILE) :
  same_source f g -> same_source g h -> same_source f h.
Proof. intros [H1 H2] [H3 H4]. split; congruence. Qed.

Lemma rewind_same_source (f g : FILE) :
  same_source f g -> rewind f = rewind g.
Proof. intros [H1 H2]. unfold rewind. rewrite H1, H2. reflexivity. Qed.

Lemma drain_frame (fuel : nat) :
  forall c l c' l',
    drain fuel c l = Some (c', l') ->
    in_ c' = in_ c /\ truncated c' = truncated c /\ eof c' = eof c.
Proof.
  induction fuel as [|fuel IH]; simpl; intros c l c' l' H; [discriminate|].
  destruct (obuf_pos c >? outbuf_start c); [|inv H; auto].
  destruct (Z.min (l_ignorebytes l) (obuf_pos c - outbuf_start c) >? 0).
  - destruct (_ >? 0); [inv H; auto|].
    destruct (_ =? 0); [inv H; auto|]. apply IH in H. exact H.
  - destruct (_ >? 0); [inv H; auto|].
    destruct (_ =? 0); [inv H; auto|]. apply IH in H. exact H.
Qed.

Lemma refill_same_source (c : zstdfile) (p : proc) :
  match refill c p with
  | RefillOk c' _ | RefillTruncated c' _ => same_source (in_ c') (in_ c)
  | RefillFatal => True
  end.
Proof.
  unfold refill. destruct (ibuf_pos c =? ibuf_size c);
    [|apply same_source_refl].
  pose proof (fread_same_source (inbuf_size c) (in_ c) (p_errno p)) as Hs.
  destruct (fread _ _ _) as [[got f1] e1]. simpl in Hs.
  destruct (f_error f1).
  - destruct (e1 =? ENOBUFS); simpl; auto.
  - destruct (_ && _); simpl; auto.
Qed.

Lemma read_loop_same_source (fuel : nat) :
  forall c p ret l c' p' l',
    read_loop fuel c p ret l = Ret (c', p', l') ->
    same_source (in_ c') (in_ c).
Proof.
  induction fuel as [|fuel IH]; simpl; intros c p ret l c' p' l' H;
    [discriminate|].
  destruct (drain fuel c l) as [[c1 l1]|] eqn:Hd; [|discriminate].
  apply drain_frame in Hd. destruct Hd as (Hin & _ & _).
  rewrite <- Hin.
  destruct (l_size l1 =? 0); [inv H; apply same_source_refl|].
  destruct (negb (obuf_pos c1 =? outbuf_start c1)); [discriminate|].
  destruct (ret =? 0); [inv H; apply same_source_refl|].
  pose proof (refill_same_source c1 p) as Hr.
  destruct (refill c1 p) as [c2 p2|c2 p2|]; [| |discriminate].
  - simpl in H. destruct (decomp c2) as [d|]; [|discriminate].
    destruct (ZSTD_isError _); [discriminate|].
    destruct (_ && _).
    + apply IH in H. simpl in H. eapply same_source_trans; eauto.
    + inv H. exact Hr.
  - inv H. exact Hr.
Qed.

Lemma read_out_in (c : zstdfile) (p : proc) (l : locals) :
  forall r b c' p', read_out c p l = Ret (r, b, c', p') -> in_ c' = in_ c.
Proof.
  unfold read_out. intros r b c' p' H. repeat destr_in H; inv H; reflexivity.
Qed.

Lemma read_same_source (fuel : nat) (c : zstdfile) (size : Z) (p : proc) :
  forall r b c' p',
    zstdfile_read fuel c size p = Ret (r, b, c', p') ->
    same_source (in_ c') (in_ c).
Proof.
  unfold zstdfile_read. intros r b c' p' H.
  destruct (size >? SSIZE_MAX); [discriminate|].
  destruct (size =? 0); [inv H; apply same_source_refl|].
  destruct (eof c); [inv H; apply same_source_refl|].
  destruct (truncated c).
  { apply read_out_in in H. rewrite H. apply same_source_refl. }
  destruct (negb _); [discriminate|].
  destruct (read_loop _ _ _ _ _) as [[[c1 p1] l1]| |] eqn:Hl; try discriminate.
  apply read_out_in in H. rewrite H.
  eapply read_loop_same_source; eauto.
Qed.

Lemma seek_skip_same_source (fuel : nat) :
  forall c p t r c' p',
    seek_skip fuel c p t = Ret (r, c', p') -> same_source (in_ c') (in_ c).
Proof.
  induction fuel as [|fuel IH]; simpl; intros c p t r c' p' H; [discriminate|].
  destruct (wrap64 t >? logic_offset c); [|inv H; apply same_source_refl].
  destruct (zstdfile_read _ _ _ _) as [[[[err b] c1] p1]| |] eqn:Hr;
    try discriminate.
  apply read_same_source in Hr.
  destruct (err <? 0); [inv H; exact Hr|].
  destruct (err =? 0).
  - destruct (eof c1); [inv H; exact Hr | discriminate].
  - apply IH in H. eapply same_source_trans; eauto.
Qed.

Lemma seek_same_source (fuel : nat) (c : zstdfile) (offset whence : Z)
    (p : proc) :
  forall r o c' p',
    zstdfile_seek fuel c offset whence p = Ret (r, o, c', p') ->
    same_source (in_ c') (in_ c).
Proof.
  unfold zstdfile_seek. intros r o c' p' H.
  destruct (seek_target c offset whence) as [t|];
    [|inv H; apply same_source_refl].
  destruct (t <? 0); [inv H; apply same_source_refl|].
  destruct (_ && _); [inv H; apply same_source_refl|].
  destruct (t =? 0).
  - simpl in H. destr_in H; [inv H; split; reflexivity | discriminate].
  - destruct (wrap64 t >? logic_offset c).
    + destruct (seek_skip _ _ _ _) as [[[r1 c1] p1]| |] eqn:Hs; try discriminate.
      apply seek_skip_same_source in Hs.
      destruct r1 as [t'|]; [|inv H; exact Hs].
      destruct (logic_offset c1 =? wrap64 t'); [inv H; exact Hs | discriminate].
    + destruct (logic_offset c =? wrap64 t);
        [inv H; apply same_source_refl | discriminate].
Qed.

Lemma reachable_same_source (c0 c : zstdfile) :
  reachable c0 c -> same_source (in_ c) (in_ c0).
Proof.
  intros Hr. induction Hr as [|c fuel size p r b c' p' _ IH Hread
                               |c fuel offset whence p r o c' p' _ IH Hseek].
  - apply same_source_refl.
  - eapply same_source_trans; [eapply read_same_source; eauto | exact IH].
  - eapply same_source_trans; [eapply seek_same_source; eauto | exact IH].
Qed.

(** The cookie of a successful open is the initial state over the rewound
    source. *)
Lemma fresh_cookie_shape (inp : FILE) (mode : string) (p : proc)
    (c0 : zstdfile) :
  opens_to inp mode p c0 ->
  forall q, c0 = fst (zstdfile_init (cookie_alloc (rewind inp)) q).
Proof.
  intros [p' H] q. unfold zstdopenfile in H.
  destruct (_ || _); [discriminate|].
  pose proof (fread_same_source 4 inp (p_errno p)) as Hs.
  destruct (fread 4 inp (p_errno p)) as [[hdr f1] e1]. simpl in Hs.
  destruct (f_error f1); [discriminate|].
  destruct (zlen hdr <? 4); [discriminate|].
  destruct (negb _); [discriminate|].
  cbv beta iota zeta in H. unfold zstdfile_init in H.
  destruct (fopencookie mode _) as [[|] p3]; [|discriminate].
  inv H. simpl. rewrite (rewind_same_source _ _ Hs). reflexivity.
Qed.

(** *** What a read returns does not depend on the errno it starts with *)

Lemma refill_indep (c : zstdfile) (p q : proc) :
  f_error (in_ c) = false ->
  match refill c p, refill c q with
  | RefillOk c1 _, RefillOk c2 _ => c1 = c2 /\ f_error (in_ c1) = false
  | RefillTruncated c1 _, RefillTruncated c2 _ =>
      c1 = c2 /\ truncated c1 = true
  | RefillFatal, RefillFatal => True
  | _, _ => False
  end.
Proof.
  intros Herr. unfold refill, fread.
  destruct (ibuf_pos c =? ibuf_size c); [|auto].
  destruct (_ <? inbuf_size c).
  - destruct (f_fault (in_ c)) as [e|]; simpl.
    + destruct (e =? ENOBUFS); simpl; auto.
    + rewrite Herr. destruct (_ =? 0); simpl; auto.
  - simpl. rewrite Herr. destruct (_ && _); simpl; auto.
Qed.

Lemma read_loop_indep (fuel : nat) :
  forall c p q ret l,
    f_error (in_ c) = false ->
    match read_loop fuel c p ret l, read_loop fuel c q ret l with
    | Ret (c1, _, l1), Ret (c2, _, l2) =>
        c1 = c2 /\ l1 = l2 /\ error_noted c1
    | Abort w1, Abort w2 => w1 = w2
    | OutOfFuel, OutOfFuel => True
    | _, _ => False
    end.
Proof.
  induction fuel as [|fuel IH]; simpl; intros c p q ret l Herr; [exact I|].
  destruct (drain fuel c l) as [[c1 l1]|] eqn:Hd; [|exact I].
  apply drain_frame in Hd. destruct Hd as (Hin & _ & _).
  assert (Herr1 : f_error (in_ c1) = false) by (rewrite Hin; exact Herr).
  assert (Hn1 : error_noted c1) by (intros Hx; congruence).
  destruct (l_size l1 =? 0); [auto|].
  destruct (negb (obuf_pos c1 =? outbuf_start c1)); [reflexivity|].
  destruct (ret =? 0).
  { repeat split. intros Hx. simpl in Hx. congruence. }
  pose proof (refill_indep c1 p q Herr1) as Hr.
  destruct (refill c1 p) as [c2 p2|c2 p2|];
    destruct (refill c1 q) as [c3 p3|c3 p3|]; try contradiction.
  - destruct Hr as [<- Herr2]. simpl.
    destruct (decomp c2) as [d|]; [|reflexivity].
    destruct (ZSTD_isError _); [reflexivity|].
    rewrite Herr2. simpl.
    destruct (l_size l1 >? 0).
    + apply IH. exact Herr2.
    + repeat split. intros Hx. simpl in Hx. congruence.
  - destruct Hr as [<- Htr]. repeat split. intros _. exact Htr.
  - reflexivity.
Qed.

Lemma read_out_noted (c : zstdfile) (p : proc) (l : locals) :
  forall r b c' p',
    read_out c p l = Ret (r, b, c', p') -> error_noted c -> error_noted c'.
Proof.
  unfold read_out. intros r b c' p' H Hn.
  repeat destr_in H; inv H; exact Hn.
Qed.

Lemma read_out_indep (c : zstdfile) (p q : proc) (l : locals) :
  forget_proc (read_out c p l) = forget_proc (read_out c q l).
Proof. unfold read_out. repeat destr_goal; reflexivity. Qed.

Lemma read_indep (fuel : nat) (c : zstdfile) (size : Z) (p q : proc) :
  error_noted c ->
  forget_proc (zstdfile_read fuel c size p) =
  forget_proc (zstdfile_read fuel c size q) /\
  forall r b c' p',
    zstdfile_read fuel c size p = Ret (r, b, c', p') -> error_noted c'.
Proof.
  intros Hn. unfold zstdfile_read.
  destruct (size >? SSIZE_MAX); [split; [reflexivity | discriminate]|].
  destruct (size =? 0).
  { split; [reflexivity|]. intros r b c' p' H. inv H. exact Hn. }
  destruct (eof c).
  { split; [reflexivity|]. intros r b c' p' H. inv H. exact Hn. }
  destruct (truncated c) eqn:Htr.
  { split; [apply read_out_indep|].
    intros r b c' p' H. eapply read_out_noted; eauto. }
  destruct (negb _); [split; [reflexivity | discriminate]|].
  assert (Herr : f_error (in_ c) = false).
  { destruct (f_error (in_ c)) eqn:He; [|reflexivity].
    specialize (Hn He). congruence. }
  pose proof (read_loop_indep fuel c p q 1
                (mkLocals size (wrap64 (logic_offset c - decode_offset c)) 0 [])
                Herr) as Hl.
  destruct (read_loop fuel c p _ _) as [[[c1 p1] l1]|w1|];
    destruct (read_loop fuel c q _ _) as [[[c2 p2] l2]|w2|];
    try contradiction.
  - destruct Hl as (<- & <- & Hn1). split; [apply read_out_indep|].
    intros r b c' p' H. eapply read_out_noted; eauto.
  - subst w2. split; [reflexivity | discriminate].
  - split; [reflexivity | discriminate].
Qed.

Lemma read_to_end_indep (fuel : nat) (chunk : Z) :
  forall c p q,
    error_noted c ->
    forget_proc (read_to_end fuel chunk c p) =
    forget_proc (read_to_end fuel chunk c q).
Proof.
  induction fuel as [|fuel IH]; simpl; intros c p q Hn; [reflexivity|].
  destruct (read_indep fuel c chunk p q Hn) as [Hf Hnext].
  destruct (zstdfile_read fuel c chunk p) as [[[[r b] c1] p1]|w1|];
    destruct (zstdfile_read fuel c chunk q) as [[[[r2 b2] c2] p2]|w2|];
    simpl in Hf; try discriminate;
    [| inversion Hf; reflexivity | reflexivity].
  inv Hf. destruct (r2 >? 0); [|reflexivity].
  specialize (IH c2 p1 p2 (Hnext _ _ _ _ eq_refl)).
  destruct (read_to_end fuel chunk c2 p1) as [[[[m1 e1] d1] s1]|w1|];
    destruct (read_to_end fuel chunk c2 p2) as [[[[m2 e2] d2] s2]|w2|];
    simpl in IH; try discriminate;
    [| inversion IH; reflexivity | reflexivity].
  inv IH. reflexivity.
Qed.

(** C7.  Whatever has been read or sought since a successful open, a seek
    to offset 0 returns 0 and puts the cookie back in the very state the
    open left it in; reading from there to the end in chunks of any size
    gives the same bytes, the same final return value and the same final
    cookie as reading to the end right after the open. *)
Theorem rewind_then_read_is_fresh_read :
  forall (inp : FILE) (mode : string) (p : proc) (c0 c : zstdfile),
    opens_to inp mode p c0 ->
    reachable c0 c ->
    forall (fuel : nat) (offset whence : Z) (q : proc),
      seek_target c offset whence = Some 0 ->
      exists q',
        zstdfile_seek fuel c offset whence q = Ret (0, 0, c0, q') /\
        forall (fuel' : nat) (chunk : Z) (q0 : proc),
          forget_proc (read_to_end fuel' chunk c0 q') =
          forget_proc (read_to_end fuel' chunk c0 q0).
Proof.
  intros inp mode p c0 c Ho Hr fuel offset whence q Ht.
  pose proof (seek_zero fuel c offset whence q Ht) as Hseek.
  pose proof (fresh_cookie_shape _ _ _ _ Ho q) as Hc0.
  assert (Heq : fst (zstdfile_init (cookie_alloc (rewind (in_ c))) q) = c0).
  { simpl.
    rewrite (rewind_same_source (in_ c) (in_ c0)) by
      (apply reachable_same_source; exact Hr).
    rewrite Hc0. unfold rewind. simpl. reflexivity. }
  rewrite Heq in Hseek.
  eexists. split; [exact Hseek|].
  intros fuel' chunk q0. apply read_to_end_indep.
  intros Hx. rewrite Hc0 in Hx. simpl in Hx. discriminate.
Qed.

(** ** More fuel never changes a result *)

Lemma drain_fuel_mono (n : nat) :
  forall m c l r, (n <= m)%nat -> drain n c l = Some r -> drain m c l = Some r.
Proof.
  induction n as [|n IH]; intros m c l r Hle H; [discriminate|].
  destruct m as [|m]; [lia|]. simpl in *.
  destruct (obuf_pos c >? outbuf_start c); [|exact H].
  destruct (Z.min (l_ignorebytes l) (obuf_pos c - outbuf_start c) >? 0).
  - destruct (_ >? 0); [exact H|].
    destruct (_ =? 0); [exact H|]. apply IH; [lia | exact H].
  - destruct (_ >? 0); [exact H|].
    destruct (_ =? 0); [exact H|]. apply IH; [lia | exact H].
Qed.

Lemma read_loop_fuel_mono (n : nat) :
  forall m c p ret l r,
    (n <= m)%nat -> read_loop n c p ret l = r -> r <> OutOfFuel ->
    read_loop m c p ret l = r.
Proof.
  induction n as [|n IH]; intros m c p ret l r Hle H Hr;
    [simpl in H; congruence|].
  destruct m as [|m]; [lia|]. simpl in *.
  destruct (drain n c l) as [[c1 l1]|] eqn:Hd; [|congruence].
  rewrite (drain_fuel_mono n m c l (c1, l1)) by (lia || exact Hd).
  destruct (l_size l1 =? 0); [exact H|].
  destruct (negb (obuf_pos c1 =? outbuf_start c1)); [exact H|].
  destruct (ret =? 0); [exact H|].
  destruct (refill c1 p) as [c2 p2|c2 p2|]; try exact H.
  destruct (decomp c2); [|exact H].
  destruct (ZSTD_isError _); [exact H|].
  destruct (_ && _); [|exact H].
  apply IH; [lia | exact H | exact Hr].
Qed.

Lemma read_fuel_mono (n m : nat) (c : zstdfile) (size : Z) (p : proc) :
  forall r,
    (n <= m)%nat -> zstdfile_read n c size p = r -> r <> OutOfFuel ->
    zstdfile_read m c size p = r.
Proof.
  unfold zstdfile_read. intros r Hle H Hr.
  destruct (size >? SSIZE_MAX); [exact H|].
  destruct (size =? 0); [exact H|].
  destruct (eof c); [exact H|].
  destruct (truncated c); [exact H|].
  destruct (negb _); [exact H|].
  destruct (read_loop n c p _ _) as [a|w|] eqn:Hl; [| |congruence].
  - rewrite (read_loop_fuel_mono n m _ _ _ _ _ Hle Hl) by discriminate.
    exact H.
  - rewrite (read_loop_fuel_mono n m _ _ _ _ _ Hle Hl) by discriminate.
    exact H.
Qed.

Lemma seek_skip_fuel_mono (n : nat) :
  forall m c p t r,
    (n <= m)%nat -> seek_skip n c p t = r -> r <> OutOfFuel ->
    seek_skip m c p t = r.
Proof.
  induction n as [|n IH]; intros m c p t r Hle H Hr;
    [simpl in H; congruence|].
  destruct m as [|m]; [lia|]. simpl in *.
  destruct (wrap64 t >? logic_offset c); [|exact H].
  destruct (zstdfile_read n c _ p) as [[[[err b] c1] p1]|w|] eqn:Hread;
    [| |congruence].
  - rewrite (read_fuel_mono n m _ _ _ _ ltac:(lia) Hread) by discriminate.
    destruct (err <? 0); [exact H|].
    destruct (err =? 0); [exact H|].
    apply IH; [lia | exact H | exact Hr].
  - rewrite (read_fuel_mono n m _ _ _ _ ltac:(lia) Hread) by discriminate.
    exact H.
Qed.

Lemma seek_fuel_mono (n m : nat) (c : zstdfile) (offset whence : Z)
    (p : proc) :
  forall r,
    (n <= m)%nat -> zstdfile_seek n c offset whence p = r -> r <> OutOfFuel ->
    zstdfile_seek m c offset whence p = r.
Proof.
  unfold zstdfile_seek. intros r Hle H Hr.
  destruct (seek_target c offset whence) as [t|]; [|exact H].
  destruct (t <? 0); [exact H|].
  destruct (_ && _); [exact H|].
  destruct (t =? 0); [exact H|].
  destruct (wrap64 t >? logic_offset c); [|exact H].
  destruct (seek_skip n c _ t) as [a|w|] eqn:Hs; [| |congruence].
  - rewrite (seek_skip_fuel_mono n m _ _ _ _ Hle Hs) by discriminate. exact H.
  - rewrite (seek_skip_fuel_mono n m _ _ _ _ Hle Hs) by discriminate. exact H.
Qed.

(** ** Reads and seeks from a drained state

    [ret] is a local of [zstdfile_read] set to 1 at every call: a frame end
    seen by the call that delivered the last bytes is not remembered, and
    the next call takes the end of the source for a truncation. *)

Lemma drained_read (c : zstdfile) :
  drained c ->
  exists c',
    (forall (fuel : nat) (n : Z) (p : proc),
        0 < n <= SSIZE_MAX ->
        zstdfile_read (S (S fuel)) c n p =
        Ret (-1, [], c', set_errno ENOBUFS p)) /\
    eof c' = true /\ truncated c' = true /\
    logic_offset c' = logic_offset c.
Proof.
  intros (He & Ht & Ha & Ho & Hi & Hsz & Herr & Hfault & Hend).
  eexists. split.
  - intros fuel n p [Hpos Hmax]. unfold zstdfile_read.
    destruct (n >? SSIZE_MAX) eqn:Hbig; [apply Z.gtb_lt in Hbig; lia|].
    assert (Hnz : (n =? 0) = false) by (apply Z.eqb_neq; lia).
    rewrite Hnz, He, Ht, Ha, Z.sub_diag.
    change (negb (wrap64 0 =? 0)) with false. cbv iota.
    cbn [read_loop drain].
    assert (Hgt : (obuf_pos c >? outbuf_start c) = false).
    { rewrite Ho. destruct (Z.gtb_spec (outbuf_start c) (outbuf_start c));
        [lia | reflexivity]. }
    rewrite Hgt. cbn [l_size]. rewrite Hnz, Ho, Z.eqb_refl.
    change (negb true) with false. change (1 =? 0) with false. cbv iota.
    unfold refill, fread. rewrite Hi, Z.eqb_refl, Hend.
    assert (Hlt : (zlen (take (inbuf_size c) (@nil byte)) <? inbuf_size c) = true).
    { apply Z.ltb_lt. simpl. exact Hsz. }
    rewrite Hlt, Hfault. cbn [f_error f_eof]. rewrite Herr.
    change (zlen (take (inbuf_size c) (@nil byte)) =? 0) with true.
    cbn [andb]. unfold read_out. cbn [l_total l_buf truncated set_truncated].
    change (0 >? SSIZE_MAX) with false. change (0 >? 0) with false. cbv iota.
    reflexivity.
  - simpl. auto.
Qed.

Lemma drained_seek (c : zstdfile) :
  drained c -> 0 <= logic_offset c ->
  exists c',
    (forall (fuel : nat) (offset whence t : Z) (p : proc),
        seek_target c offset whence = Some t ->
        logic_offset c < t <= SSIZE_MAX ->
        zstdfile_seek (S (S (S fuel))) c offset whence p =
        Ret (-1, offset, c', set_errno ENOBUFS p)) /\
    eof c' = true /\ truncated c' = true /\
    logic_offset c' = logic_offset c.
Proof.
  intros Hd Hlo.
  destruct (drained_read c Hd) as (c' & Hread & Hrest).
  exists c'. split; [|exact Hrest].
  intros fuel offset whence t p Ht [Hlt Hmax].
  unfold zstdfile_seek. rewrite Ht. unfold SSIZE_MAX in Hmax.
  destruct (t <? 0) eqn:Hneg; [apply Z.ltb_lt in Hneg; lia|].
  rewrite sint64_small by lia.
  destruct (t <? logic_offset c) eqn:Hback; [apply Z.ltb_lt in Hback; lia|].
  cbn [andb].
  destruct (t =? 0) eqn:Hz; [apply Z.eqb_eq in Hz; lia|].
  rewrite (wrap64_small t) by lia.
  destruct (t >? logic_offset c) eqn:Hfwd;
    [|destruct (Z.gtb_spec t (logic_offset c)); [discriminate | lia]].
  cbn [seek_skip]. rewrite (wrap64_small t) by lia. rewrite Hfwd.
  rewrite (wrap64_small (t - logic_offset c)) by lia.
  rewrite Hread by (unfold bsz, SSIZE_MAX; lia).
  cbn. destruct p as [e h s]. unfold set_errno, heap_add. simpl.
  f_equal. f_equal. f_equal. lia.
Qed.


(** ** A stream the engine decodes in one call *)

Lemma gtb_false (a b : Z) : a <= b -> (a >? b) = false.
Proof. intros H. rewrite Z.gtb_ltb. apply Z.ltb_ge. exact H. Qed.

Lemma gtb_true (a b : Z) : b < a -> (a >? b) = true.
Proof. intros H. rewrite Z.gtb_ltb. apply Z.ltb_lt. exact H. Qed.

Lemma zlen_nonneg {A : Type} (l : list A) : 0 <= zlen l.
Proof. unfold zlen. lia. Qed.

Lemma drop_0 {A : Type} (l : list A) : drop 0 l = l.
Proof. destruct l; reflexivity. Qed.

Lemma take_all {A : Type} (l : list A) :
  forall n, zlen l <= n -> take n l = l.
Proof.
  induction l as [|x l IH]; intros n Hn; [reflexivity|].
  unfold zlen in Hn. simpl List.length in Hn. simpl.
  destruct (n <=? 0) eqn:Hle; [apply Z.leb_le in Hle; lia|].
  f_equal. apply IH. unfold zlen. lia.
Qed.

Lemma drop_all {A : Type} (l : list A) :
  forall n, zlen l <= n -> drop n l = [].
Proof.
  induction l as [|x l IH]; intros n Hn; [reflexivity|].
  unfold zlen in Hn. simpl List.length in Hn. simpl.
  destruct (n <=? 0) eqn:Hle; [apply Z.leb_le in Hle; lia|].
  apply IH. unfold zlen. lia.
Qed.

Lemma zlen_drop {A : Type} (l : list A) :
  forall n, 0 <= n <= zlen l -> zlen (drop n l) = zlen l - n.
Proof.
  induction l as [|x l IH]; intros n Hn.
  - unfold zlen in *. simpl in *. lia.
  - cbn [drop]. destruct (n <=? 0) eqn:Hle.
    + apply Z.leb_le in Hle. assert (n = 0) by lia. subst.
      rewrite Z.sub_0_r. reflexivity.
    + apply Z.leb_gt in Hle. rewrite IH.
      * unfold zlen. simpl List.length. lia.
      * unfold zlen in *. simpl List.length in Hn. lia.
Qed.

Lemma read_loop_S (fuel : nat) c (p : proc) (ret : Z) (l : locals) :
  read_loop (S fuel) c p ret l =
  match drain fuel c l with
  | None => OutOfFuel
  | Some (c1, l1) =>
      if l_size l1 =? 0 then Ret (c1, p, l1)
      else if negb (obuf_pos c1 =? outbuf_start c1) then
        Abort (AssertFailed "cookie->obuf.pos == cookie->outbuf_start")
      else if ret =? 0 then Ret (set_eof true c1, p, l1)
      else
        match refill c1 p with
        | RefillFatal => Abort (Exit1 "error read core")
        | RefillTruncated c2 p2 => Ret (c2, p2, l1)
        | RefillOk c2 p2 =>
            let c3 := reset_output c2 in
            match decomp c3 with
            | None => Abort NullDeref
            | Some d =>
                let r := ZSTD_decompressStream d (pending_input c3)
                           (obuf_size c3) in
                if ZSTD_isError (es_ret r) then Abort (Exit1 "zstd")
                else
                  let c4 := after_engine r c3 in
                  if negb (f_error (in_ c4)) && (l_size l1 >? 0)
                  then read_loop fuel c4 p2 (es_ret r) l1
                  else Ret (c4, p2, l1)
            end
        end
  end.
Proof. reflexivity. Qed.

Lemma drain_none (fuel : nat) c (l : locals) :
  obuf_pos c <= outbuf_start c -> drain (S fuel) c l = Some (c, l).
Proof. intros H. simpl. rewrite gtb_false by exact H. reflexivity. Qed.

(** The drain loop when the buffer holds at least what is asked for. *)
Lemma drain_exact (fuel : nat) c (l : locals) :
  l_ignorebytes l = 0 ->
  0 < l_size l <= obuf_pos c - outbuf_start c ->
  drain (S fuel) c l =
  Some (deliver_output (l_size l) c,
        mkLocals 0 0 (sint64 (l_total l + l_size l))
          (l_buf l ++ take (l_size l)
                        (drop (outbuf_start c) (buf_bytes (outbuf c))))).
Proof.
  intros Hi [Hpos Hle]. simpl.
  rewrite gtb_true by lia. rewrite Hi.
  rewrite Z.min_l by lia. change (0 >? 0) with false. cbv iota.
  rewrite Z.min_r by lia. rewrite Z.sub_diag. reflexivity.
Qed.

Section OneCall.
Variables (data out : list byte) (d1 : ZSTD_DCtx) (ret : Z).
Hypothesis Hdata : 0 < zlen data < ZSTD_DStreamInSize.
Hypothesis Hstep :
  ZSTD_decompressStream ZSTD_createDCtx data ZSTD_DStreamOutSize =
  mkStep ret d1 (zlen data) out.
Hypothesis Hok : ZSTD_isError ret = false.
Hypothesis Hout : zlen out < 2 ^ 32.

Lemma first_refill (p : proc) :
  refill (fresh_cookie data) p =
  RefillOk (mkCookie (mkFILE data None (zlen data) true false) 0 0 0 0
              (Some ZSTD_createDCtx) (Some data) (Some [])
              ZSTD_DStreamInSize ZSTD_DStreamOutSize 0 (zlen data) 0
              false false) p.
Proof.
  unfold refill, fread, fresh_cookie. simpl.
  rewrite drop_0, take_all by lia.
  destruct Hdata as [H1 H2]. apply Z.ltb_lt in H2. rewrite H2. simpl.
  assert (Hz : (zlen data =? 0) = false) by (apply Z.eqb_neq; lia).
  rewrite Hz. simpl. unfold overwrite, set_errno. simpl.
  rewrite app_nil_r. destruct p. reflexivity.
Qed.

Lemma wrap32_small (x : Z) : 0 <= x < 2 ^ 32 -> wrap32 x = x.
Proof. intros H. unfold wrap32. apply Z.mod_small. exact H. Qed.

Lemma deliver_buffered (k n : Z) :
  0 <= k -> 0 <= n -> k + n < 2 ^ 32 ->
  deliver_output n (buffered data out d1 k) = buffered data out d1 (k + n).
Proof.
  intros Hk Hn Hlt. unfold deliver_output, buffered. simpl.
  rewrite wrap64_small by lia. rewrite wrap32_small by lia. reflexivity.
Qed.

(** The loop from the state the engine call leaves, and from any later
    one: the bytes asked for are in the buffer. *)
Lemma buffered_loop (fuel : nat) (k n : Z) (p : proc) (r : Z) (b : list byte)
    (t : Z) :
  0 <= k -> 0 < n -> k + n <= zlen out ->
  read_loop (S (S fuel)) (buffered data out d1 k) p r (mkLocals n 0 t b) =
  Ret (buffered data out d1 (k + n), p,
       mkLocals 0 0 (sint64 (t + n)) (b ++ take n (drop k out))).
Proof.
  intros Hk Hn Hle. rewrite read_loop_S.
  rewrite drain_exact by (simpl; lia).
  cbn [l_size l_total l_buf]. change (0 =? 0) with true. cbv iota.
  rewrite deliver_buffered by lia. reflexivity.
Qed.

Lemma first_read (fuel : nat) (n : Z) (p : proc) :
  0 < n <= zlen out ->
  zstdfile_read (S (S (S fuel))) (fresh_cookie data) n p =
  Ret (n, take n out, buffered data out d1 n, p).
Proof.
  intros [Hn1 Hn2]. rewrite <- (drop_0 out) at 1. unfold zstdfile_read.
  rewrite gtb_false by (unfold SSIZE_MAX; lia).
  assert (Hnz : (n =? 0) = false) by (apply Z.eqb_neq; lia).
  rewrite Hnz. change (eof (fresh_cookie data)) with false.
  change (truncated (fresh_cookie data)) with false.
  change (wrap64 (logic_offset (fresh_cookie data) - decode_offset (fresh_cookie data))) with 0.
  change (negb (0 =? 0)) with false. cbv iota.
  rewrite read_loop_S, drain_none by (simpl; lia).
  cbn [l_size]. rewrite Hnz.
  change (obuf_pos (fresh_cookie data) =? outbuf_start (fresh_cookie data)) with true.
  change (negb true) with false. change (1 =? 0) with false. cbv iota.
  rewrite first_refill.
  match goal with |- context [reset_output ?c] => set (c1 := c) end.
  cbv beta iota zeta.
  assert (Hpend : pending_input (reset_output c1) = data).
  { unfold pending_input, reset_output, c1. simpl.
    rewrite Z.sub_0_r, drop_0, take_all by lia. reflexivity. }
  change (decomp (reset_output c1)) with (Some ZSTD_createDCtx).
  change (obuf_size (reset_output c1)) with ZSTD_DStreamOutSize.
  cbv beta iota zeta.
  rewrite Hpend, Hstep. cbn [es_ret]. rewrite Hok.
  assert (Hafter : after_engine (mkStep ret d1 (zlen data) out)
                     (reset_output c1) = buffered data out d1 0).
  { unfold after_engine, reset_output, buffered, overwrite, c1. simpl.
    rewrite app_nil_r.
    rewrite wrap64_small by (pose proof (zlen_nonneg out); lia).
    reflexivity. }
  rewrite Hafter.
  change (f_error (in_ (buffered data out d1 0))) with false.
  rewrite gtb_true by lia. cbn [negb andb].
  rewrite buffered_loop by lia.
  unfold read_out. cbn [l_total l_buf]. rewrite Z.add_0_l.
  rewrite sint64_small by lia.
  rewrite gtb_false by (unfold SSIZE_MAX; lia). rewrite gtb_true by lia.
  reflexivity.
Qed.

Lemma next_read (fuel : nat) (k n : Z) (p : proc) :
  0 <= k -> 0 < n -> k + n <= zlen out ->
  zstdfile_read (S (S fuel)) (buffered data out d1 k) n p =
  Ret (n, take n (drop k out), buffered data out d1 (k + n), p).
Proof.
  intros Hk Hn Hle. unfold zstdfile_read.
  rewrite gtb_false by (unfold SSIZE_MAX; lia).
  assert (Hnz : (n =? 0) = false) by (apply Z.eqb_neq; lia).
  rewrite Hnz. cbn [eof truncated buffered logic_offset decode_offset].
  rewrite Z.sub_diag. change (negb (wrap64 0 =? 0)) with false. cbv iota.
  change (wrap64 0) with 0.
  fold (buffered data out d1 k).
  rewrite buffered_loop by lia.
  unfold read_out. cbn [l_total l_buf]. rewrite Z.add_0_l.
  rewrite sint64_small by lia.
  rewrite gtb_false by (unfold SSIZE_MAX; lia). rewrite gtb_true by lia.
  reflexivity.
Qed.

Lemma buffered_all_drained : drained (buffered data out d1 (zlen out)).
Proof.
  unfold drained, buffered. simpl.
  repeat split; try reflexivity; try lia.
  apply drop_all. lia.
Qed.

(** For every engine: when the first engine call decodes the whole source
    to [out], reading [out] in two calls of [n1] and [n2] bytes leaves
    [eof] clear, and the call after them returns -1 with ENOBUFS. *)
Theorem one_call_stream_then_error (n1 n2 : Z) :
  0 < n1 -> 0 < n2 -> n1 + n2 = zlen out ->
  exists c3,
    (forall (fuel : nat) (p : proc),
        zstdfile_read (S (S (S fuel))) (fresh_cookie data) n1 p =
        Ret (n1, take n1 out, buffered data out d1 n1, p)) /\
    (forall (fuel : nat) (p : proc),
        zstdfile_read (S (S fuel)) (buffered data out d1 n1) n2 p =
        Ret (n2, drop n1 out, buffered data out d1 (zlen out), p)) /\
    logic_offset (buffered data out d1 (zlen out)) = zlen out /\
    eof (buffered data out d1 (zlen out)) = false /\
    (forall (fuel : nat) (n : Z) (p : proc),
        0 < n <= SSIZE_MAX ->
        zstdfile_read (S (S fuel)) (buffered data out d1 (zlen out)) n p =
        Ret (-1, [], c3, set_errno ENOBUFS p)) /\
    eof c3 = true /\ truncated c3 = true /\ logic_offset c3 = zlen out.
Proof.
  intros H1 H2 Hsum.
  destruct (drained_read _ buffered_all_drained) as (c3 & Hread & He & Ht & Ho).
  exists c3. split; [|split; [|split; [|split; [|split]]]].
  - intros fuel p. apply first_read. lia.
  - intros fuel p. rewrite next_read by lia.
    rewrite Hsum. rewrite (take_all (drop n1 out)); [reflexivity|].
    rewrite zlen_drop by lia. lia.
  - reflexivity.
  - reflexivity.
  - exact Hread.
  - auto.
Qed.

End OneCall.

End Properties.


(** * Further properties of the adapter *)

Section Coverage.
Context {ZSTD_DCtx : Type} {E : ZstdEngine ZSTD_DCtx}.
Local Abbreviation zstdfile := (@zstdfile ZSTD_DCtx).
Implicit Types c cm : zstdfile.

(** ** Lists and machine integers *)

Lemma zlen_app {A : Type} (l m : list A) : zlen (l ++ m) = zlen l + zlen m.
Proof. unfold zlen. rewrite length_app. lia. Qed.

Lemma zlen_cons {A : Type} (x : A) (l : list A) : zlen (x :: l) = 1 + zlen l.
Proof. unfold zlen. simpl List.length. lia. Qed.

Lemma zlen_take_le {A : Type} (l : list A) :
  forall n, 0 <= n -> zlen (take n l) <= n.
Proof.
  induction l as [|x l IH]; intros n Hn; [exact Hn|].
  cbn [take]. destruct (n <=? 0) eqn:Hle; [exact Hn|].
  apply Z.leb_gt in Hle. rewrite zlen_cons.
  specialize (IH (n - 1)). lia.
Qed.

Lemma zlen_take {A : Type} (l : list A) :
  forall n, 0 <= n <= zlen l -> zlen (take n l) = n.
Proof.
  induction l as [|x l IH]; intros n Hn.
  - change (zlen (@nil A)) with 0 in Hn. simpl. change (zlen (@nil A)) with 0. lia.
  - cbn [take]. destruct (n <=? 0) eqn:Hle.
    + apply Z.leb_le in Hle. change (zlen (@nil A)) with 0. lia.
    + apply Z.leb_gt in Hle. rewrite zlen_cons in *.
      rewrite IH; lia.
Qed.

Lemma zlen_overwrite (src old : list byte) :
  zlen src <= zlen (overwrite src old) /\ zlen old <= zlen (overwrite src old).
Proof.
  unfold overwrite. rewrite zlen_app.
  pose proof (zlen_nonneg (drop (zlen src) old)) as H0.
  split; [lia|].
  destruct (Z_le_gt_dec (zlen old) (zlen src)) as [Hle|Hgt]; [lia|].
  rewrite zlen_drop by (pose proof (zlen_nonneg src); lia). lia.
Qed.

Lemma wrap64_idem (x y : Z) : wrap64 (wrap64 x + y) = wrap64 (x + y).
Proof. unfold wrap64. apply Zplus_mod_idemp_l. Qed.

Lemma sint64_range (x : Z) : - 2 ^ 63 <= sint64 x < 2 ^ 63.
Proof.
  unfold sint64. pose proof (wrap64_range x) as Hr.
  destruct (wrap64 x <? 2 ^ 63) eqn:Hlt.
  - apply Z.ltb_lt in Hlt. lia.
  - apply Z.ltb_ge in Hlt. lia.
Qed.

Lemma take_take_drop {A : Type} (l : list A) :
  forall n m, 0 <= n -> 0 <= m ->
    take n l ++ take m (drop n l) = take (n + m) l.
Proof.
  induction l as [|x l IH]; intros n m Hn Hm; [reflexivity|].
  cbn [take drop]. destruct (n <=? 0) eqn:Hle.
  - apply Z.leb_le in Hle. assert (n = 0) by lia. subst n.
    rewrite Z.add_0_l. reflexivity.
  - apply Z.leb_gt in Hle.
    destruct (n + m <=? 0) eqn:Hle2; [apply Z.leb_le in Hle2; lia|].
    cbn [app]. f_equal.
    replace (n + m - 1) with (n - 1 + m) by lia.
    apply IH; lia.
Qed.

Lemma drop_drop {A : Type} (l : list A) :
  forall n m, 0 <= n -> 0 <= m -> drop m (drop n l) = drop (n + m) l.
Proof.
  induction l as [|x l IH]; intros n m Hn Hm; [reflexivity|].
  cbn [drop]. destruct (n <=? 0) eqn:Hle.
  - apply Z.leb_le in Hle. assert (n = 0) by lia. subst n.
    rewrite Z.add_0_l. reflexivity.
  - apply Z.leb_gt in Hle.
    destruct (n + m <=? 0) eqn:Hle2; [apply Z.leb_le in Hle2; lia|].
    replace (n + m - 1) with (n - 1 + m) by lia.
    apply IH; lia.
Qed.

Lemma zsum_nonneg (l : list Z) : Forall (fun n => 0 < n) l -> 0 <= zsum l.
Proof.
  induction 1 as [|n l Hn _ IH]; simpl; [lia|]. unfold zsum in *. simpl. lia.
Qed.

Lemma take_0 {A : Type} (l : list A) : take 0 l = [].
Proof. destruct l; reflexivity. Qed.

Lemma wrap32_idem (x y : Z) : wrap32 (wrap32 x + y) = wrap32 (x + y).
Proof. unfold wrap32. apply Zplus_mod_idemp_l. Qed.

(** ** Heap blocks *)

Lemma heap_add_cancel (p : proc) : heap_add (-1) (heap_add 1 p) = p.
Proof. destruct p as [e h s]. unfold heap_add. simpl. f_equal. lia. Qed.

Lemma refill_heap c (p : proc) :
  match refill c p with
  | RefillOk _ p' | RefillTruncated _ p' => p_heap p' = p_heap p
  | RefillFatal => True
  end.
Proof.
  unfold refill. destruct (ibuf_pos c =? ibuf_size c); [|reflexivity].
  destruct (fread (inbuf_size c) (in_ c) (p_errno p)) as [[got f1] e1].
  destruct (f_error f1).
  - destruct (e1 =? ENOBUFS); [reflexivity | exact I].
  - destruct (_ && _); reflexivity.
Qed.

Lemma read_loop_heap (fuel : nat) :
  forall c p ret l c' p' l',
    read_loop fuel c p ret l = Ret (c', p', l') -> p_heap p' = p_heap p.
Proof.
  induction fuel as [|fuel IH]; intros c p ret l c' p' l' H; [discriminate|].
  rewrite read_loop_S in H.
  destruct (drain fuel c l) as [[c1 l1]|]; [|discriminate].
  destruct (l_size l1 =? 0); [inv H; reflexivity|].
  destruct (negb _); [discriminate|].
  destruct (ret =? 0); [inv H; reflexivity|].
  pose proof (refill_heap c1 p) as Hr.
  destruct (refill c1 p) as [c2 p2|c2 p2|]; [|inv H; exact Hr|discriminate].
  cbv zeta in H.
  destruct (decomp (reset_output c2)); [|discriminate].
  destruct (ZSTD_isError _); [discriminate|].
  destruct (_ && _).
  - apply IH in H. congruence.
  - inv H. exact Hr.
Qed.

Lemma read_heap (fuel : nat) c (size : Z) (p : proc) (r : Z) (b : list byte)
    c' (p' : proc) :
  zstdfile_read fuel c size p = Ret (r, b, c', p') -> p_heap p' = p_heap p.
Proof.
  unfold zstdfile_read, read_out.
  destruct (size >? SSIZE_MAX); [discriminate|].
  destruct (size =? 0); [intros H; inv H; reflexivity|].
  destruct (eof c); [intros H; inv H; reflexivity|].
  destruct (truncated c) eqn:Ht.
  { cbn [l_total l_buf]. change (0 >? SSIZE_MAX) with false.
    change (0 >? 0) with false. cbv iota.
    intros H; inv H. reflexivity. }
  destruct (negb _); [discriminate|].
  destruct (read_loop fuel c p 1 _) as [[[c1 p1] l1]|w|] eqn:Hl;
    [|discriminate|discriminate].
  apply read_loop_heap in Hl.
  destruct (l_total l1 >? SSIZE_MAX); [discriminate|].
  destruct (l_total l1 >? 0); [intros H; inv H; exact Hl|].
  destruct (truncated c1); intros H; inv H; exact Hl.
Qed.

Lemma seek_skip_heap (fuel : nat) :
  forall c p t r c' p',
    seek_skip fuel c p t = Ret (r, c', p') -> p_heap p' = p_heap p.
Proof.
  induction fuel as [|fuel IH]; intros c p t r c' p' H; [discriminate|].
  cbn [seek_skip] in H.
  destruct (wrap64 t >? logic_offset c); [|inv H; reflexivity].
  destruct (zstdfile_read fuel c _ p) as [[[[e b] c1] p1]|w|] eqn:Hr;
    [|discriminate|discriminate].
  apply read_heap in Hr.
  destruct (e <? 0); [inv H; exact Hr|].
  destruct (e =? 0).
  - destruct (eof c1); [inv H; exact Hr | discriminate].
  - apply IH in H. congruence.
Qed.

Lemma seek_heap (fuel : nat) c (offset whence : Z) (p : proc) (r o : Z)
    c' (p' : proc) :
  zstdfile_seek fuel c offset whence p = Ret (r, o, c', p') ->
  p_heap p' = p_heap p.
Proof.
  unfold zstdfile_seek.
  destruct (seek_target c offset whence) as [t|]; [|intros H; inv H; reflexivity].
  destruct (t <? 0); [intros H; inv H; reflexivity|].
  destruct (_ && _); [intros H; inv H; reflexivity|].
  destruct (t =? 0) eqn:Hz.
  { unfold zstdfile_cleanup, zstdfile_init. cbv beta iota zeta.
    cbn [logic_offset]. apply Z.eqb_eq in Hz. subst t.
    change (0 =? wrap64 0) with true. cbv iota.
    intros H; inv H. simpl. lia. }
  destruct (wrap64 t >? logic_offset c).
  - destruct (seek_skip fuel c (heap_add 1 p) t) as [[[[n|] c1] p1]|w|] eqn:Hs;
      try discriminate.
    + apply seek_skip_heap in Hs. simpl in Hs.
      destruct (logic_offset c1 =? wrap64 n); [|discriminate].
      intros H; inv H. simpl. lia.
    + apply seek_skip_heap in Hs. simpl in Hs.
      intros H; inv H. simpl. lia.
  - destruct (logic_offset c =? wrap64 t); [|discriminate].
    intros H; inv H. reflexivity.
Qed.

Lemma run_ops_heap (fuel : nat) (ops : list op) :
  forall c p c' p',
    run_ops fuel c p ops = Ret (c', p') -> p_heap p' = p_heap p.
Proof.
  induction ops as [|[n|o w] ops IH]; intros c p c' p' H; simpl in H.
  - inv H. reflexivity.
  - destruct (zstdfile_read fuel c n p) as [[[[r b] c1] p1]|?|] eqn:Hr;
      try discriminate.
    apply read_heap in Hr. apply IH in H. congruence.
  - destruct (zstdfile_seek fuel c o w p) as [[[[r x] c1] p1]|?|] eqn:Hr;
      try discriminate.
    apply seek_heap in Hr. apply IH in H. congruence.
Qed.

(** ** Open streams *)

Lemma refill_streams c (p : proc) :
  match refill c p with
  | RefillOk _ p' | RefillTruncated _ p' => p_streams p' = p_streams p
  | RefillFatal => True
  end.
Proof.
  unfold refill. destruct (ibuf_pos c =? ibuf_size c); [|reflexivity].
  destruct (fread (inbuf_size c) (in_ c) (p_errno p)) as [[got f1] e1].
  destruct (f_error f1).
  - destruct (e1 =? ENOBUFS); [reflexivity | exact I].
  - destruct (_ && _); reflexivity.
Qed.

Lemma read_loop_streams (fuel : nat) :
  forall c p ret l c' p' l',
    read_loop fuel c p ret l = Ret (c', p', l') -> p_streams p' = p_streams p.
Proof.
  induction fuel as [|fuel IH]; intros c p ret l c' p' l' H; [discriminate|].
  rewrite read_loop_S in H.
  destruct (drain fuel c l) as [[c1 l1]|]; [|discriminate].
  destruct (l_size l1 =? 0); [inv H; reflexivity|].
  destruct (negb _); [discriminate|].
  destruct (ret =? 0); [inv H; reflexivity|].
  pose proof (refill_streams c1 p) as Hr.
  destruct (refill c1 p) as [c2 p2|c2 p2|]; [|inv H; exact Hr|discriminate].
  cbv zeta in H.
  destruct (decomp (reset_output c2)); [|discriminate].
  destruct (ZSTD_isError _); [discriminate|].
  destruct (_ && _).
  - apply IH in H. congruence.
  - inv H. exact Hr.
Qed.

Lemma read_streams (fuel : nat) c (size : Z) (p : proc) (r : Z) (b : list byte)
    c' (p' : proc) :
  zstdfile_read fuel c size p = Ret (r, b, c', p') -> p_streams p' = p_streams p.
Proof.
  unfold zstdfile_read, read_out.
  destruct (size >? SSIZE_MAX); [discriminate|].
  destruct (size =? 0); [intros H; inv H; reflexivity|].
  destruct (eof c); [intros H; inv H; reflexivity|].
  destruct (truncated c) eqn:Ht.
  { cbn [l_total l_buf]. change (0 >? SSIZE_MAX) with false.
    change (0 >? 0) with false. cbv iota.
    intros H; inv H. reflexivity. }
  destruct (negb _); [discriminate|].
  destruct (read_loop fuel c p 1 _) as [[[c1 p1] l1]|w|] eqn:Hl;
    [|discriminate|discriminate].
  apply read_loop_streams in Hl.
  destruct (l_total l1 >? SSIZE_MAX); [discriminate|].
  destruct (l_total l1 >? 0); [intros H; inv H; exact Hl|].
  destruct (truncated c1); intros H; inv H; exact Hl.
Qed.

Lemma seek_skip_streams (fuel : nat) :
  forall c p t r c' p',
    seek_skip fuel c p t = Ret (r, c', p') -> p_streams p' = p_streams p.
Proof.
  induction fuel as [|fuel IH]; intros c p t r c' p' H; [discriminate|].
  cbn [seek_skip] in H.
  destruct (wrap64 t >? logic_offset c); [|inv H; reflexivity].
  destruct (zstdfile_read fuel c _ p) as [[[[e b] c1] p1]|w|] eqn:Hr;
    [|discriminate|discriminate].
  apply read_streams in Hr.
  destruct (e <? 0); [inv H; exact Hr|].
  destruct (e =? 0).
  - destruct (eof c1); [inv H; exact Hr | discriminate].
  - apply IH in H. congruence.
Qed.

Lemma seek_streams (fuel : nat) c (offset whence : Z) (p : proc) (r o : Z)
    c' (p' : proc) :
  zstdfile_seek fuel c offset whence p = Ret (r, o, c', p') ->
  p_streams p' = p_streams p.
Proof.
  unfold zstdfile_seek.
  destruct (seek_target c offset whence) as [t|]; [|intros H; inv H; reflexivity].
  destruct (t <? 0); [intros H; inv H; reflexivity|].
  destruct (_ && _); [intros H; inv H; reflexivity|].
  destruct (t =? 0) eqn:Hz.
  { unfold zstdfile_cleanup, zstdfile_init. cbv beta iota zeta.
    cbn [logic_offset]. apply Z.eqb_eq in Hz. subst t.
    change (0 =? wrap64 0) with true. cbv iota.
    intros H; inv H. simpl. lia. }
  destruct (wrap64 t >? logic_offset c).
  - destruct (seek_skip fuel c (heap_add 1 p) t) as [[[[n|] c1] p1]|w|] eqn:Hs;
      try discriminate.
    + apply seek_skip_streams in Hs. simpl in Hs.
      destruct (logic_offset c1 =? wrap64 n); [|discriminate].
      intros H; inv H. simpl. lia.
    + apply seek_skip_streams in Hs. simpl in Hs.
      intros H; inv H. simpl. lia.
  - destruct (logic_offset c =? wrap64 t); [|discriminate].
    intros H; inv H. reflexivity.
Qed.

Lemma run_ops_streams (fuel : nat) (ops : list op) :
  forall c p c' p',
    run_ops fuel c p ops = Ret (c', p') -> p_streams p' = p_streams p.
Proof.
  induction ops as [|[n|o w] ops IH]; intros c p c' p' H; simpl in H.
  - inv H. reflexivity.
  - destruct (zstdfile_read fuel c n p) as [[[[r b] c1] p1]|?|] eqn:Hr;
      try discriminate.
    apply read_streams in Hr. apply IH in H. congruence.
  - destruct (zstdfile_seek fuel c o w p) as [[[[r x] c1] p1]|?|] eqn:Hr;
      try discriminate.
    apply seek_streams in Hr. apply IH in H. congruence.
Qed.

Lemma fopencookie_counts (mode : string) (p : proc) :
  p_heap (snd (fopencookie mode p)) = p_heap p /\
  p_streams (snd (fopencookie mode p)) =
    (if cookie_mode mode then p_streams p + 1 else p_streams p) /\
  fst (fopencookie mode p) = cookie_mode mode /\
  (cookie_mode mode = false -> p_errno (snd (fopencookie mode p)) = EINVAL).
Proof.
  unfold fopencookie. destruct (cookie_mode mode); simpl;
    repeat split; try reflexivity; try lia; discriminate.
Qed.

(** A mode [zstdopenfile] lets through holds neither 'w' nor 'a', so
    [fopencookie] accepts it exactly when it starts with 'r'. *)
Lemma cookie_mode_read (mode : string) :
  mode_has "w"%char mode || mode_has "a"%char mode = false ->
  (cookie_mode mode = true <-> exists m, mode = String "r" m).
Proof.
  destruct mode as [|a m]; [intros _; split; [discriminate | intros [? ?]; discriminate]|].
  destruct a as [[] [] [] [] [] [] [] []]; cbn [mode_has cookie_mode];
    try (intros _; split; [discriminate | intros [? H]; discriminate H]).
  - intros H. cbn in H. discriminate.
  - intros H. cbn in H. rewrite orb_true_r in H. discriminate.
  - intros _. split; [intros _; eexists; reflexivity | reflexivity].
Qed.

Lemma open_heap (inp : FILE) (mode : string) (p : proc) :
  p_heap (snd (zstdopenfile inp mode p)) =
  match fst (fst (zstdopenfile inp mode p)) with
  | OpenCookie _ => p_heap p + 4
  | _ => p_heap p
  end.
Proof.
  unfold zstdopenfile.
  destruct (_ || _); [reflexivity|].
  destruct (fread 4 inp (p_errno p)) as [[hdr f1] e1].
  destruct (f_error f1); [reflexivity|].
  destruct (zlen hdr <? 4); [reflexivity|].
  destruct (negb _); [reflexivity|].
  unfold zstdfile_init, zstdfile_cleanup, fopencookie.
  destruct (cookie_mode mode); simpl; lia.
Qed.

Lemma open_streams (inp : FILE) (mode : string) (p : proc) :
  p_streams (snd (zstdopenfile inp mode p)) =
  match fst (fst (zstdopenfile inp mode p)) with
  | OpenCookie _ => p_streams p + 1
  | _ => p_streams p
  end.
Proof.
  unfold zstdopenfile.
  destruct (_ || _); [reflexivity|].
  destruct (fread 4 inp (p_errno p)) as [[hdr f1] e1].
  destruct (f_error f1); [reflexivity|].
  destruct (zlen hdr <? 4); [reflexivity|].
  destruct (negb _); [reflexivity|].
  unfold zstdfile_init, zstdfile_cleanup, fopencookie.
  destruct (cookie_mode mode); simpl; lia.
Qed.

(** X1.  No heap block is leaked and no stream is lost.  A stream opened
    by [zstdopenfile] holds four blocks (cookie, session, two buffers) and
    is one more open stream for as long as it is open, whatever read and
    seek calls are made on it and whatever they return, the 32 KiB skip
    buffer of a forward seek being freed on every return path;
    [zstdfile_close] returns 0, frees the four and closes the source.  An
    open that does not return a cookie stream leaves nothing allocated and
    no stream more, also when [fopencookie] refuses the mode after the
    cookie was built. *)
Theorem session_frees_all (inp : FILE) (mode : string) (p : proc) :
  match zstdopenfile inp mode p with
  | (OpenCookie c0, _, p1) =>
      p_heap p1 = p_heap p + 4 /\ p_streams p1 = p_streams p + 1 /\
      forall (fuel : nat) (ops : list op) c (p2 : proc),
        run_ops fuel c0 p1 ops = Ret (c, p2) ->
        p_heap p2 = p_heap p + 4 /\ p_streams p2 = p_streams p + 1 /\
        fst (zstdfile_close c p2) = 0 /\
        p_heap (snd (zstdfile_close c p2)) = p_heap p /\
        p_streams (snd (zstdfile_close c p2)) = p_streams p
  | (_, _, p1) => p_heap p1 = p_heap p /\ p_streams p1 = p_streams p
  end.
Proof.
  pose proof (open_heap inp mode p) as Ho.
  pose proof (open_streams inp mode p) as Hs.
  destruct (zstdopenfile inp mode p) as [[[f|f|c0] w] p1]; simpl in Ho, Hs;
    try (split; assumption).
  split; [exact Ho|]. split; [exact Hs|]. intros fuel ops c p2 Hrun.
  pose proof (run_ops_heap _ _ _ _ _ _ Hrun) as Hh.
  pose proof (run_ops_streams _ _ _ _ _ _ Hrun) as Hst.
  unfold zstdfile_close, zstdfile_cleanup, fclose. simpl.
  repeat split; lia.
Qed.

(** ** Opening *)

Lemma zlen_take_min {A : Type} (l : list A) (n : Z) :
  0 <= n -> zlen (take n l) = Z.min n (zlen l).
Proof.
  intros Hn. destruct (Z_le_gt_dec n (zlen l)) as [Hle|Hgt].
  - rewrite zlen_take by lia. lia.
  - rewrite take_all by lia. lia.
Qed.

Lemma le32dec_take (l : list byte) : le32dec (take 4 l) = le32dec l.
Proof.
  destruct l as [|b0 [|b1 [|b2 [|b3 l]]]]; reflexivity.
Qed.

(** What the [fread] of the four header bytes leaves. *)
Lemma fread_header (inp : FILE) (e : Z) :
  let rest := drop (f_pos inp) (f_data inp) in
  let '(hdr, f1, e1) := fread 4 inp e in
  hdr = take 4 rest /\
  f_pos f1 = f_pos inp + Z.min 4 (zlen rest) /\
  same_source inp f1 /\
  (4 <= zlen rest -> f_error f1 = f_error inp /\ e1 = e) /\
  (f_error inp = true -> f_error f1 = true).
Proof.
  cbv zeta. unfold fread.
  rewrite zlen_take_min by lia.
  destruct (Z.min 4 _ <? 4) eqn:Hs.
  - apply Z.ltb_lt in Hs. destruct (f_fault inp) eqn:Hf; simpl;
      (split; [reflexivity|]); (split; [reflexivity|]);
      (split; [split; [reflexivity | simpl; congruence]|]);
      (split; [lia|]); auto.
  - simpl. split; [reflexivity|]. split; [reflexivity|].
    split; [split; reflexivity|]. split; auto.
Qed.

(** X2.  [zstdopenfile] returns NULL in exactly four cases: the mode holds
    a 'w' or an 'a'; the source already has its error flag set; fewer than
    four bytes are left at its current position; or the four bytes are the
    zstd magic number and [fopencookie] refuses the mode (one that does
    not start with 'r').  Then [*was_zstd] is not written, nothing stays
    allocated and no stream more is open.  A rejected mode sets errno to
    EINVAL before the source is touched; after a failed header read the
    source is left where the read stopped, not rewound; and when
    [fopencookie] refuses, the cookie that was built is torn down again,
    errno is EINVAL and the source has been rewound. *)
Theorem open_null_iff (inp : FILE) (mode : string) (p : proc) :
  let rest := drop (f_pos inp) (f_data inp) in
  let bad_mode := mode_has "w"%char mode || mode_has "a"%char mode in
  let unread := orb (f_error inp) (zlen rest <? 4) in
  ((exists f, fst (fst (zstdopenfile inp mode p)) = OpenNull f) <->
   (bad_mode = true \/ unread = true \/
    (le32dec rest = ZSTD_MAGICNUMBER /\ cookie_mode mode = false))) /\
  (forall f,
      fst (fst (zstdopenfile inp mode p)) = OpenNull f ->
      snd (fst (zstdopenfile inp mode p)) = None /\
      p_heap (snd (zstdopenfile inp mode p)) = p_heap p /\
      p_streams (snd (zstdopenfile inp mode p)) = p_streams p /\
      (bad_mode = true ->
       f = inp /\ p_errno (snd (zstdopenfile inp mode p)) = EINVAL) /\
      (bad_mode = false -> unread = true ->
       f_pos f = f_pos inp + Z.min 4 (zlen rest)) /\
      (bad_mode = false -> unread = false ->
       f = rewind inp /\ p_errno (snd (zstdopenfile inp mode p)) = EINVAL)).
Proof.
  cbv zeta.
  pose proof (open_heap inp mode p) as Hheap.
  pose proof (open_streams inp mode p) as Hstr.
  revert Hheap Hstr. unfold zstdopenfile.
  destruct (mode_has "w"%char mode || mode_has "a"%char mode) eqn:Hm.
  { intros _ _. split.
    - split; [auto | intros _; eexists; reflexivity].
    - intros f H. simpl in H. inv H. simpl.
      repeat split; auto; discriminate. }
  pose proof (fread_header inp (p_errno p)) as Hh. cbv zeta in Hh.
  destruct (fread 4 inp (p_errno p)) as [[hdr f1] e1].
  destruct Hh as (Hhdr & Hpos & Hsame & Hfull & Hsticky).
  assert (Hlen : zlen hdr = Z.min 4 (zlen (drop (f_pos inp) (f_data inp))))
    by (rewrite Hhdr; apply zlen_take_min; lia).
  destruct (f_error f1) eqn:He1.
  { intros _ _.
    assert (Hun : f_error inp
                  || (zlen (drop (f_pos inp) (f_data inp)) <? 4) = true).
    { destruct (zlen (drop (f_pos inp) (f_data inp)) <? 4) eqn:Hlt;
        [apply orb_true_r|]. apply Z.ltb_ge in Hlt.
      destruct (Hfull Hlt) as [Hx _]. rewrite <- Hx. reflexivity. }
    split.
    - split; [|intros _; eexists; reflexivity]. intros _. right. left.
      exact Hun.
    - intros f H. simpl in H. inv H. simpl.
      repeat split; auto; try discriminate; intros; congruence. }
  destruct (zlen hdr <? 4) eqn:Hshort.
  { intros _ _. apply Z.ltb_lt in Hshort.
    assert (Hun : f_error inp
                  || (zlen (drop (f_pos inp) (f_data inp)) <? 4) = true).
    { apply orb_true_iff. right. apply Z.ltb_lt. lia. }
    split.
    - split; [|intros _; eexists; reflexivity]. intros _. right. left.
      exact Hun.
    - intros f H. simpl in H. inv H. simpl.
      repeat split; auto; try discriminate; intros; congruence. }
  apply Z.ltb_ge in Hshort.
  assert (Hno : f_error inp = false).
  { destruct (f_error inp) eqn:Hx; [|reflexivity].
    specialize (Hsticky eq_refl). congruence. }
  assert (Hun : f_error inp
                || (zlen (drop (f_pos inp) (f_data inp)) <? 4) = false).
  { rewrite Hno. apply Z.ltb_ge. lia. }
  rewrite Hun, Hhdr, le32dec_take.
  destruct (le32dec (drop (f_pos inp) (f_data inp)) =? ZSTD_MAGICNUMBER)
    eqn:Hmagic; cbn [negb]; cbv iota.
  2:{ intros _ _. apply Z.eqb_neq in Hmagic. split.
      - split; [intros [f H]; discriminate H|].
        intros [H|[H|[H _]]]; [discriminate | discriminate | contradiction].
      - intros f H. discriminate H. }
  apply Z.eqb_eq in Hmagic.
  unfold zstdfile_init, zstdfile_cleanup, fopencookie.
  destruct (cookie_mode mode) eqn:Hcm; cbv beta iota zeta; cbn [fst snd].
  - intros _ _. split.
    + split; [intros [f H]; discriminate H|].
      intros [H|[H|[_ H]]]; discriminate.
    + intros f H. discriminate H.
  - intros Hheap Hstr. split.
    + split; [intros _; right; right; split; [exact Hmagic | reflexivity]|].
      intros _. eexists. reflexivity.
    + intros f H. inv H.
      split; [reflexivity|]. split; [exact Hheap|]. split; [exact Hstr|].
      split; [discriminate|]. split; [discriminate|].
      intros _ _. split; [symmetry; apply rewind_same_source; exact Hsame | reflexivity].
Qed.

(** X3.  [zstdopenfile] wraps the source in a cookie stream exactly when
    the mode holds neither 'w' nor 'a' and is one [fopencookie] accepts
    (for such a mode: it starts with 'r'), the error flag of the source is
    clear, and the four bytes at the current position of the source are
    the zstd magic number in little-endian order.  The cookie is then the
    one [zstdfile_init] builds over the source rewound to its start
    (wherever the header was read), and [*was_zstd] is set. *)
Theorem open_cookie_iff (inp : FILE) (mode : string) (p : proc) c0 :
  let rest := drop (f_pos inp) (f_data inp) in
  let bad_mode := mode_has "w"%char mode || mode_has "a"%char mode in
  (opens_to inp mode p c0 <->
   (bad_mode = false /\ cookie_mode mode = true /\
    f_error inp = false /\ 4 <= zlen rest /\
    le32dec rest = ZSTD_MAGICNUMBER /\
    c0 = fst (zstdfile_init (cookie_alloc (rewind inp)) p))) /\
  (bad_mode = false ->
   (cookie_mode mode = true <-> exists m, mode = String "r" m)).
Proof.
  cbv zeta. split; [|apply cookie_mode_read]. split.
  - intros Ho. pose proof (fresh_cookie_shape _ _ _ _ Ho p) as Hc0.
    destruct Ho as [p' H]. unfold zstdopenfile in H.
    destruct (_ || _); [discriminate|].
    pose proof (fread_header inp (p_errno p)) as Hh. cbv zeta in Hh.
    destruct (fread 4 inp (p_errno p)) as [[hdr f1] e1].
    destruct Hh as (Hhdr & Hpos & _ & Hfull & Hsticky).
    destruct (f_error f1) eqn:He1; [discriminate|].
    destruct (zlen hdr <? 4) eqn:Hshort; [discriminate|].
    apply Z.ltb_ge in Hshort.
    rewrite Hhdr, zlen_take_min in Hshort by lia.
    destruct (negb _) eqn:Hmagic; [discriminate|].
    apply negb_false_iff, Z.eqb_eq in Hmagic.
    rewrite Hhdr, le32dec_take in Hmagic.
    cbv beta iota zeta in H. unfold zstdfile_init, fopencookie in H.
    destruct (cookie_mode mode) eqn:Hcm; [|discriminate].
    split; [reflexivity|]. split; [reflexivity|].
    split; [destruct (f_error inp); [specialize (Hsticky eq_refl); congruence | reflexivity]|].
    split; [lia|]. split; [exact Hmagic | exact Hc0].
  - intros (Hm & Hcm & He & Hlen & Hmagic & Hc0).
    unfold opens_to, zstdopenfile. rewrite Hm.
    pose proof (fread_header inp (p_errno p)) as Hh. cbv zeta in Hh.
    destruct (fread 4 inp (p_errno p)) as [[hdr f1] e1].
    destruct Hh as (Hhdr & Hpos & Hsame & Hfull & Hsticky).
    destruct (Hfull Hlen) as [Hx Hy]. rewrite Hx, He.
    assert (Hl4 : (zlen hdr <? 4) = false).
    { apply Z.ltb_ge. rewrite Hhdr, zlen_take_min by lia. lia. }
    rewrite Hl4, Hhdr, le32dec_take, Hmagic, Z.eqb_refl.
    cbv beta iota zeta. unfold fopencookie. rewrite Hcm.
    cbn [negb]. cbv beta iota zeta.
    eexists. rewrite Hc0. unfold zstdfile_init. cbn [fst].
    rewrite (rewind_same_source _ _ Hsame). reflexivity.
Qed.

(** ** Opening by path *)

Lemma fopen_counts (path mode : string) (w : world) :
  p_heap (w_proc (snd (fopen path mode w))) = p_heap (w_proc w) /\
  p_streams (w_proc (snd (fopen path mode w))) =
  match fst (fopen path mode w) with
  | Some _ => p_streams (w_proc w) + 1
  | None => p_streams (w_proc w)
  end.
Proof.
  unfold fopen. cbv zeta.
  destruct mode as [|a rest]; [split; reflexivity|].
  destruct a as [[] [] [] [] [] [] [] []]; try (split; reflexivity);
    destruct (w_fs w path); try destruct (mode_excl _);
    try destruct (mode_ccs _); split; reflexivity.
Qed.

Lemma open_flag (inp : FILE) (mode : string) (p : proc) :
  snd (fst (zstdopenfile inp mode p)) =
  match fst (fst (zstdopenfile inp mode p)) with
  | OpenNull _ => None
  | OpenPlain _ => Some false
  | OpenCookie _ => Some true
  end.
Proof.
  unfold zstdopenfile.
  destruct (_ || _); [reflexivity|].
  destruct (fread 4 inp (p_errno p)) as [[hdr f1] e1].
  destruct (f_error f1); [reflexivity|].
  destruct (zlen hdr <? 4); [reflexivity|].
  destruct (negb _); [reflexivity|].
  unfold zstdfile_init, zstdfile_cleanup, fopencookie.
  destruct (cookie_mode mode); reflexivity.
Qed.

(** X4.  [zstdopen] calls [fopen] with the caller's mode before the mode
    is checked.  For every mode that starts with 'w' it returns NULL,
    stores nothing in [*was_zstd] and leaves no stream open and no block
    allocated, and no other file is touched; but unless the mode is an
    exclusive one and the file exists (then errno is EEXIST and the file
    is as it was), the file at [path] has been created or truncated to
    zero length, and errno is EINVAL. *)
Theorem zstdopen_write_mode_truncates (path rest : string) (w : world) :
  let mode := String "w" rest in
  let res := zstdopen path mode w in
  fst (fst res) = None /\
  snd (fst res) = None /\
  p_heap (w_proc (snd res)) = p_heap (w_proc w) /\
  p_streams (w_proc (snd res)) = p_streams (w_proc w) /\
  (forall q, q <> path -> w_fs (snd res) q = w_fs w q) /\
  (if mode_excl mode && file_exists path (w_fs w)
   then p_errno (w_proc (snd res)) = EEXIST /\
        w_fs (snd res) path = w_fs w path
   else p_errno (w_proc (snd res)) = EINVAL /\
        w_fs (snd res) path = Some []).
Proof.
  cbv zeta. unfold zstdopen, fopen, file_exists. cbv zeta.
  assert (Hst : forall q, q <> path ->
                  fs_store path [] (w_fs w) q = w_fs w q).
  { intros q Hq. unfold fs_store. apply String.eqb_neq in Hq.
    rewrite Hq. reflexivity. }
  assert (Hat : fs_store path [] (w_fs w) path = Some []).
  { unfold fs_store. rewrite String.eqb_refl. reflexivity. }
  assert (Hopen : forall f p,
            zstdopenfile f (String "w" rest) p =
            (OpenNull f, None, set_errno EINVAL p)).
  { intros f p. unfold zstdopenfile. cbn [mode_has].
    change (Ascii.eqb "w" "w") with true. reflexivity. }
  destruct (w_fs w path) as [d|] eqn:Hd;
    destruct (mode_excl (String "w" rest)); cbn [andb];
    try destruct (mode_ccs (String "w" rest));
    rewrite ?Hopen; cbn [fst snd w_proc w_fs];
    unfold fclose; simpl;
    repeat split; auto; lia.
Qed.

(** X5.  [zstdopen] keeps no stream behind a NULL: when it returns NULL,
    be it from [fopen] or from [zstdopenfile], [*was_zstd] is not written,
    as many streams are open as before (the source has been closed) and
    nothing stays allocated.  When it returns the plain source, one more
    stream is open; when it returns a cookie stream, two more are (the
    source and the stream [fopencookie] opened over it) and four blocks
    are allocated; [*was_zstd] tells the two apart, and the result is
    never the NULL of [zstdopenfile]. *)
Theorem zstdopen_keeps_no_stream (path mode : string) (w : world) :
  match zstdopen path mode w with
  | (None, wz, w') =>
      wz = None /\ p_streams (w_proc w') = p_streams (w_proc w) /\
      p_heap (w_proc w') = p_heap (w_proc w)
  | (Some (OpenPlain _), wz, w') =>
      wz = Some false /\ p_streams (w_proc w') = p_streams (w_proc w) + 1 /\
      p_heap (w_proc w') = p_heap (w_proc w)
  | (Some (OpenCookie _), wz, w') =>
      wz = Some true /\ p_streams (w_proc w') = p_streams (w_proc w) + 2 /\
      p_heap (w_proc w') = p_heap (w_proc w) + 4
  | (Some (OpenNull _), _, _) => False
  end.
Proof.
  unfold zstdopen. destruct (fopen_counts path mode w) as [Hh Hs].
  destruct (fopen path mode w) as [[inp|] w1]; cbn [fst snd] in Hh, Hs;
    [|repeat split; assumption].
  pose proof (open_heap inp mode (w_proc w1)) as Ho.
  pose proof (open_streams inp mode (w_proc w1)) as Hos.
  pose proof (open_flag inp mode (w_proc w1)) as Hf.
  destruct (zstdopenfile inp mode (w_proc w1)) as [[[f|f|c0] wz] p1];
    cbn [fst snd] in Ho, Hos, Hf; unfold fclose; cbn [w_proc];
    simpl; repeat split; try assumption; lia.
Qed.

(** X6.  "Seek past EOF gets positioned at EOF": on a stream whose [eof]
    flag is set, a seek to a target beyond the current offset returns 0,
    stores the current offset in [*offset_] and changes neither the cookie
    nor errno. *)
Theorem seek_at_eof_clamps (fuel : nat) c (offset whence t : Z) (p : proc) :
  eof c = true -> 0 <= logic_offset c <= SSIZE_MAX ->
  seek_target c offset whence = Some t -> logic_offset c < t < 2 ^ 63 ->
  zstdfile_seek (S (S fuel)) c offset whence p =
  Ret (0, logic_offset c, c, p).
Proof.
  intros He Hlo Htgt Ht. unfold SSIZE_MAX in Hlo.
  unfold zstdfile_seek. rewrite Htgt.
  assert (Hs : sint64 (logic_offset c) = logic_offset c)
    by (apply sint64_small; lia).
  assert (Hw : wrap64 t = t) by (apply wrap64_small; lia).
  assert (H1 : (t <? 0) = false) by (apply Z.ltb_ge; lia).
  assert (H2 : (t <? logic_offset c) = false) by (apply Z.ltb_ge; lia).
  assert (H3 : (t =? 0) = false) by (apply Z.eqb_neq; lia).
  rewrite H1, Hs, H2, H3, Hw. cbn [andb].
  rewrite gtb_true by lia. cbn [seek_skip]. rewrite Hw.
  rewrite gtb_true by lia.
  rewrite (wrap64_small (t - logic_offset c)) by lia.
  unfold zstdfile_read.
  rewrite gtb_false by (unfold bsz, SSIZE_MAX; lia).
  assert (H4 : (Z.min bsz (t - logic_offset c) =? 0) = false)
    by (apply Z.eqb_neq; unfold bsz; lia).
  rewrite H4, He. change (0 <? 0) with false. change (0 =? 0) with true.
  cbv iota. rewrite He, Hs, (wrap64_small (logic_offset c)) by lia.
  rewrite Z.eqb_refl, heap_add_cancel. reflexivity.
Qed.

(** ** A failing source *)


(** ** The buffer invariants are kept *)

Lemma cursors_ok_deliver c (k : Z) :
  cursors_ok c -> 0 <= k <= obuf_pos c - outbuf_start c ->
  cursors_ok (deliver_output k c) /\
  outbuf_start (deliver_output k c) = outbuf_start c + k.
Proof.
  intros (Hs & Hp & Hcap & Hout & Hi & Hin & Hib & Hsz & Hd & Hl) Hk.
  assert (Hw : wrap32 (outbuf_start c + k) = outbuf_start c + k)
    by (apply wrap32_small; lia).
  unfold cursors_ok, deliver_output. simpl. rewrite Hw.
  pose proof (wrap64_range (logic_offset c + k)).
  repeat split; try assumption; lia.
Qed.

(** One pass of the drain loop with nothing to skip. *)
Lemma drain_step (fuel : nat) c (l : locals) :
  l_ignorebytes l = 0 -> outbuf_start c < obuf_pos c ->
  drain (S fuel) c l =
  let toread := Z.min (obuf_pos c - outbuf_start c) (l_size l) in
  let l2 := mkLocals (l_size l - toread) 0 (sint64 (l_total l + toread))
              (l_buf l ++ take toread
                            (drop (outbuf_start c) (buf_bytes (outbuf c)))) in
  if l_size l - toread =? 0 then Some (deliver_output toread c, l2)
  else drain fuel (deliver_output toread c) l2.
Proof.
  intros Hi Hlt. cbn [drain]. rewrite gtb_true by lia. rewrite Hi.
  rewrite Z.min_l by lia. change (0 >? 0) with false. cbv iota zeta.
  reflexivity.
Qed.

Lemma drain_steady (fuel : nat) :
  forall c l c' l',
    drain fuel c l = Some (c', l') ->
    cursors_ok c -> l_ignorebytes l = 0 ->
    0 <= l_size l -> 0 <= l_total l -> l_total l + l_size l <= SSIZE_MAX ->
    cursors_ok c' /\ l_ignorebytes l' = 0 /\ 0 <= l_size l' /\
    l_total l <= l_total l' /\
    l_total l' + l_size l' = l_total l + l_size l /\
    zlen (l_buf l') = zlen (l_buf l) + (l_total l' - l_total l) /\
    logic_offset c' = wrap64 (logic_offset c + (l_total l' - l_total l)) /\
    (l_size l' = 0 \/ obuf_pos c' = outbuf_start c') /\
    in_ c' = in_ c /\ eof c' = eof c /\ truncated c' = truncated c /\
    decomp c' = decomp c.
Proof.
  induction fuel as [|fuel IH]; intros c l c' l' H Hc Hi Hs Ht Hmax;
    [discriminate|].
  destruct (Z_lt_ge_dec (outbuf_start c) (obuf_pos c)) as [Hlt|Hge].
  - rewrite drain_step in H by assumption. cbv zeta in H.
    set (toread := Z.min (obuf_pos c - outbuf_start c) (l_size l)) in *.
    assert (Hto : 0 <= toread <= obuf_pos c - outbuf_start c /\
                  toread <= l_size l) by (subst toread; lia).
    destruct (cursors_ok_deliver c toread Hc) as [Hc2 Hst2]; [lia|].
    assert (Hchunk : zlen (take toread
                        (drop (outbuf_start c) (buf_bytes (outbuf c)))) = toread).
    { destruct Hc as (Hs0 & Hp & Hcap & Hout & _).
      apply zlen_take. rewrite zlen_drop by lia. lia. }
    assert (Hsint : sint64 (l_total l + toread) = l_total l + toread)
      by (apply sint64_small; unfold SSIZE_MAX in Hmax; lia).
    assert (Hlog : logic_offset (deliver_output toread c) =
                   wrap64 (logic_offset c + toread)) by reflexivity.
    destruct (l_size l - toread =? 0) eqn:Hz.
    + apply Z.eqb_eq in Hz. inv H. cbn [l_size l_total l_buf l_ignorebytes].
      rewrite Hsint, zlen_app, Hchunk, Hlog.
      replace (l_total l + toread - l_total l) with toread by lia.
      split; [exact Hc2|].
      repeat split; try reflexivity; try lia.
    + apply Z.eqb_neq in Hz.
      apply IH in H; cbn [l_size l_total l_buf l_ignorebytes] in *;
        try assumption; try reflexivity; try lia.
      destruct H as (H1 & H2 & H3 & H4 & H5 & H6 & H7 & H8 & H9 & H10 & H11 & H12).
      rewrite Hsint in *. rewrite zlen_app, Hchunk in H6.
      rewrite Hlog, wrap64_idem in H7.
      split; [exact H1|].
      repeat split; try assumption; try lia.
      rewrite H7. f_equal. lia.
  - destruct Hc as (Hs0 & Hrest). cbn [drain] in H.
    rewrite gtb_false in H by lia. inv H.
    assert (Hlr : 0 <= logic_offset c' < 2 ^ 64) by tauto.
    split; [split; [exact Hs0 | exact Hrest]|].
    repeat split; try tauto; try lia.
    rewrite Z.sub_diag, Z.add_0_r. symmetry. apply wrap64_small. exact Hlr.
Qed.

Lemma refill_steady c (p : proc) :
  cursors_ok c -> f_error (in_ c) = false ->
  match refill c p with
  | RefillOk c' p' =>
      cursors_ok c' /\ f_error (in_ c') = false /\
      truncated c' = truncated c /\ eof c' = eof c /\
      logic_offset c' = logic_offset c /\ p_heap p' = p_heap p
  | RefillTruncated c' p' =>
      cursors_ok c' /\ truncated c' = true /\ eof c' = eof c /\
      logic_offset c' = logic_offset c /\ p_heap p' = p_heap p
  | RefillFatal => True
  end.
Proof.
  intros Hc Herr. unfold refill.
  destruct (ibuf_pos c =? ibuf_size c) eqn:Hempty;
    [|split; [exact Hc | repeat split; auto]].
  apply Z.eqb_eq in Hempty.
  destruct Hc as (Hs & Hp & Hcap & Hout & Hi & Hin & Hib & Hsz & Hd & Hl).
  unfold fread.
  set (got := take (inbuf_size c) (drop (f_pos (in_ c)) (f_data (in_ c)))).
  assert (Hgot : 0 <= zlen got <= inbuf_size c).
  { split; [apply zlen_nonneg | apply zlen_take_le; lia]. }
  destruct (zlen_overwrite got (buf_bytes (inbuf c))) as [Ho1 Ho2].
  assert (Hkeep : cursors_ok
            (set_truncated true
               (set_in (mkFILE (f_data (in_ c)) (f_fault (in_ c))
                          (f_pos (in_ c) + zlen got) true (f_error (in_ c)))
                  (set_inbuf (Some (overwrite got (buf_bytes (inbuf c)))) c)))).
  { unfold cursors_ok. simpl. repeat split; try assumption; lia. }
  destruct (zlen got <? inbuf_size c).
  - destruct (f_fault (in_ c)) as [e|]; cbn [f_error f_eof].
    + destruct (e =? ENOBUFS); [|exact I].
      unfold cursors_ok. simpl. repeat split; try assumption; lia.
    + rewrite Herr. destruct (zlen got =? 0) eqn:Hz; cbn [andb].
      * split; [exact Hkeep|]. simpl. auto.
      * unfold cursors_ok. simpl. repeat split; try assumption; lia.
  - cbn [f_error f_eof]. rewrite Herr.
    destruct ((zlen got =? 0) && f_eof (in_ c)).
    + unfold cursors_ok. simpl. repeat split; try assumption; lia.
    + unfold cursors_ok. simpl. repeat split; try assumption; lia.
Qed.

Section WithEngine.
Hypothesis Hfit : engine_fits.

Lemma engine_steady c (d : ZSTD_DCtx) :
  cursors_ok c ->
  let c3 := reset_output c in
  let r := ZSTD_decompressStream d (pending_input c3) (obuf_size c3) in
  cursors_ok (after_engine r c3).
Proof.
  intros (Hs & Hp & Hcap & Hout & Hi & Hin & Hib & Hsz & Hd & Hl). cbv zeta.
  destruct Hfit as (_ & _ & Hstep).
  assert (Hcap0 : 0 <= obuf_size (reset_output c)) by (simpl; lia).
  destruct (Hstep d (pending_input (reset_output c)) (obuf_size (reset_output c)) Hcap0)
    as [Hcons Hlen].
  set (r := ZSTD_decompressStream d (pending_input (reset_output c))
              (obuf_size (reset_output c))) in *.
  assert (Hpend : zlen (pending_input (reset_output c)) <= ibuf_size c - ibuf_pos c).
  { unfold pending_input. simpl. apply zlen_take_le. lia. }
  destruct (zlen_overwrite (es_output r) (buf_bytes (outbuf (reset_output c))))
    as [Ho1 _].
  pose proof (zlen_nonneg (es_output r)).
  pose proof (wrap64_range (actual_len (reset_output c) + zlen (es_output r))).
  unfold cursors_ok, after_engine. simpl in *.
  repeat split; try assumption; try lia. discriminate.
Qed.

Lemma read_loop_steady (fuel : nat) :
  forall c p ret l,
    cursors_ok c -> f_error (in_ c) = false -> l_ignorebytes l = 0 ->
    0 <= l_size l -> 0 <= l_total l -> l_total l + l_size l <= SSIZE_MAX ->
    match read_loop fuel c p ret l with
    | Ret (c', p', l') =>
        cursors_ok c' /\ error_noted c' /\ 0 <= l_size l' /\
        l_total l <= l_total l' /\
        l_total l' + l_size l' = l_total l + l_size l /\
        zlen (l_buf l') = zlen (l_buf l) + (l_total l' - l_total l) /\
        logic_offset c' = wrap64 (logic_offset c + (l_total l' - l_total l)) /\
        (l_size l' = 0 \/ eof c' = true \/ truncated c' = true) /\
        p_heap p' = p_heap p /\
        (eof c = true -> eof c' = true) /\
        (truncated c = true -> truncated c' = true)
    | Abort w => exists s, w = Exit1 s
    | OutOfFuel => True
    end.
Proof.
  induction fuel as [|fuel IH]; intros c p ret l Hc Herr Hi Hs Ht Hmax;
    [exact I|].
  rewrite read_loop_S.
  destruct (drain fuel c l) as [[c1 l1]|] eqn:Hd; [|exact I].
  destruct (drain_steady _ _ _ _ _ Hd Hc Hi Hs Ht Hmax)
    as (Hc1 & Hi1 & Hs1 & Ht1 & Hsum1 & Hbuf1 & Hlog1 & Hexit1 & Hin1 & He1 & Htr1 & Hd1).
  assert (Herr1 : f_error (in_ c1) = false) by (rewrite Hin1; exact Herr).
  assert (Hn1 : error_noted c1) by (intros Hx; congruence).
  destruct (l_size l1 =? 0) eqn:Hz.
  { apply Z.eqb_eq in Hz. split; [exact Hc1|].
    repeat split; try assumption; try lia; try congruence. }
  apply Z.eqb_neq in Hz.
  destruct Hexit1 as [Hx|Hempty]; [contradiction|].
  rewrite Hempty, Z.eqb_refl. change (negb true) with false. cbv iota.
  destruct (ret =? 0).
  { split; [exact Hc1|]. simpl.
    repeat split; try assumption; try lia; try congruence;
      try (right; left; reflexivity). }
  pose proof (refill_steady c1 p Hc1 Herr1) as Hr.
  destruct (refill c1 p) as [c2 p2|c2 p2|].
  - destruct Hr as (Hc2 & Herr2 & Htr2 & He2 & Hlog2 & Hh2). cbv zeta.
    assert (Hdec : decomp (reset_output c2) = decomp c2) by reflexivity.
    rewrite Hdec.
    destruct (decomp c2) as [d|] eqn:Hd2;
      [|destruct Hc2 as (_ & _ & _ & _ & _ & _ & _ & _ & Hnn & _); congruence].
    destruct (ZSTD_isError _); [eexists; reflexivity|].
    pose proof (engine_steady c2 d Hc2) as Hc4. cbv zeta in Hc4.
    set (c4 := after_engine _ (reset_output c2)) in *.
    change (f_error (in_ c4)) with (f_error (in_ c2)). rewrite Herr2.
    rewrite gtb_true by lia. cbn [negb andb].
    specialize (IH c4 p2 (es_ret (ZSTD_decompressStream d
                   (pending_input (reset_output c2)) (obuf_size (reset_output c2)))) l1
                  Hc4 Herr2 Hi1 Hs1 ltac:(lia) ltac:(lia)).
    destruct (read_loop fuel c4 p2 _ l1) as [[[c' p'] l']|w|]; [|exact IH|exact I].
    destruct IH as (K1 & K2 & K3 & K4 & K5 & K6 & K7 & K8 & K9 & K10 & K11).
    change (logic_offset c4) with (logic_offset c2) in K7.
    change (eof c4) with (eof c2) in K10.
    change (truncated c4) with (truncated c2) in K11.
    rewrite Hlog2, Hlog1, wrap64_idem in K7.
    split; [exact K1|]. split; [exact K2|].
    repeat split; try lia; try assumption.
    + rewrite K7. f_equal. lia.
    + intros Hx. apply K10. congruence.
    + intros Hx. apply K11. congruence.
  - destruct Hr as (Hc2 & Htr2 & He2 & Hlog2 & Hh2).
    split; [exact Hc2|]. split; [intros _; exact Htr2|].
    repeat split; try lia; try assumption; try congruence;
      try (right; right; exact Htr2).
  - eexists. reflexivity.
Qed.

Lemma steady_set_eof c :
  steady c -> truncated c = true -> steady (set_eof true c).
Proof.
  intros (Hc & Ha & Hn) Ht. split; [exact Hc|]. split; [exact Ha|].
  intros _. exact Ht.
Qed.

(** What one read call does to a steady cookie. *)
Lemma read_steady (fuel : nat) c (size : Z) (p : proc) :
  steady c -> 0 <= size <= SSIZE_MAX ->
  match zstdfile_read fuel c size p with
  | Ret (r, b, c', p') =>
      steady c' /\ -1 <= r <= size /\ zlen b = Z.max r 0 /\
      logic_offset c' = wrap64 (logic_offset c + Z.max r 0) /\
      (r = -1 -> truncated c' = true /\ eof c' = true /\ p_errno p' = ENOBUFS) /\
      (r = 0 -> size = 0 \/ eof c' = true) /\
      p_heap p' = p_heap p /\
      (eof c = true -> eof c' = true) /\
      (truncated c = true -> truncated c' = true)
  | Abort w => exists s, w = Exit1 s
  | OutOfFuel => True
  end.
Proof.
  intros Hst [Hs0 Hmax]. pose proof Hst as (Hc & Ha & Hn).
  assert (Hlog : 0 <= logic_offset c < 2 ^ 64) by (unfold cursors_ok in Hc; tauto).
  assert (Hsame : logic_offset c = wrap64 (logic_offset c + 0))
    by (rewrite Z.add_0_r; symmetry; apply wrap64_small; exact Hlog).
  unfold zstdfile_read. rewrite gtb_false by exact Hmax.
  destruct (size =? 0) eqn:Hz.
  { apply Z.eqb_eq in Hz. subst size. split; [exact Hst|].
    repeat split; auto; try lia. }
  apply Z.eqb_neq in Hz.
  destruct (eof c) eqn:He.
  { split; [exact Hst|]. repeat split; auto; try lia. }
  destruct (truncated c) eqn:Htr.
  { unfold read_out. cbn [l_total l_buf].
    change (0 >? SSIZE_MAX) with false. change (0 >? 0) with false.
    cbv iota. rewrite Htr.
    split; [apply steady_set_eof; assumption|].
    repeat split; auto; try lia. }
  unfold offsets_agree in Ha. rewrite Ha, Z.sub_diag.
  change (negb (wrap64 0 =? 0)) with false. cbv iota.
  change (wrap64 0) with 0.
  assert (Herr : f_error (in_ c) = false).
  { destruct (f_error (in_ c)) eqn:Hx; [|reflexivity].
    specialize (Hn Hx). congruence. }
  pose proof (read_loop_steady fuel c p 1 (mkLocals size 0 0 []) Hc Herr
                eq_refl ltac:(simpl; lia) ltac:(simpl; lia) ltac:(simpl; lia)) as Hl.
  destruct (read_loop fuel c p 1 (mkLocals size 0 0 [])) as [[[c1 p1] l1]|w|] eqn:Hloop;
    [|exact Hl|exact I].
  cbn [l_size l_total l_buf] in Hl.
  destruct Hl as (K1 & K2 & K3 & K4 & K5 & K6 & K7 & K8 & K9 & K10 & K11).
  change (zlen (@nil byte)) with 0 in K6.
  assert (Ha1 : offsets_agree c1)
    by (eapply read_loop_offsets_agree; [exact Hloop | reflexivity | exact Ha]).
  unfold read_out. rewrite gtb_false by lia.
  destruct (l_total l1 >? 0) eqn:Hgt.
  - apply Z.gtb_lt in Hgt.
    split; [split; [exact K1 | split; [exact Ha1 | exact K2]]|].
    rewrite Z.max_l by lia.
    repeat split; auto; try lia.
    rewrite K7. f_equal. lia.
  - assert (Hzero : l_total l1 = 0).
    { destruct (Z.gtb_spec (l_total l1) 0); [discriminate | lia]. }
    rewrite Hzero in *.
    destruct (truncated c1) eqn:Htr1.
    + split; [apply steady_set_eof;
              [split; [exact K1 | split; [exact Ha1 | exact K2]] | exact Htr1]|].
      cbn [Z.max]. repeat split; auto; try lia;
        try (cbn [logic_offset set_eof]; rewrite K7; reflexivity).
    + split; [split; [exact K1 | split; [exact Ha1 | exact K2]]|].
      cbn [Z.max]. repeat split; auto; try lia;
        try (rewrite K7; reflexivity);
        try (intros Hx; discriminate).
      all: intros _; right;
        destruct K8 as [Hx|[Hx|Hx]]; [lia | exact Hx | discriminate].
Qed.

Lemma steady_init c (p : proc) :
  f_error (in_ c) = false -> steady (fst (zstdfile_init c p)).
Proof.
  intros Herr. destruct Hfit as (Hin & Hout & _).
  unfold steady, cursors_ok, offsets_agree, error_noted. simpl.
  change (zlen (@nil byte)) with 0.
  repeat split; try lia; try discriminate. congruence.
Qed.

Lemma seek_skip_steady (fuel : nat) :
  forall c p t,
    steady c -> logic_offset c <= wrap64 t ->
    match seek_skip fuel c p t with
    | Ret (Some o, c', p') =>
        steady c' /\
        ((o = t /\ logic_offset c' = wrap64 t) \/
         (o = sint64 (logic_offset c') /\ eof c' = true /\
          logic_offset c' < wrap64 t)) /\
        logic_offset c <= logic_offset c' /\
        (eof c = true -> eof c' = true) /\
        (truncated c = true -> truncated c' = true)
    | Ret (None, c', p') =>
        steady c' /\ truncated c' = true /\ eof c' = true /\
        p_errno p' = ENOBUFS /\
        logic_offset c <= logic_offset c' /\
        (eof c = true -> eof c' = true) /\
        logic_offset c' <= wrap64 t
    | Abort w => exists s, w = Exit1 s
    | OutOfFuel => True
    end.
Proof.
  induction fuel as [|fuel IH]; intros c p t Hst Hle; [exact I|].
  cbn [seek_skip]. pose proof (wrap64_range t) as Ht.
  assert (Hlog : 0 <= logic_offset c < 2 ^ 64)
    by (destruct Hst as (Hc & _); unfold cursors_ok in Hc; tauto).
  destruct (wrap64 t >? logic_offset c) eqn:Hgt.
  - apply Z.gtb_lt in Hgt.
    rewrite (wrap64_small (wrap64 t - logic_offset c)) by lia.
    set (diff := Z.min bsz (wrap64 t - logic_offset c)).
    assert (Hdiff : 0 < diff <= wrap64 t - logic_offset c /\ diff <= SSIZE_MAX)
      by (subst diff; unfold bsz, SSIZE_MAX; lia).
    pose proof (read_steady fuel c diff p Hst ltac:(lia)) as Hr.
    destruct (zstdfile_read fuel c diff p) as [[[[r b] c1] p1]|w|];
      [|exact Hr|exact I].
    destruct Hr as (Hst1 & Hr1 & Hb & Hl1 & Hneg & Hzero & Hh & He & Htr).
    assert (Hl1' : logic_offset c1 = logic_offset c + Z.max r 0)
      by (rewrite Hl1; apply wrap64_small; lia).
    destruct (r <? 0) eqn:Hrn.
    { apply Z.ltb_lt in Hrn. assert (r = -1) by lia.
      destruct (Hneg H) as (K1 & K2 & K3).
      split; [exact Hst1|]. repeat split; try tauto; try lia. }
    apply Z.ltb_ge in Hrn.
    destruct (r =? 0) eqn:Hrz.
    { apply Z.eqb_eq in Hrz. destruct (Hzero Hrz) as [Hx|Hx]; [lia|].
      rewrite Hx. split; [exact Hst1|].
      split; [right; repeat split; auto; lia|].
      repeat split; auto; lia. }
    apply Z.eqb_neq in Hrz.
    specialize (IH c1 p1 t Hst1 ltac:(lia)).
    destruct (seek_skip fuel c1 p1 t) as [[[[o|] c'] p']|w|];
      [| |exact IH|exact I].
    + destruct IH as (K1 & K2 & K3 & K4 & K5).
      split; [exact K1|]. split; [exact K2|].
      repeat split; try tauto; try lia.
    + destruct IH as (K1 & K2 & K3 & K4 & K5 & K6 & K7).
      split; [exact K1|]. repeat split; try tauto; try lia.
  - assert (Heq : logic_offset c = wrap64 t).
    { destruct (Z.gtb_spec (wrap64 t) (logic_offset c)); [discriminate | lia]. }
    split; [exact Hst|]. split; [left; auto|]. repeat split; auto; lia.
Qed.

Lemma seek_target_range c (offset whence t : Z) :
  - 2 ^ 63 <= offset < 2 ^ 63 ->
  seek_target c offset whence = Some t -> - 2 ^ 63 <= t < 2 ^ 63.
Proof.
  intros Ho. unfold seek_target.
  destruct (whence =? SEEK_SET); [intros H; inv H; exact Ho|].
  destruct (whence =? SEEK_CUR); [|discriminate].
  intros H; inv H. apply sint64_range.
Qed.

(** What one seek call does to a steady cookie. *)
Lemma seek_steady (fuel : nat) c (offset whence : Z) (p : proc) :
  steady c -> logic_offset c <= SSIZE_MAX -> - 2 ^ 63 <= offset < 2 ^ 63 ->
  match zstdfile_seek fuel c offset whence p with
  | Ret (r, o, c', p') =>
      steady c' /\
      ((r = 0 /\ o = logic_offset c' /\
        exists t, seek_target c offset whence = Some t /\ 0 <= o <= t /\
                  (o < t -> eof c' = true)) \/
       (r = -1 /\ o = offset /\
        ((c' = c /\ p' = p) \/
         (truncated c' = true /\ eof c' = true /\ p_errno p' = ENOBUFS /\
          logic_offset c <= logic_offset c' /\
          exists t, seek_target c offset whence = Some t /\
                    logic_offset c' <= t))))
  | Abort w => exists s, w = Exit1 s
  | OutOfFuel => True
  end.
Proof.
  intros Hst Hmax Ho. pose proof Hst as (Hc & Ha & Hn).
  assert (Hlog : 0 <= logic_offset c < 2 ^ 64) by (unfold cursors_ok in Hc; tauto).
  assert (Hsl : sint64 (logic_offset c) = logic_offset c)
    by (apply sint64_small; unfold SSIZE_MAX in Hmax; lia).
  unfold zstdfile_seek.
  destruct (seek_target c offset whence) as [t|] eqn:Htgt.
  2:{ split; [exact Hst|]. right. auto. }
  pose proof (seek_target_range _ _ _ _ Ho Htgt) as Ht.
  destruct (t <? 0) eqn:Hneg.
  { split; [exact Hst|]. right. auto. }
  apply Z.ltb_ge in Hneg.
  assert (Hwt : wrap64 t = t) by (apply wrap64_small; lia).
  rewrite Hsl.
  destruct ((t <? logic_offset c) && negb (t =? 0)) eqn:Hback.
  { split; [exact Hst|]. right. auto. }
  destruct (t =? 0) eqn:Hz.
  - apply Z.eqb_eq in Hz. subst t.
    unfold zstdfile_cleanup. cbv iota beta zeta.
    match goal with
    | |- context [zstdfile_init ?x ?y] =>
        pose proof (steady_init x y eq_refl) as Hini;
        destruct (zstdfile_init x y) as [c2 p2] eqn:Hinit
    end.
    assert (Hl2 : logic_offset c2 = 0).
    { unfold zstdfile_init in Hinit. inv Hinit. reflexivity. }
    simpl in Hini. rewrite Hl2. change (wrap64 0) with 0.
    change (0 =? 0) with true. cbv iota.
    split; [exact Hini|]. left. split; [reflexivity|]. split; [auto|].
    exists 0. split; [reflexivity|]. split; [lia|]. lia.
  - apply Z.eqb_neq in Hz. rewrite Hwt.
    assert (Hge : logic_offset c <= t).
    { destruct (Z.ltb_spec t (logic_offset c)); [|lia].
      destruct (Z.eqb_spec t 0); [lia|]. discriminate. }
    destruct (t >? logic_offset c) eqn:Hgt.
    + pose proof (seek_skip_steady fuel c (heap_add 1 p) t Hst ltac:(lia)) as Hs.
      destruct (seek_skip fuel c (heap_add 1 p) t) as [[[[o|] c1] p1]|w|];
        [| |exact Hs|exact I].
      * destruct Hs as (K1 & K2 & K3 & K4 & K5).
        destruct K2 as [[-> Kl]|(-> & Ke & Kl)].
        -- rewrite Kl, Z.eqb_refl. split; [exact K1|]. left.
           split; [reflexivity|]. split; [lia|].
           exists t. split; [reflexivity|]. split; [lia|]. lia.
        -- assert (Hs1 : sint64 (logic_offset c1) = logic_offset c1)
             by (apply sint64_small; lia).
           rewrite Hs1.
           rewrite (wrap64_small (logic_offset c1)) by lia.
           rewrite Z.eqb_refl. split; [exact K1|]. left.
           split; [reflexivity|]. split; [reflexivity|].
           exists t. split; [reflexivity|]. split; [lia|]. intros _. exact Ke.
      * destruct Hs as (K1 & K2 & K3 & K4 & K5 & K6 & K7).
        split; [exact K1|]. right. split; [reflexivity|].
        split; [reflexivity|]. right.
        split; [exact K2|]. split; [exact K3|]. split; [exact K4|].
        split; [exact K5|]. exists t. split; [reflexivity | lia].
    + assert (Heq : logic_offset c = t).
      { destruct (Z.gtb_spec t (logic_offset c)); [discriminate | lia]. }
      cbv beta iota. rewrite Hwt, Heq, Z.eqb_refl. split; [exact Hst|]. left.
      split; [reflexivity|]. split; [auto|].
      exists t. split; [reflexivity|]. split; lia.
Qed.

(** ** Sessions *)

Lemma sint64_id (x : Z) : - 2 ^ 63 <= x < 2 ^ 63 -> sint64 x = x.
Proof.
  intros H. unfold sint64, wrap64. destruct (Z_lt_ge_dec x 0) as [Hn|Hp].
  - assert (Hm : x mod 2 ^ 64 = x + 2 ^ 64).
    { symmetry. apply (Z.mod_unique x (2 ^ 64) (-1)); lia. }
    rewrite Hm. destruct (Z.ltb_spec (x + 2 ^ 64) (2 ^ 63)); lia.
  - rewrite Z.mod_small by lia. destruct (Z.ltb_spec x (2 ^ 63)); lia.
Qed.

Lemma target_bound c (b offset whence t : Z) :
  0 <= logic_offset c <= b -> - 2 ^ 63 <= offset < 2 ^ 63 ->
  bound_after b (OpSeek offset whence) <= SSIZE_MAX ->
  seek_target c offset whence = Some t ->
  t <= bound_after b (OpSeek offset whence).
Proof.
  intros Hl Ho Hb. unfold seek_target, bound_after in *.
  destruct (whence =? SEEK_SET); [intros H; inv H; lia|].
  destruct (whence =? SEEK_CUR); [|discriminate].
  intros H; inv H. unfold SSIZE_MAX in Hb.
  rewrite (sint64_id (logic_offset c)) by lia. rewrite sint64_id by lia. lia.
Qed.

Lemma bound_after_seek_ge (b offset whence : Z) :
  b <= bound_after b (OpSeek offset whence).
Proof.
  unfold bound_after. destruct (whence =? SEEK_SET); [lia|].
  destruct (whence =? SEEK_CUR); lia.
Qed.

Lemma run_ops_steady (fuel : nat) (ops : list op) :
  forall c p b,
    steady c -> logic_offset c <= b -> in_range b ops ->
    match run_ops fuel c p ops with
    | Ret (c', _) => steady c'
    | Abort w => exists s, w = Exit1 s
    | OutOfFuel => True
    end.
Proof.
  induction ops as [|o rest IH]; intros c p b Hst Hb Hr; [exact Hst|].
  pose proof Hst as ((_ & _ & _ & _ & _ & _ & _ & _ & _ & Hlo) & _).
  destruct Hr as (Harg & Hbound & Hrest).
  destruct o as [n|offset whence]; cbn [run_ops].
  - pose proof (read_steady fuel c n p Hst Harg) as H.
    destruct (zstdfile_read fuel c n p) as [[[[r x] c1] p1]|w|];
      [|exact H|exact I].
    destruct H as (Hst1 & Hr1 & _ & Hl1 & _).
    apply (IH c1 p1 (bound_after b (OpRead n))); try assumption.
    cbn [bound_after] in *. unfold SSIZE_MAX in Hbound.
    rewrite Hl1, wrap64_small by lia. lia.
  - pose proof (bound_after_seek_ge b offset whence) as Hge.
    pose proof (seek_steady fuel c offset whence p Hst ltac:(lia) Harg) as H.
    destruct (zstdfile_seek fuel c offset whence p) as [[[[r x] c1] p1]|w|];
      [|exact H|exact I].
    destruct H as (Hst1 & Hcase).
    apply (IH c1 p1 (bound_after b (OpSeek offset whence))); try assumption.
    destruct Hcase as [(_ & Hx & t & Htgt & Ht & _)
                      |(_ & _ & [[-> _]|(_ & _ & _ & _ & t & Htgt & Ht)])].
    + pose proof (target_bound c b offset whence t ltac:(lia) Harg Hbound Htgt).
      lia.
    + lia.
    + pose proof (target_bound c b offset whence t ltac:(lia) Harg Hbound Htgt).
      lia.
Qed.

(** X8.  No assertion of the adapter can fail in a session: after a
    successful [zstdopenfile], whatever sequence of read and seek calls is
    made with sizes up to SSIZE_MAX and offsets that keep the stream
    position within an off64_t, none of the [assert]s of [zstdfile_read]
    and [zstdfile_seek] fails and no NULL session is used; the only way
    a call ends the process is an [exit(1)] after an engine or source
    error.  Between the calls the buffer invariants of [struct zstdfile]
    hold. *)
Theorem session_fails_no_assertion (fuel : nat) (inp : FILE) (mode : string)
    (p q : proc) c0 (ops : list op) :
  opens_to inp mode p c0 -> in_range 0 ops ->
  (forall what, run_ops fuel c0 q ops <> Abort (AssertFailed what)) /\
  run_ops fuel c0 q ops <> Abort NullDeref /\
  (forall c' q', run_ops fuel c0 q ops = Ret (c', q') -> steady c').
Proof.
  intros Ho Hr.
  assert (Hst : steady c0).
  { rewrite (fresh_cookie_shape _ _ _ _ Ho p). apply steady_init. reflexivity. }
  assert (Hl : logic_offset c0 <= 0).
  { rewrite (fresh_cookie_shape _ _ _ _ Ho p). simpl. lia. }
  pose proof (run_ops_steady fuel ops c0 q 0 Hst Hl Hr) as H.
  destruct (run_ops fuel c0 q ops) as [[c' q']|w|].
  - split; [intros what; discriminate|]. split; [discriminate|].
    intros c1 q1 Heq. inv Heq. exact H.
  - destruct H as [s ->].
    split; [intros what; discriminate|]. split; discriminate.
  - split; [intros what; discriminate|]. split; discriminate.
Qed.

(** X9.  What a returning read call of [size] bytes reports: the return
    value r is between -1 and [size]; exactly max(r, 0) bytes are written
    to the caller's buffer and the logical offset advances by as many;
    r = -1 only with [truncated] and [eof] set and errno ENOBUFS; r = 0
    for a nonzero [size] only with [eof] set; and neither flag, once
    set, is cleared by a read. *)
Theorem read_return_value (fuel : nat) c (size : Z) (p : proc) (r : Z)
    (b : list byte) c' (p' : proc) :
  steady c -> 0 <= size <= SSIZE_MAX ->
  zstdfile_read fuel c size p = Ret (r, b, c', p') ->
  -1 <= r <= size /\ zlen b = Z.max r 0 /\
  logic_offset c' = wrap64 (logic_offset c + Z.max r 0) /\
  (r = -1 -> truncated c' = true /\ eof c' = true /\ p_errno p' = ENOBUFS) /\
  (r = 0 -> size = 0 \/ eof c' = true) /\
  (eof c = true -> eof c' = true) /\
  (truncated c = true -> truncated c' = true).
Proof.
  intros Hst Hs Heq. pose proof (read_steady fuel c size p Hst Hs) as H.
  rewrite Heq in H. tauto.
Qed.

(** X10.  What a returning seek call reports.  It returns 0 or -1.  On 0,
    [*offset_] is the logical offset the stream is left at, which is at
    most the target computed from [*offset_] and [whence], and falls
    short of it only with [eof] set.  On -1, [*offset_] is as the caller
    left it, and either nothing has changed at all (a rejected seek) or
    the skipping reads ran into a truncation: [truncated] and [eof] are
    set, errno is ENOBUFS, and the logical offset has not moved back. *)
Theorem seek_return_value (fuel : nat) c (offset whence : Z) (p : proc)
    (r o : Z) c' (p' : proc) :
  steady c -> logic_offset c <= SSIZE_MAX -> - 2 ^ 63 <= offset < 2 ^ 63 ->
  zstdfile_seek fuel c offset whence p = Ret (r, o, c', p') ->
  (r = 0 /\ o = logic_offset c' /\
   exists t, seek_target c offset whence = Some t /\ 0 <= o <= t /\
             (o < t -> eof c' = true)) \/
  (r = -1 /\ o = offset /\
   ((c' = c /\ p' = p) \/
    (truncated c' = true /\ eof c' = true /\ p_errno p' = ENOBUFS /\
     logic_offset c <= logic_offset c' /\
     exists t, seek_target c offset whence = Some t /\
               logic_offset c' <= t))).
Proof.
  intros Hst Hmax Ho Heq.
  pose proof (seek_steady fuel c offset whence p Hst Hmax Ho) as H.
  rewrite Heq in H. tauto.
Qed.

(** ** One read or two

    The loop of [zstdfile_read] pass by pass, for a cookie with nothing
    to skip. *)

Lemma deliver_deliver c (a b : Z) :
  deliver_output b (deliver_output a c) = deliver_output (a + b) c.
Proof.
  unfold deliver_output. simpl.
  rewrite !wrap64_idem, wrap32_idem, !Z.add_assoc. reflexivity.
Qed.

Lemma deliver_0 c : tidy c -> deliver_output 0 c = c.
Proof.
  intros ((Hs & Hp & Hcap & _ & _ & _ & _ & _ & _ & Hl) & Ha & _).
  unfold offsets_agree in Ha.
  destruct c; unfold deliver_output; simpl in *.
  rewrite !Z.add_0_r, wrap32_small by lia.
  rewrite !wrap64_small by lia. reflexivity.
Qed.

Lemma tidy_deliver c (k : Z) :
  tidy c -> 0 <= k <= obuf_pos c - outbuf_start c ->
  tidy (deliver_output k c) /\
  outbuf_start (deliver_output k c) = outbuf_start c + k.
Proof.
  intros (Hc & Ha & He) Hk.
  destruct (cursors_ok_deliver c k Hc Hk) as [Hc' Hs'].
  split; [|exact Hs'].
  split; [exact Hc'|]. split; [|exact He].
  unfold offsets_agree in *. simpl. rewrite Ha. reflexivity.
Qed.

Lemma drain_run (f : nat) c (n t : Z) (b : list byte) :
  tidy c -> 0 < n -> 0 <= t -> t + n <= SSIZE_MAX -> drain_ok f c n ->
  drain f c (mkLocals n 0 t b) = Some (drained_to c n t b).
Proof.
  intros Ht Hn Ht0 Hmax [Hf1 Hf2]. pose proof Ht as (Hc & Ha & He).
  destruct f as [|f]; [lia|]. unfold drained_to.
  destruct (Z_lt_ge_dec (outbuf_start c) (obuf_pos c)) as [Hlt|Hge].
  - rewrite drain_step by (simpl; lia). cbv zeta. cbn [l_size l_total l_buf].
    set (k := Z.min (obuf_pos c - outbuf_start c) n).
    rewrite sint64_small by (unfold SSIZE_MAX in Hmax; lia).
    destruct (n - k =? 0) eqn:Hz; [reflexivity|].
    apply Z.eqb_neq in Hz.
    destruct f as [|f]; [lia|].
    destruct (tidy_deliver c k Ht ltac:(lia)) as [_ Hs].
    apply drain_none. rewrite Hs. simpl. lia.
  - destruct Hc as (Hs & _).
    rewrite drain_none by lia.
    replace (obuf_pos c - outbuf_start c) with 0 by lia.
    rewrite Z.min_l by lia.
    rewrite deliver_0, take_0, app_nil_r, Z.sub_0_r, Z.add_0_r by exact Ht.
    reflexivity.
Qed.

Lemma drain_some (f : nat) c (n t : Z) (b : list byte) (x : zstdfile * locals) :
  tidy c -> 0 < n -> 0 <= t -> t + n <= SSIZE_MAX ->
  drain f c (mkLocals n 0 t b) = Some x ->
  x = drained_to c n t b /\ drain_ok f c n.
Proof.
  intros Ht Hn Ht0 Hmax H. split.
  - pose proof (drain_fuel_mono f (S (S f)) _ _ _ ltac:(lia) H) as H2.
    rewrite drain_run in H2; try assumption; [congruence|].
    split; [lia|]. left. lia.
  - destruct f as [|f]; [discriminate|]. split; [lia|].
    destruct f as [|f]; [|left; lia]. right.
    destruct (Z_lt_ge_dec (outbuf_start c) (obuf_pos c)) as [Hlt|Hge].
    + right. rewrite drain_step in H by (simpl; lia).
      cbv zeta in H. cbn [l_size] in H.
      destruct (n - Z.min (obuf_pos c - outbuf_start c) n =? 0) eqn:Hz;
        [|discriminate].
      apply Z.eqb_eq in Hz. lia.
    + left. destruct Ht as ((Hs & _) & _). lia.
Qed.

(** One pass of the loop in terms of [pass]. *)
Lemma read_loop_pass (f : nat) c (p : proc) (ret : Z) (l : locals) :
  read_loop (S f) c p ret l =
  match drain f c l with
  | None => OutOfFuel
  | Some (c1, l1) =>
      if l_size l1 =? 0 then Ret (c1, p, l1)
      else
        match pass c1 p ret with
        | PassStop (Ret (c', p')) => Ret (c', p', l1)
        | PassStop (Abort w) => Abort w
        | PassStop OutOfFuel => OutOfFuel
        | PassOn c4 p2 r =>
            if l_size l1 >? 0 then read_loop f c4 p2 r l1
            else Ret (c4, p2, l1)
        end
  end.
Proof.
  rewrite read_loop_S. unfold pass.
  destruct (drain f c l) as [[c1 l1]|]; [|reflexivity].
  destruct (l_size l1 =? 0); [reflexivity|].
  destruct (negb _); [reflexivity|].
  destruct (ret =? 0); [reflexivity|].
  destruct (refill c1 p) as [c2 p2|c2 p2|]; try reflexivity.
  cbv zeta. destruct (decomp (reset_output c2)); [|reflexivity].
  destruct (ZSTD_isError _); [reflexivity|].
  destruct (negb _); reflexivity.
Qed.

Lemma pass_tidy c (p : proc) (ret : Z) c4 (p2 : proc) (r : Z) :
  tidy c -> pass c p ret = PassOn c4 p2 r ->
  tidy c4 /\ eof c4 = eof c /\ truncated c4 = truncated c.
Proof.
  intros (Hc & Ha & He). unfold pass.
  destruct (negb _); [discriminate|].
  destruct (ret =? 0); [discriminate|].
  pose proof (refill_steady c p Hc He) as Hr.
  assert (Hoff : match refill c p with
                 | RefillOk c2 _ => offsets_agree c2
                 | _ => True
                 end).
  { unfold refill. destruct (ibuf_pos c =? ibuf_size c); [|exact Ha].
    destruct (fread _ _ _) as [[got f1] e1].
    destruct (f_error f1); [destruct (e1 =? ENOBUFS); exact I|].
    destruct (_ && _); [exact I | exact Ha]. }
  destruct (refill c p) as [c2 p2'|c2 p2'|]; try discriminate.
  destruct Hr as (Hc2 & Herr2 & Htr2 & He2 & _). cbv zeta.
  change (decomp (reset_output c2)) with (decomp c2).
  destruct (decomp c2) as [d|]; [|discriminate].
  destruct (ZSTD_isError _); [discriminate|].
  pose proof (engine_steady c2 d Hc2) as Hc4. cbv zeta in Hc4.
  destruct (negb _) eqn:Hne; [|discriminate].
  intros H; inv H. apply negb_true_iff in Hne.
  split; [|split; assumption].
  split; [exact Hc4|]. split; [exact Hoff | exact Hne].
Qed.

Lemma pass_ret c (p : proc) (ret : Z) c4 (p2 : proc) (r : Z) :
  pass c p ret = PassOn c4 p2 r ->
  forall ret', ret' <> 0 -> pass c p ret' = PassOn c4 p2 r.
Proof.
  unfold pass. intros H ret' Hne.
  destruct (negb _); [discriminate|].
  destruct (ret =? 0); [discriminate|].
  apply Z.eqb_neq in Hne. rewrite Hne. exact H.
Qed.

Lemma tidy_drained c (n t : Z) (b : list byte) :
  tidy c -> 0 < n ->
  tidy (fst (drained_to c n t b)) /\
  eof (fst (drained_to c n t b)) = eof c /\
  truncated (fst (drained_to c n t b)) = truncated c /\
  (0 < l_size (snd (drained_to c n t b)) ->
   obuf_pos (fst (drained_to c n t b)) =
   outbuf_start (fst (drained_to c n t b))).
Proof.
  intros Ht Hn. pose proof Ht as ((Hs & _) & _). unfold drained_to. simpl.
  destruct (tidy_deliver c (Z.min (obuf_pos c - outbuf_start c) n) Ht
              ltac:(lia)) as [Ht' Hs'].
  split; [exact Ht'|]. split; [reflexivity|]. split; [reflexivity|].
  intros Hpos. simpl in Hs'. rewrite Hs'. lia.
Qed.

(** A read that is satisfied in full leaves the flags as they were. *)
Lemma loop_full_tidy (f : nat) :
  forall c p ret n t b c' p' l',
    tidy c -> 0 < n -> 0 <= t -> t + n <= SSIZE_MAX ->
    read_loop f c p ret (mkLocals n 0 t b) = Ret (c', p', l') ->
    l_size l' = 0 ->
    tidy c' /\ eof c' = eof c /\ truncated c' = truncated c.
Proof.
  induction f as [|f IH]; intros c p ret n t b c' p' l' Ht Hn Ht0 Hmax H Hz;
    [discriminate|].
  rewrite read_loop_pass in H.
  destruct (drain f c _) as [[c1 l1]|] eqn:Hd; [|discriminate].
  destruct (drain_some _ _ _ _ _ _ Ht Hn Ht0 Hmax Hd) as [Hx _].
  destruct (tidy_drained c n t b Ht Hn) as (T1 & T2 & T3 & _).
  rewrite <- Hx in T1, T2, T3. simpl in T1, T2, T3.
  assert (Hl1 : l1 = snd (drained_to c n t b)) by (rewrite <- Hx; reflexivity).
  destruct (l_size l1 =? 0) eqn:Hz1.
  { inv H. split; [assumption|]. split; assumption. }
  apply Z.eqb_neq in Hz1.
  destruct (pass c1 p ret) as [[[c2 p2]|w|]|c4 p2 r] eqn:Hp;
    try discriminate.
  - inv H. contradiction.
  - destruct (pass_tidy _ _ _ _ _ _ T1 Hp) as (U1 & U2 & U3).
    assert (Hpos : 0 < l_size l1).
    { rewrite Hl1 in *. unfold drained_to in *. simpl in *. lia. }
    rewrite gtb_true in H by lia.
    rewrite Hl1 in H, Hpos. unfold drained_to in H, Hpos.
    cbn [snd l_size] in H, Hpos.
    pose proof Ht as ((Hs & _) & _).
    apply IH in H; try assumption; try lia.
    destruct H as (V1 & V2 & V3). split; [exact V1|]. split; congruence.
Qed.

(** The loop does not look at [total] and [buf]: started with others, it
    makes the same passes. *)
Lemma loop_shift (f : nat) :
  forall c p ret n t b t0 b0 c' p' l',
    tidy c -> 0 < n -> 0 <= t -> t + n <= SSIZE_MAX ->
    0 <= t0 -> t0 + n <= SSIZE_MAX ->
    read_loop f c p ret (mkLocals n 0 t b) = Ret (c', p', l') ->
    l_size l' = 0 ->
    exists x,
      zlen x = n /\ l' = mkLocals 0 0 (t + n) (b ++ x) /\
      read_loop f c p ret (mkLocals n 0 t0 b0) =
      Ret (c', p', mkLocals 0 0 (t0 + n) (b0 ++ x)).
Proof.
  induction f as [|f IH];
    intros c p ret n t b t0 b0 c' p' l' Ht Hn Ht0 Hmax Ht1 Hmax1 H Hz;
    [discriminate|].
  rewrite read_loop_pass in H. rewrite read_loop_pass.
  destruct (drain f c (mkLocals n 0 t b)) as [[c1 l1]|] eqn:Hd; [|discriminate].
  destruct (drain_some _ _ _ _ _ _ Ht Hn Ht0 Hmax Hd) as [Hx Hok].
  rewrite (drain_run f c n t0 b0 Ht Hn Ht1 Hmax1 Hok).
  destruct (tidy_drained c n t b Ht Hn) as (T1 & _ & _ & _).
  rewrite <- Hx in T1. simpl in T1.
  pose proof Ht as ((Hs & _ & _ & Hbuf & _) & _).
  unfold drained_to in *. inv Hx. cbn [l_size] in *.
  set (k := Z.min (obuf_pos c - outbuf_start c) n) in *.
  set (chunk := take k (drop (outbuf_start c) (buf_bytes (outbuf c)))) in *.
  assert (Hchunk : zlen chunk = k).
  { subst chunk. apply zlen_take. rewrite zlen_drop by lia. lia. }
  destruct (n - k =? 0) eqn:Hz1.
  - apply Z.eqb_eq in Hz1. inv H. exists chunk.
    split; [lia|]. split; [f_equal; lia|].
    f_equal. f_equal. f_equal; lia.
  - apply Z.eqb_neq in Hz1.
    destruct (pass (deliver_output k c) p ret) as [[[c2 p2]|w|]|c4 p2 r] eqn:Hp;
      try discriminate.
    + inv H. simpl in Hz. contradiction.
    + destruct (pass_tidy _ _ _ _ _ _ T1 Hp) as (U1 & _).
      rewrite gtb_true in H by lia. rewrite gtb_true by lia.
      destruct (IH c4 p2 r (n - k) (t + k) (b ++ chunk) (t0 + k) (b0 ++ chunk)
                  c' p' l' U1 ltac:(lia) ltac:(lia) ltac:(lia) ltac:(lia)
                  ltac:(lia) H Hz) as (x & Hx1 & Hx2 & Hx3).
      exists (chunk ++ x). rewrite zlen_app.
      split; [lia|]. rewrite !app_assoc. split.
      * rewrite Hx2. f_equal. lia.
      * rewrite Hx3. f_equal. f_equal. f_equal. lia.
Qed.

(** The two ways a pass of a read that ends satisfied can go: the buffer
    holds all that is asked for, or it is emptied and the loop goes on. *)
Lemma loop_done (f : nat) c (p : proc) (ret n t : Z) (b : list byte) :
  tidy c -> 0 < n -> 0 <= t -> t + n <= SSIZE_MAX ->
  drain_ok f c n -> n <= obuf_pos c - outbuf_start c ->
  read_loop (S f) c p ret (mkLocals n 0 t b) =
  Ret (deliver_output n c, p,
       mkLocals 0 0 (t + n)
         (b ++ take n (drop (outbuf_start c) (buf_bytes (outbuf c))))).
Proof.
  intros Ht Hn Ht0 Hmax Hok Hle.
  rewrite read_loop_pass, (drain_run f c n t b Ht Hn Ht0 Hmax Hok).
  unfold drained_to. rewrite Z.min_r by lia. cbn [l_size].
  rewrite Z.sub_diag. reflexivity.
Qed.

Lemma loop_on (f : nat) c (p : proc) (ret n t : Z) (b : list byte)
    c4 (p2 : proc) (r : Z) :
  tidy c -> 0 < n -> 0 <= t -> t + n <= SSIZE_MAX ->
  drain_ok f c n -> obuf_pos c - outbuf_start c < n ->
  pass (deliver_output (obuf_pos c - outbuf_start c) c) p ret =
    PassOn c4 p2 r ->
  read_loop (S f) c p ret (mkLocals n 0 t b) =
  read_loop f c4 p2 r
    (mkLocals (n - (obuf_pos c - outbuf_start c)) 0
       (t + (obuf_pos c - outbuf_start c))
       (b ++ take (obuf_pos c - outbuf_start c)
               (drop (outbuf_start c) (buf_bytes (outbuf c))))).
Proof.
  intros Ht Hn Ht0 Hmax Hok Hlt Hp.
  rewrite read_loop_pass, (drain_run f c n t b Ht Hn Ht0 Hmax Hok).
  unfold drained_to. rewrite Z.min_l by lia. cbn [l_size].
  assert (Hz : (n - (obuf_pos c - outbuf_start c) =? 0) = false)
    by (apply Z.eqb_neq; lia).
  rewrite Hz, Hp. rewrite gtb_true by lia. reflexivity.
Qed.

Lemma loop_cases (f : nat) c (p : proc) (ret n t : Z) (b : list byte)
    c' (p' : proc) (l' : locals) :
  tidy c -> 0 < n -> 0 <= t -> t + n <= SSIZE_MAX ->
  read_loop (S f) c p ret (mkLocals n 0 t b) = Ret (c', p', l') ->
  l_size l' = 0 ->
  drain_ok f c n /\
  (obuf_pos c - outbuf_start c < n ->
   exists c4 p2 r,
     pass (deliver_output (obuf_pos c - outbuf_start c) c) p ret =
       PassOn c4 p2 r /\
     tidy c4).
Proof.
  intros Ht Hn Ht0 Hmax H Hz. rewrite read_loop_pass in H.
  destruct (drain f c _) as [[c1 l1]|] eqn:Hd; [|discriminate].
  destruct (drain_some _ _ _ _ _ _ Ht Hn Ht0 Hmax Hd) as [Hx Hok].
  split; [exact Hok|]. intros Hlt.
  destruct (tidy_drained c n t b Ht Hn) as (T1 & _).
  unfold drained_to in Hx, T1. rewrite Z.min_l in Hx, T1 by lia.
  inv Hx. cbn [l_size fst] in *.
  assert (Hnz : (n - (obuf_pos c - outbuf_start c) =? 0) = false)
    by (apply Z.eqb_neq; lia).
  rewrite Hnz in H.
  destruct (pass _ p ret) as [[[c2 p2]|w|]|c4 p2 r] eqn:Hp; try discriminate.
  - inv H. simpl in Hz. lia.
  - exists c4, p2, r. split; [reflexivity|].
    apply (pass_tidy _ _ _ _ _ _ T1 Hp).
Qed.

(** A read call that is satisfied in full does what two consecutive
    calls for the two parts do. *)
Lemma loop_split (f : nat) :
  forall c p ret s1 n2 t b c' p' l',
    tidy c -> 0 < s1 -> 0 < n2 -> 0 <= t -> t + s1 + n2 <= SSIZE_MAX ->
    read_loop f c p ret (mkLocals (s1 + n2) 0 t b) = Ret (c', p', l') ->
    l_size l' = 0 ->
    exists c1 p1 x1 x2,
      read_loop f c p ret (mkLocals s1 0 t b) =
        Ret (c1, p1, mkLocals 0 0 (t + s1) (b ++ x1)) /\
      read_loop (S f) c1 p1 1 (mkLocals n2 0 0 []) =
        Ret (c', p', mkLocals 0 0 n2 x2) /\
      zlen x1 = s1 /\ zlen x2 = n2 /\
      l' = mkLocals 0 0 (t + s1 + n2) (b ++ x1 ++ x2).
Proof.
  induction f as [|f IH];
    intros c p ret s1 n2 t b c' p' l' Ht Hs1 Hn2 Ht0 Hmax H Hz;
    [discriminate|].
  pose proof Ht as ((Hs & Hp1 & Hp2 & Hbuf & _) & _).
  set (left := obuf_pos c - outbuf_start c) in *.
  set (rest := drop (outbuf_start c) (buf_bytes (outbuf c))) in *.
  assert (Hrest : zlen rest >= left).
  { subst rest left. rewrite zlen_drop by lia. lia. }
  destruct (loop_cases f c p ret (s1 + n2) t b c' p' l' Ht ltac:(lia) Ht0
              ltac:(lia) H Hz) as [Hok Hon].
  fold left in Hon.
  assert (Hf1 : (1 <= f)%nat) by (destruct Hok; lia).
  destruct (Z_le_gt_dec s1 left) as [Hle|Hgt].
  - (* the first part is in the buffer *)
    assert (Hok1 : drain_ok f c s1).
    { split; [lia|]. right. right. fold left. lia. }
    destruct (tidy_deliver c s1 Ht ltac:(fold left; lia)) as [T1 S1].
    assert (Hrest1 : drop (outbuf_start (deliver_output s1 c))
                       (buf_bytes (outbuf (deliver_output s1 c))) =
                     drop s1 rest).
    { rewrite S1. subst rest. cbn [outbuf deliver_output].
      rewrite drop_drop by lia. reflexivity. }
    assert (Hleft1 : obuf_pos (deliver_output s1 c)
                     - outbuf_start (deliver_output s1 c) = left - s1).
    { rewrite S1. cbn [obuf_pos deliver_output]. subst left. lia. }
    assert (Hok2 : drain_ok (S f) (deliver_output s1 c) n2).
    { split; [lia|]. left. lia. }
    exists (deliver_output s1 c), p, (take s1 rest).
    rewrite (loop_done f c p ret s1 t b Ht Hs1 Ht0 ltac:(lia) Hok1
               ltac:(fold left; lia)).
    fold rest.
    destruct (Z_le_gt_dec (s1 + n2) left) as [Hle2|Hgt2].
    + (* and so is the second *)
      rewrite (loop_done f c p ret (s1 + n2) t b Ht ltac:(lia) Ht0 ltac:(lia)
                 Hok ltac:(fold left; lia)) in H.
      fold rest in H. inversion H as [[E1 E2 E3]]. clear H.
      rewrite <- E2.
      exists (take n2 (drop s1 rest)).
      rewrite (loop_done (S f) (deliver_output s1 c) p 1 n2 0 [] T1 Hn2
                 ltac:(lia) ltac:(lia) Hok2 ltac:(lia)).
      rewrite Hrest1, deliver_deliver.
      split; [reflexivity|]. split; [reflexivity|].
      split; [apply zlen_take; lia|].
      split; [apply zlen_take; rewrite zlen_drop by lia; lia|].
      f_equal; [lia|]. rewrite take_take_drop by lia. reflexivity.
    + (* the buffer is emptied during the second *)
      destruct (Hon ltac:(lia)) as (c4 & p2 & r & Hp & T4).
      rewrite (loop_on f c p ret (s1 + n2) t b c4 p2 r Ht ltac:(lia) Ht0
                 ltac:(lia) Hok ltac:(fold left; lia) Hp) in H.
      fold left rest in H.
      destruct (loop_shift f c4 p2 r (s1 + n2 - left) (t + left)
                  (b ++ take left rest) (0 + (left - s1))
                  ([] ++ take (left - s1) (drop s1 rest)) c' p' l' T4
                  ltac:(lia) ltac:(lia) ltac:(lia) ltac:(lia) ltac:(lia) H Hz)
        as (x & Hx1 & Hx2 & Hx3).
      exists (take (left - s1) (drop s1 rest) ++ x).
      assert (Hp' : pass (deliver_output (left - s1) (deliver_output s1 c)) p 1
                    = PassOn c4 p2 r).
      { rewrite deliver_deliver.
        replace (s1 + (left - s1)) with left by lia.
        apply (pass_ret _ _ _ _ _ _ Hp). discriminate. }
      rewrite <- Hleft1 in Hp' at 1.
      rewrite (loop_on (S f) (deliver_output s1 c) p 1 n2 0 [] c4 p2 r T1 Hn2
                 ltac:(lia) ltac:(lia) Hok2 ltac:(lia) Hp').
      rewrite Hrest1, Hleft1.
      replace (n2 - (left - s1)) with (s1 + n2 - left) by lia.
      rewrite (read_loop_fuel_mono f (S f) _ _ _ _ _ ltac:(lia) Hx3)
        by discriminate.
      split; [reflexivity|].
      split; [f_equal; f_equal; f_equal; try reflexivity; lia|].
      split; [apply zlen_take; lia|].
      split.
      { rewrite zlen_app, zlen_take by (rewrite zlen_drop by lia; lia). lia. }
      rewrite Hx2. f_equal; [lia|].
      assert (Htk : take left rest =
                    take s1 rest ++ take (left - s1) (drop s1 rest)).
      { rewrite take_take_drop by lia. f_equal. lia. }
      rewrite Htk, <- !app_assoc. reflexivity.
  - (* the buffer is emptied during the first *)
    destruct (Hon ltac:(lia)) as (c4 & p2 & r & Hp & T4).
    rewrite (loop_on f c p ret (s1 + n2) t b c4 p2 r Ht ltac:(lia) Ht0
               ltac:(lia) Hok ltac:(fold left; lia) Hp) in H.
    fold left rest in H.
    replace (s1 + n2 - left) with (s1 - left + n2) in H by lia.
    destruct (IH c4 p2 r (s1 - left) n2 (t + left) (b ++ take left rest)
                c' p' l' T4 ltac:(lia) Hn2 ltac:(lia) ltac:(lia) H Hz)
      as (c1 & p1 & x1 & x2 & K1 & K2 & K3 & K4 & K5).
    assert (Hok1 : drain_ok f c s1).
    { destruct Hok as [Ha [Hb|[Hb|Hb]]].
      - split; [lia|]. left. lia.
      - split; [lia|]. right. left. exact Hb.
      - fold left in Hb. lia. }
    exists c1, p1, (take left rest ++ x1), x2.
    rewrite (loop_on f c p ret s1 t b c4 p2 r Ht Hs1 Ht0 ltac:(lia) Hok1
               ltac:(fold left; lia) Hp).
    fold left rest. rewrite K1.
    rewrite (read_loop_fuel_mono (S f) (S (S f)) _ _ _ _ _ ltac:(lia) K2)
      by discriminate.
    split; [f_equal; f_equal; f_equal; [lia | rewrite <- app_assoc; reflexivity]|].
    split; [reflexivity|].
    split; [rewrite zlen_app, zlen_take by lia; lia|].
    split; [exact K4|].
    rewrite K5. f_equal; [lia|]. rewrite <- !app_assoc. reflexivity.
Qed.

Lemma take_app_exact {A : Type} (x y : list A) : take (zlen x) (x ++ y) = x.
Proof.
  induction x as [|a x IH]; [apply take_0|].
  cbn [app take]. rewrite zlen_cons.
  pose proof (zlen_nonneg x).
  destruct (1 + zlen x <=? 0) eqn:Hle; [apply Z.leb_le in Hle; lia|].
  f_equal. replace (1 + zlen x - 1) with (zlen x) by lia. exact IH.
Qed.

Lemma drop_app_exact {A : Type} (x y : list A) : drop (zlen x) (x ++ y) = y.
Proof.
  induction x as [|a x IH]; [apply drop_0|].
  cbn [app drop]. rewrite zlen_cons.
  pose proof (zlen_nonneg x).
  destruct (1 + zlen x <=? 0) eqn:Hle; [apply Z.leb_le in Hle; lia|].
  replace (1 + zlen x - 1) with (zlen x) by lia. exact IH.
Qed.

Lemma take_drop_id {A : Type} (l : list A) :
  forall n, take n l ++ drop n l = l.
Proof.
  induction l as [|a l IH]; intros n; [reflexivity|].
  cbn [take drop]. destruct (n <=? 0); [reflexivity|].
  cbn [app]. f_equal. apply IH.
Qed.

Lemma steady_tidy c : steady c -> truncated c = false -> tidy c.
Proof.
  intros (Hc & Ha & Hn) Ht. split; [exact Hc|]. split; [exact Ha|].
  destruct (f_error (in_ c)) eqn:He; [|reflexivity].
  specialize (Hn He). congruence.
Qed.

Lemma tidy_steady c : tidy c -> steady c.
Proof.
  intros (Hc & Ha & He). split; [exact Hc|]. split; [exact Ha|].
  intros Hx. congruence.
Qed.

(** A read call that returns all it was asked for went through the loop
    and left it satisfied. *)
Lemma read_full (f : nat) c (n : Z) (p : proc) (B : list byte) c'
    (p' : proc) :
  tidy c -> 0 < n <= SSIZE_MAX ->
  zstdfile_read f c n p = Ret (n, B, c', p') ->
  eof c = false /\ truncated c = false /\
  read_loop f c p 1 (mkLocals n 0 0 []) = Ret (c', p', mkLocals 0 0 n B).
Proof.
  intros Ht [Hn Hmax] H. pose proof Ht as (Hc & Ha & He).
  unfold zstdfile_read in H. rewrite gtb_false in H by lia.
  assert (Hnz : (n =? 0) = false) by (apply Z.eqb_neq; lia).
  rewrite Hnz in H.
  destruct (eof c); [inv H; lia|].
  destruct (truncated c) eqn:Htr.
  { unfold read_out in H. cbn [l_total l_buf] in H.
    change (0 >? SSIZE_MAX) with false in H.
    change (0 >? 0) with false in H. cbv iota in H.
    rewrite Htr in H. inv H. lia. }
  unfold offsets_agree in Ha. rewrite Ha, Z.sub_diag in H.
  change (wrap64 0) with 0 in H. change (negb (0 =? 0)) with false in H.
  cbv iota in H.
  destruct (read_loop f c p 1 _) as [[[c1 p1] l1]|w|] eqn:Hl;
    try discriminate.
  split; [reflexivity|]. split; [reflexivity|].
  pose proof (read_loop_steady f c p 1 (mkLocals n 0 0 []) Hc He eq_refl
                ltac:(simpl; lia) ltac:(simpl; lia) ltac:(simpl; lia)) as Hs.
  rewrite Hl in Hs. cbn [l_size l_total l_buf] in Hs.
  destruct Hs as (_ & _ & K3 & K4 & K5 & _).
  unfold read_out in H.
  destruct (l_total l1 >? SSIZE_MAX); [discriminate|].
  destruct (l_total l1 >? 0).
  - injection H as E1 E2 E3 E4.
    assert (Hz : l_size l1 = 0) by lia.
    destruct (loop_shift f c p 1 n 0 [] 0 [] c1 p1 l1 Ht Hn ltac:(lia)
                ltac:(lia) ltac:(lia) ltac:(lia) Hl Hz)
      as (x & _ & Hx & _).
    rewrite Hx in E2. cbn [l_buf app] in E2. rewrite <- E3, <- E4, <- E2.
    rewrite Hx. reflexivity.
  - destruct (truncated c1); inv H; lia.
Qed.

Lemma read_build (f : nat) c (n : Z) (p : proc) (B : list byte) c'
    (p' : proc) :
  tidy c -> eof c = false -> truncated c = false -> 0 < n <= SSIZE_MAX ->
  read_loop f c p 1 (mkLocals n 0 0 []) = Ret (c', p', mkLocals 0 0 n B) ->
  zstdfile_read f c n p = Ret (n, B, c', p').
Proof.
  intros (Hc & Ha & He) Heof Htr [Hn Hmax] H.
  unfold zstdfile_read. rewrite gtb_false by lia.
  assert (Hnz : (n =? 0) = false) by (apply Z.eqb_neq; lia).
  rewrite Hnz, Heof, Htr.
  unfold offsets_agree in Ha. rewrite Ha, Z.sub_diag.
  change (wrap64 0) with 0. change (negb (0 =? 0)) with false. cbv iota.
  rewrite H. unfold read_out. cbn [l_total l_buf].
  rewrite gtb_false by lia. rewrite gtb_true by lia. reflexivity.
Qed.

Lemma read_two (f : nat) c (n1 n2 : Z) (p : proc) (B : list byte) c'
    (p' : proc) :
  tidy c -> 0 < n1 -> 0 < n2 -> n1 + n2 <= SSIZE_MAX ->
  zstdfile_read f c (n1 + n2) p = Ret (n1 + n2, B, c', p') ->
  exists c1 p1,
    zstdfile_read f c n1 p = Ret (n1, take n1 B, c1, p1) /\
    zstdfile_read (S f) c1 n2 p1 = Ret (n2, drop n1 B, c', p') /\
    tidy c1.
Proof.
  intros Ht H1 H2 Hmax H.
  destruct (read_full f c (n1 + n2) p B c' p' Ht ltac:(lia) H)
    as (Heof & Htr & Hl).
  destruct (loop_split f c p 1 n1 n2 0 [] c' p' _ Ht H1 H2 ltac:(lia)
              ltac:(lia) Hl eq_refl)
    as (c1 & p1 & x1 & x2 & K1 & K2 & K3 & K4 & K5).
  cbn [app] in K1, K5. rewrite Z.add_0_l in K1.
  injection K5 as HB.
  assert (Htk : take n1 (x1 ++ x2) = x1)
    by (rewrite <- K3; apply take_app_exact).
  assert (Hdr : drop n1 (x1 ++ x2) = x2)
    by (rewrite <- K3; apply drop_app_exact).
  rewrite HB, Htk, Hdr.
  destruct (loop_full_tidy f c p 1 n1 0 [] c1 p1 _ Ht H1 ltac:(lia)
              ltac:(lia) K1 eq_refl) as (T1 & T2 & T3).
  exists c1, p1. split; [|split; [|exact T1]].
  - apply read_build; try assumption; lia.
  - apply read_build; try assumption; try congruence; lia.
Qed.

Lemma read_chunks_cons (f : nat) c (p : proc) (n : Z) (rest : list Z) :
  read_chunks f c p (n :: rest) =
  match zstdfile_read f c n p with
  | Ret (_, b, c1, p1) =>
      match read_chunks f c1 p1 rest with
      | Ret (bs, c2, p2) => Ret (b ++ bs, c2, p2)
      | other => other
      end
  | Abort w => Abort w
  | OutOfFuel => OutOfFuel
  end.
Proof. reflexivity. Qed.

Lemma read_seq_cons (f : nat) c (p : proc) (n : Z) (rest : list Z) :
  read_seq f c p (n :: rest) =
  match zstdfile_read f c n p with
  | Ret (r, _, c1, p1) =>
      match read_seq f c1 p1 rest with
      | Ret (rs, c2, p2) => Ret (r :: rs, c2, p2)
      | other => other
      end
  | Abort w => Abort w
  | OutOfFuel => OutOfFuel
  end.
Proof. reflexivity. Qed.

Lemma chunks_tidy (sizes : list Z) :
  forall (fuel : nat) c (p : proc) (B : list byte) c' (p' : proc),
    tidy c -> sizes <> [] -> Forall (fun n => 0 < n) sizes ->
    zsum sizes <= SSIZE_MAX ->
    zstdfile_read fuel c (zsum sizes) p = Ret (zsum sizes, B, c', p') ->
    read_chunks (List.length sizes + fuel) c p sizes = Ret (B, c', p') /\
    read_seq (List.length sizes + fuel) c p sizes = Ret (sizes, c', p').
Proof.
  induction sizes as [|n rest IH];
    intros fuel c p B c' p' Ht Hne Hall Hmax H; [congruence|].
  inversion Hall as [|? ? Hn Hrest]; subst.
  change (zsum (n :: rest)) with (n + zsum rest) in *.
  destruct rest as [|m rest'].
  - change (zsum []) with 0 in *. rewrite Z.add_0_r in H.
    cbn [List.length Nat.add read_chunks read_seq].
    rewrite (read_fuel_mono fuel (S fuel) c n p _ ltac:(lia) H)
      by discriminate.
    rewrite app_nil_r. split; reflexivity.
  - pose proof (zsum_nonneg _ Hrest) as Hs0.
    assert (Hpos : 0 < zsum (m :: rest')).
    { inversion Hrest as [|? ? Hm Hr]; subst.
      pose proof (zsum_nonneg _ Hr).
      change (zsum (m :: rest')) with (m + zsum rest'). lia. }
    destruct (read_two fuel c n (zsum (m :: rest')) p B c' p' Ht Hn Hpos
                Hmax H) as (c1 & p1 & K1 & K2 & T1).
    destruct (IH (S fuel) c1 p1 (drop n B) c' p' T1 ltac:(discriminate)
                Hrest ltac:(lia) K2) as [I1 I2].
    replace (List.length (n :: m :: rest') + fuel)%nat
      with (List.length (m :: rest') + S fuel)%nat by (simpl; lia).
    rewrite read_chunks_cons, read_seq_cons.
    rewrite (read_fuel_mono fuel (List.length (m :: rest') + S fuel) c n p _
               ltac:(lia) K1) by discriminate.
    rewrite I1, I2, take_drop_id. split; reflexivity.
Qed.

(** X11.  However many engine calls and refills a stream takes, a caller
    may split its reads as it likes: when one read call returns all the
    bytes it was asked for, consecutive read calls of positive sizes that
    add up to the same number all return in full, deliver the same bytes
    in the same order, and leave the same cookie and errno. *)
Theorem split_reads_are_one_read (fuel : nat) c (sizes : list Z) (p : proc)
    (B : list byte) c' (p' : proc) :
  steady c -> sizes <> [] -> Forall (fun n => 0 < n) sizes ->
  zsum sizes <= SSIZE_MAX ->
  zstdfile_read fuel c (zsum sizes) p = Ret (zsum sizes, B, c', p') ->
  read_chunks (List.length sizes + fuel) c p sizes = Ret (B, c', p') /\
  read_seq (List.length sizes + fuel) c p sizes = Ret (sizes, c', p').
Proof.
  intros Hst Hne Hall Hmax H.
  assert (Hpos : 0 < zsum sizes).
  { destruct sizes as [|n rest]; [congruence|].
    inversion Hall as [|? ? Hn Hrest]; subst.
    pose proof (zsum_nonneg _ Hrest).
    change (zsum (n :: rest)) with (n + zsum rest). lia. }
  assert (Htr : truncated c = false).
  { destruct (truncated c) eqn:Htr; [|reflexivity].
    rewrite read_truncated in H by (auto; lia).
    destruct (eof c); inv H; lia. }
  exact (chunks_tidy sizes fuel c p B c' p' (steady_tidy c Hst Htr) Hne Hall
           Hmax H).
Qed.

(** ** A forward seek is a read *)

Lemma refill_heap_add c (p : proc) (k : Z) :
  refill c (heap_add k p) =
  match refill c p with
  | RefillOk c' p' => RefillOk c' (heap_add k p')
  | RefillTruncated c' p' => RefillTruncated c' (heap_add k p')
  | RefillFatal => RefillFatal
  end.
Proof.
  unfold refill. destruct (ibuf_pos c =? ibuf_size c); [|reflexivity].
  change (p_errno (heap_add k p)) with (p_errno p).
  destruct (fread (inbuf_size c) (in_ c) (p_errno p)) as [[got f1] e1].
  destruct (f_error f1).
  - destruct (e1 =? ENOBUFS); reflexivity.
  - destruct (_ && _); reflexivity.
Qed.

Lemma read_loop_heap_add (f : nat) (k : Z) :
  forall c p ret l,
    read_loop f c (heap_add k p) ret l =
    match read_loop f c p ret l with
    | Ret (c', p', l') => Ret (c', heap_add k p', l')
    | Abort w => Abort w
    | OutOfFuel => OutOfFuel
    end.
Proof.
  induction f as [|f IH]; intros c p ret l; [reflexivity|].
  rewrite !read_loop_S.
  destruct (drain f c l) as [[c1 l1]|]; [|reflexivity].
  destruct (l_size l1 =? 0); [reflexivity|].
  destruct (negb _); [reflexivity|].
  destruct (ret =? 0); [reflexivity|].
  rewrite refill_heap_add.
  destruct (refill c1 p) as [c2 p2|c2 p2|]; try reflexivity.
  cbv zeta. destruct (decomp (reset_output c2)); [|reflexivity].
  destruct (ZSTD_isError _); [reflexivity|].
  destruct (_ && _); [apply IH | reflexivity].
Qed.

(** A read call neither looks at the heap nor changes it. *)
Lemma read_heap_add (f : nat) c (n : Z) (p : proc) (k : Z) :
  zstdfile_read f c n (heap_add k p) =
  match zstdfile_read f c n p with
  | Ret (r, b, c', p') => Ret (r, b, c', heap_add k p')
  | Abort w => Abort w
  | OutOfFuel => OutOfFuel
  end.
Proof.
  unfold zstdfile_read, read_out.
  destruct (n >? SSIZE_MAX); [reflexivity|].
  destruct (n =? 0); [reflexivity|].
  destruct (eof c); [reflexivity|].
  destruct (truncated c) eqn:Htr.
  { cbn [l_total l_buf]. change (0 >? SSIZE_MAX) with false.
    change (0 >? 0) with false. cbv iota. reflexivity. }
  destruct (negb _); [reflexivity|].
  rewrite read_loop_heap_add.
  destruct (read_loop f c p 1 _) as [[[c1 p1] l1]|w|]; try reflexivity.
  destruct (l_total l1 >? SSIZE_MAX); [reflexivity|].
  destruct (l_total l1 >? 0); [reflexivity|].
  destruct (truncated c1); reflexivity.
Qed.

(** The skipping loop, when the bytes up to the target can all be read:
    the 32 KiB reads it makes come to one read of the distance. *)
Lemma skip_reads (N : nat) :
  forall (f : nat) c (p : proc) (t : Z) (B : list byte) c' (p' : proc),
    tidy c -> logic_offset c < t <= SSIZE_MAX ->
    t - logic_offset c <= Z.of_nat N * bsz ->
    zstdfile_read f c (t - logic_offset c) p =
      Ret (t - logic_offset c, B, c', p') ->
    seek_skip (2 * N + 1 + f) c p t = Ret (Some t, c', p').
Proof.
  induction N as [|N IH]; intros f c p t B c' p' Ht [Hlt Hmax] Hd H.
  { simpl in Hd. lia. }
  pose proof Ht as ((_ & _ & _ & _ & _ & _ & _ & _ & _ & Hlo) & _).
  unfold SSIZE_MAX in Hmax.
  replace (2 * S N + 1 + f)%nat with (S (2 * N + 1 + S f)) by lia.
  cbn [seek_skip]. rewrite wrap64_small by lia.
  rewrite gtb_true by lia.
  rewrite (wrap64_small (t - logic_offset c)) by lia.
  set (d := t - logic_offset c) in *.
  destruct (Z_le_gt_dec d bsz) as [Hle|Hgt].
  - rewrite Z.min_r by lia.
    rewrite (read_fuel_mono f (2 * N + 1 + S f) c d p _ ltac:(lia) H)
      by discriminate.
    assert (H1 : (d <? 0) = false) by (apply Z.ltb_ge; lia).
    assert (H2 : (d =? 0) = false) by (apply Z.eqb_neq; lia).
    rewrite H1, H2.
    pose proof (read_steady f c d p (tidy_steady c Ht)
                  ltac:(unfold SSIZE_MAX; lia)) as Hs.
    rewrite H in Hs. destruct Hs as (_ & _ & _ & Hl & _).
    rewrite Z.max_l, wrap64_small in Hl by lia.
    replace (2 * N + 1 + S f)%nat with (S (2 * N + 1 + f)) by lia.
    cbn [seek_skip]. rewrite wrap64_small by lia.
    rewrite gtb_false by lia. reflexivity.
  - rewrite Z.min_l by lia.
    replace d with (bsz + (d - bsz)) in H by lia.
    destruct (read_two f c bsz (d - bsz) p B c' p' Ht ltac:(unfold bsz; lia)
                ltac:(lia) ltac:(unfold SSIZE_MAX; lia) H)
      as (c1 & p1 & K1 & K2 & T1).
    rewrite (read_fuel_mono f (2 * N + 1 + S f) c bsz p _ ltac:(lia) K1)
      by discriminate.
    change (bsz <? 0) with false. change (bsz =? 0) with false. cbv iota.
    pose proof (read_steady f c bsz p (tidy_steady c Ht)
                  ltac:(unfold SSIZE_MAX, bsz; lia)) as Hs.
    rewrite K1 in Hs. destruct Hs as (_ & _ & _ & Hl & _).
    rewrite Z.max_l, wrap64_small in Hl by (unfold bsz in *; lia).
    apply (IH (S f) c1 p1 t (drop bsz B) c' p' T1).
    + rewrite Hl. unfold SSIZE_MAX. subst d. lia.
    + rewrite Hl. rewrite Nat2Z.inj_succ in Hd. subst d. unfold bsz in *. lia.
    + rewrite Hl.
      replace (t - (logic_offset c + bsz)) with (d - bsz) by (subst d; lia).
      exact K2.
Qed.

(** X12.  A forward seek is a read whose bytes are thrown away, however
    many 32 KiB reads it takes: when a read call for the distance to the
    target returns all of it, the seek returns 0, stores the target in
    [*offset_], frees its skip buffer and leaves the cookie and errno that
    read call leaves. *)
Theorem seek_is_read_and_discard (fuel : nat) c (offset whence t : Z)
    (p : proc) (B : list byte) c' (p' : proc) :
  steady c -> seek_target c offset whence = Some t ->
  logic_offset c < t <= SSIZE_MAX ->
  zstdfile_read fuel c (t - logic_offset c) p =
    Ret (t - logic_offset c, B, c', p') ->
  zstdfile_seek (2 * Z.to_nat (t / bsz + 1) + 1 + fuel) c offset whence p =
    Ret (0, t, c', p') /\
  logic_offset c' = t.
Proof.
  intros Hst Htgt [Hlt Hmax] H.
  pose proof Hst as ((_ & _ & _ & _ & _ & _ & _ & _ & _ & Hlo) & _).
  assert (Htr : truncated c = false).
  { destruct (truncated c) eqn:Htr; [|reflexivity].
    rewrite read_truncated in H by (auto; lia).
    destruct (eof c); inv H; lia. }
  pose proof (steady_tidy c Hst Htr) as Ht.
  unfold SSIZE_MAX in Hmax.
  assert (Hl : logic_offset c' = t).
  { pose proof (read_steady fuel c (t - logic_offset c) p Hst
                  ltac:(unfold SSIZE_MAX; lia)) as Hs.
    rewrite H in Hs. destruct Hs as (_ & _ & _ & Hl & _).
    rewrite Z.max_l, wrap64_small in Hl by lia. lia. }
  split; [|exact Hl].
  unfold zstdfile_seek. rewrite Htgt.
  assert (H1 : (t <? 0) = false) by (apply Z.ltb_ge; lia).
  assert (H3 : (t =? 0) = false) by (apply Z.eqb_neq; lia).
  rewrite sint64_small by lia.
  assert (H2 : (t <? logic_offset c) = false) by (apply Z.ltb_ge; lia).
  rewrite H1, H2, H3. cbn [andb]. rewrite wrap64_small by lia.
  rewrite gtb_true by lia.
  assert (Hq : zstdfile_read fuel c (t - logic_offset c) (heap_add 1 p) =
               Ret (t - logic_offset c, B, c', heap_add 1 p'))
    by (rewrite read_heap_add, H; reflexivity).
  rewrite (skip_reads (Z.to_nat (t / bsz + 1)) fuel c (heap_add 1 p) t B c'
             (heap_add 1 p') Ht ltac:(unfold SSIZE_MAX; lia)).
  - cbv beta iota. rewrite Hl, wrap64_small, Z.eqb_refl, heap_add_cancel by lia.
    reflexivity.
  - rewrite Z2Nat.id by (pose proof (Z.div_pos t bsz ltac:(lia)
                                       ltac:(unfold bsz; lia)); lia).
    pose proof (Z.mul_succ_div_gt t bsz ltac:(unfold bsz; lia)).
    unfold bsz in *. lia.
  - exact Hq.
Qed.

(** ** Every call returns

    With an engine that makes progress, the loops of [zstdfile_read] and
    [zstdfile_seek] end: each pass of the read loop delivers a byte,
    consumes one, or has one decoded for the next pass to deliver. *)

Section Progress.
Variable ok : ZSTD_DCtx -> Prop.
Hypothesis Hprog : engine_progresses ok.

Lemma input_left_nonneg c : cursors_ok c -> 0 <= input_left c.
Proof.
  intros (_ & _ & _ & _ & Hi & _). unfold input_left.
  pose proof (zlen_nonneg (drop (f_pos (in_ c)) (f_data (in_ c)))). lia.
Qed.

(** What a refill does to the input still to be decoded. *)
Lemma refill_input c (p : proc) :
  cursors_ok c -> f_error (in_ c) = false -> 0 <= f_pos (in_ c) ->
  match refill c p with
  | RefillOk c2 _ =>
      input_left c2 = input_left c /\ ibuf_pos c2 < ibuf_size c2 /\
      0 <= f_pos (in_ c2) /\ decomp c2 = decomp c /\
      obuf_size c2 = obuf_size c
  | RefillTruncated c2 _ =>
      input_left c2 <= input_left c /\ 0 <= f_pos (in_ c2) /\
      decomp c2 = decomp c /\ obuf_size c2 = obuf_size c
  | RefillFatal => True
  end.
Proof.
  intros (Hs & Hp & Hcap & Hout & Hi & Hin & Hib & Hsz & Hd & Hl) Herr Hpos.
  unfold refill. destruct (ibuf_pos c =? ibuf_size c) eqn:Hq.
  2:{ apply Z.eqb_neq in Hq. repeat split; lia. }
  apply Z.eqb_eq in Hq. unfold fread.
  set (rest := drop (f_pos (in_ c)) (f_data (in_ c))).
  set (got := take (inbuf_size c) rest).
  assert (Hg : zlen got = Z.min (inbuf_size c) (zlen rest))
    by (apply zlen_take_min; lia).
  pose proof (zlen_nonneg rest) as Hr0.
  assert (Hrest : zlen (drop (f_pos (in_ c) + zlen got) (f_data (in_ c))) =
                  zlen rest - zlen got).
  { rewrite <- drop_drop by lia. fold rest. apply zlen_drop. lia. }
  destruct (zlen got <? inbuf_size c) eqn:Hshort;
    [apply Z.ltb_lt in Hshort | apply Z.ltb_ge in Hshort].
  - destruct (f_fault (in_ c)) as [e|]; cbn [f_error f_eof].
    + destruct (e =? ENOBUFS); [|exact I].
      unfold input_left.
        cbn [in_ set_in set_inbuf set_ibuf set_truncated f_pos f_data ibuf_size ibuf_pos decomp obuf_size].
        rewrite Hrest. fold rest. repeat split; lia.
    + rewrite Herr. destruct (zlen got =? 0) eqn:Hz; cbn [andb].
      * unfold input_left.
        cbn [in_ set_in set_inbuf set_ibuf set_truncated f_pos f_data ibuf_size ibuf_pos decomp obuf_size].
        rewrite Hrest. fold rest. repeat split; lia.
      * apply Z.eqb_neq in Hz.
        unfold input_left.
        cbn [in_ set_in set_inbuf set_ibuf set_truncated f_pos f_data ibuf_size ibuf_pos decomp obuf_size].
        rewrite Hrest. fold rest. repeat split; lia.
  - cbn [f_error f_eof]. rewrite Herr.
    destruct (zlen got =? 0) eqn:Hz.
    + apply Z.eqb_eq in Hz. destruct (f_eof (in_ c)); cbn [andb];
        unfold input_left;
        cbn [in_ set_in set_inbuf set_ibuf set_truncated f_pos f_data ibuf_size ibuf_pos decomp obuf_size];
        rewrite Hrest; fold rest; repeat split; lia.
    + apply Z.eqb_neq in Hz. cbn [andb].
      unfold input_left.
        cbn [in_ set_in set_inbuf set_ibuf set_truncated f_pos f_data ibuf_size ibuf_pos decomp obuf_size].
        rewrite Hrest. fold rest. repeat split; lia.
Qed.

(** One pass: the input does not grow, and when the loop goes on, a byte
    has been consumed or the output buffer holds one. *)
Lemma pass_input c (p : proc) (ret : Z) :
  tidy c -> equipped ok c ->
  match pass c p ret with
  | PassOn c4 _ _ =>
      equipped ok c4 /\ input_left c4 <= input_left c /\
      (input_left c4 < input_left c \/ outbuf_start c4 < obuf_pos c4)
  | PassStop (Ret (c', _)) =>
      equipped ok c' /\ input_left c' <= input_left c
  | PassStop (Abort _) => True
  | PassStop OutOfFuel => False
  end.
Proof.
  intros (Hc & Ha & He) ((d & Hd & Hok) & Hpos & Hroom). unfold pass.
  destruct (negb _); [exact I|].
  destruct (ret =? 0).
  { split; [|simpl; unfold input_left; simpl; lia].
    split; [exists d; split; assumption|]. split; assumption. }
  pose proof (refill_input c p Hc He Hpos) as Hr.
  pose proof (refill_steady c p Hc He) as Hr2.
  destruct (refill c p) as [c2 p2|c2 p2|]; [| |exact I].
  - destruct Hr as (Hin & Hpend & Hpos2 & Hd2 & Hsz2).
    destruct Hr2 as (Hc2 & Herr2 & _). cbv zeta.
    change (decomp (reset_output c2)) with (decomp c2). rewrite Hd2, Hd.
    change (obuf_size (reset_output c2)) with (obuf_size c2).
    set (inp := pending_input (reset_output c2)).
    destruct Hprog as [_ Hstep].
    destruct (Hstep d inp (obuf_size c2) Hok) as [Hok' Hmove].
    destruct Hfit as (_ & _ & Hbound).
    destruct (Hbound d inp (obuf_size c2) ltac:(lia)) as [Hcons Hlen].
    set (r := ZSTD_decompressStream d inp (obuf_size c2)) in *.
    destruct (ZSTD_isError (es_ret r)) eqn:Herrr; [exact I|].
    assert (Hinp : inp <> []).
    { destruct Hc2 as (_ & _ & _ & _ & Hi2 & _ & Hib2 & _).
      assert (Hz : zlen inp = ibuf_size c2 - ibuf_pos c2).
      { subst inp. unfold pending_input. cbn [ibuf_size ibuf_pos inbuf reset_output].
        apply zlen_take. rewrite zlen_drop by lia. lia. }
      intros Hnil. rewrite Hnil in Hz. change (zlen (@nil byte)) with 0 in Hz.
      lia. }
    assert (Hleft : input_left (after_engine r (reset_output c2)) =
                    input_left c2 - es_consumed r).
    { unfold input_left. simpl. lia. }
    assert (Heq : equipped ok (after_engine r (reset_output c2))).
    { split; [exists (es_dctx r); split; [reflexivity | exact Hok']|].
      simpl. split; lia. }
    change (f_error (in_ (after_engine r (reset_output c2))))
      with (f_error (in_ c2)).
    rewrite Herr2. cbn [negb].
    split; [exact Heq|]. split; [lia|].
    destruct (Hmove Hinp ltac:(lia) eq_refl) as [Hm|Hm]; [left; lia|].
    right. simpl. exact Hm.
  - destruct Hr as (Hin & Hpos2 & Hd2 & Hsz2).
    split; [|exact Hin].
    split; [exists d; split; [congruence | exact Hok]|]. split; lia.
Qed.

Lemma loop_total (m : nat) :
  forall (fuel : nat) c (p : proc) (ret n t : Z) (b : list byte),
    tidy c -> equipped ok c -> 0 < n -> 0 <= t -> t + n <= SSIZE_MAX ->
    loop_measure c n <= Z.of_nat m -> (m + 3 <= fuel)%nat ->
    match read_loop fuel c p ret (mkLocals n 0 t b) with
    | Ret (c', _, _) => equipped ok c' /\ input_left c' <= input_left c
    | Abort _ => True
    | OutOfFuel => False
    end.
Proof.
  induction m as [|m IH]; intros fuel c p ret n t b Ht Hq Hn Ht0 Hmax Hmu Hf;
    pose proof Ht as (Hc & _);
    pose proof (input_left_nonneg c Hc) as Hi0;
    pose proof Hc as (Hs & _).
  { unfold loop_measure in Hmu.
    destruct (obuf_pos c =? outbuf_start c); lia. }
  destruct fuel as [|f]; [lia|].
  rewrite read_loop_pass.
  rewrite (drain_run f c n t b Ht Hn Ht0 Hmax) by (split; [lia | left; lia]).
  unfold drained_to. cbn [l_size].
  set (left := obuf_pos c - outbuf_start c) in *.
  destruct (n - Z.min left n =? 0) eqn:Hz.
  { split; [exact Hq | unfold input_left; simpl; lia]. }
  apply Z.eqb_neq in Hz.
  assert (Hl0 : 0 <= left) by (unfold left; lia).
  assert (Hlt : left < n) by lia.
  rewrite Z.min_l in * by lia.
  destruct (tidy_deliver c left Ht ltac:(fold left; lia)) as [T1 S1].
  assert (Q1 : equipped ok (deliver_output left c)) by exact Hq.
  assert (I1 : input_left (deliver_output left c) = input_left c)
    by reflexivity.
  pose proof (pass_input (deliver_output left c) p ret T1 Q1) as Hp.
  destruct (pass (deliver_output left c) p ret) as [[[c' p']|w|]|c4 p2 r]
    eqn:Hpass; try exact I.
  - rewrite <- I1. exact Hp.
  - exact Hp.
  - destruct Hp as (Q4 & I4 & Hmove).
    destruct (pass_tidy _ _ _ _ _ _ T1 Hpass) as (T4 & _).
    rewrite gtb_true by lia.
    assert (Hmu4 : loop_measure c4 (n - left) <= Z.of_nat m).
    { unfold loop_measure in *. rewrite Nat2Z.inj_succ in Hmu.
      destruct (obuf_pos c =? outbuf_start c) eqn:He.
      - apply Z.eqb_eq in He.
        destruct (obuf_pos c4 =? outbuf_start c4) eqn:He4.
        + apply Z.eqb_eq in He4. destruct Hmove; lia.
        + lia.
      - apply Z.eqb_neq in He.
        destruct (obuf_pos c4 =? outbuf_start c4); subst left; lia. }
    specialize (IH f c4 p2 r (n - left) (t + left)
                  (b ++ take left (drop (outbuf_start c) (buf_bytes (outbuf c))))
                  T4 Q4 ltac:(lia) ltac:(lia) ltac:(lia) Hmu4 ltac:(lia)).
    destruct (read_loop f c4 p2 r _) as [[[c' p'] l']|w|];
      [|exact I|exact IH].
    destruct IH as [K1 K2]. split; [exact K1 | lia].
Qed.

Lemma equipped_set_eof c (b : bool) : equipped ok c -> equipped ok (set_eof b c).
Proof. intros H. exact H. Qed.

(** A read call with enough fuel returns or ends the process. *)
Lemma read_total (fuel : nat) c (n : Z) (p : proc) :
  ready ok c -> 0 <= n <= SSIZE_MAX -> (read_fuel c n <= fuel)%nat ->
  match zstdfile_read fuel c n p with
  | Ret (_, _, c', _) => ready ok c' /\ input_left c' <= input_left c
  | Abort w => exists s, w = Exit1 s
  | OutOfFuel => False
  end.
Proof.
  intros [Hst Hq] Hn Hf.
  pose proof (read_steady fuel c n p Hst Hn) as Hs.
  pose proof Hst as (Hc & Ha & _).
  pose proof (input_left_nonneg c Hc) as Hi0.
  assert (Hgoal : match zstdfile_read fuel c n p with
                  | Ret (_, _, c', _) =>
                      equipped ok c' /\ input_left c' <= input_left c
                  | Abort _ => True
                  | OutOfFuel => False
                  end).
  { unfold zstdfile_read. rewrite gtb_false by lia.
    destruct (n =? 0) eqn:Hz; [split; [exact Hq | lia]|].
    apply Z.eqb_neq in Hz.
    destruct (eof c); [split; [exact Hq | lia]|].
    destruct (truncated c) eqn:Htr.
    { unfold read_out. cbn [l_total l_buf].
      change (0 >? SSIZE_MAX) with false. change (0 >? 0) with false.
      cbv iota. rewrite Htr. split; [exact Hq | apply Z.le_refl]. }
    unfold offsets_agree in Ha. rewrite Ha, Z.sub_diag.
    change (wrap64 0) with 0. change (negb (0 =? 0)) with false. cbv iota.
    pose proof (loop_total (Z.to_nat (2 * input_left c + 2 * n + 1)) fuel c p
                  1 n 0 [] (steady_tidy c Hst Htr) Hq ltac:(lia) ltac:(lia)
                  ltac:(lia)) as Hl.
    unfold read_fuel in Hf.
    specialize (Hl ltac:(unfold loop_measure;
                         destruct (obuf_pos c =? outbuf_start c); lia) Hf).
    destruct (read_loop fuel c p 1 _) as [[[c1 p1] l1]|w|];
      [|exact I|exact Hl].
    unfold read_out.
    destruct (l_total l1 >? SSIZE_MAX); [exact I|].
    destruct (l_total l1 >? 0); [exact Hl|].
    destruct (truncated c1); exact Hl. }
  destruct (zstdfile_read fuel c n p) as [[[[r x] c'] p']|w|];
    [|exact Hs|exact Hgoal].
  destruct Hs as (Hst' & _). destruct Hgoal as [Hq' Hi'].
  split; [split; assumption | exact Hi'].
Qed.

(** The skipping loop of a forward seek ends: every read that lets it go
    on has moved the logical offset towards the target. *)
Lemma seek_skip_total (k : nat) :
  forall (fuel : nat) c (p : proc) (t J : Z),
    ready ok c -> logic_offset c <= wrap64 t ->
    wrap64 t - logic_offset c <= Z.of_nat k -> input_left c <= J ->
    (k + 1 + (Z.to_nat (2 * J + 2 * bsz + 1) + 3) <= fuel)%nat ->
    match seek_skip fuel c p t with
    | Ret (_, c', _) => equipped ok c'
    | Abort _ => True
    | OutOfFuel => False
    end.
Proof.
  induction k as [|k IH]; intros fuel c p t J Hr Hle Hk HJ Hf;
    (destruct fuel as [|f]; [lia|]); cbn [seek_skip];
    pose proof Hr as [Hst Hq];
    pose proof Hst as (Hc & _);
    pose proof Hc as (_ & _ & _ & _ & _ & _ & _ & _ & _ & Hlo);
    pose proof (input_left_nonneg c Hc) as Hi0;
    pose proof (wrap64_range t) as Ht.
  { rewrite gtb_false by lia. exact Hq. }
  destruct (wrap64 t >? logic_offset c) eqn:Hgt; [|exact Hq].
  apply Z.gtb_lt in Hgt.
  rewrite (wrap64_small (wrap64 t - logic_offset c)) by lia.
  set (diff := Z.min bsz (wrap64 t - logic_offset c)).
  assert (Hdiff : 0 < diff <= wrap64 t - logic_offset c /\ diff <= bsz)
    by (unfold diff, bsz; lia).
  assert (Hsz : 0 <= diff <= SSIZE_MAX) by (unfold SSIZE_MAX, bsz in *; lia).
  assert (Hrf : (read_fuel c diff <= f)%nat)
    by (unfold read_fuel; unfold bsz in *; lia).
  pose proof (read_total f c diff p Hr Hsz Hrf) as Htot.
  pose proof (read_steady f c diff p Hst Hsz) as Hs.
  destruct (zstdfile_read f c diff p) as [[[[r x] c1] p1]|w|];
    [|exact I|exact Htot].
  destruct Htot as [[Hst1 Hq1] Hi1].
  destruct Hs as (_ & Hr1 & _ & Hl1 & _ & Hzero & _).
  destruct (r <? 0) eqn:Hneg; [exact Hq1|]. apply Z.ltb_ge in Hneg.
  destruct (r =? 0) eqn:Hz.
  { destruct (eof c1); [exact Hq1 | exact I]. }
  apply Z.eqb_neq in Hz.
  rewrite Z.max_l, wrap64_small in Hl1 by lia.
  apply (IH f c1 p1 t J); [split; assumption | lia | lia | lia | lia].
Qed.

(** A seek call with enough fuel returns or ends the process. *)
Lemma seek_total (fuel : nat) c (offset whence : Z) (p : proc) :
  ready ok c -> logic_offset c <= SSIZE_MAX -> - 2 ^ 63 <= offset < 2 ^ 63 ->
  (Z.to_nat (2 ^ 63) + 1 + (Z.to_nat (2 * input_left c + 2 * bsz + 1) + 3)
   <= fuel)%nat ->
  match zstdfile_seek fuel c offset whence p with
  | Ret (_, _, c', _) => ready ok c'
  | Abort w => exists s, w = Exit1 s
  | OutOfFuel => False
  end.
Proof.
  intros Hr Hmax Ho Hf. pose proof Hr as [Hst Hq].
  pose proof (seek_steady fuel c offset whence p Hst Hmax Ho) as Hs.
  pose proof Hst as ((_ & _ & _ & _ & _ & _ & _ & _ & _ & Hlo) & _).
  assert (Hgoal : match zstdfile_seek fuel c offset whence p with
                  | Ret (_, _, c', _) => equipped ok c'
                  | Abort _ => True
                  | OutOfFuel => False
                  end).
  { unfold zstdfile_seek.
    destruct (seek_target c offset whence) as [t|] eqn:Htgt; [|exact Hq].
    pose proof (seek_target_range _ _ _ _ Ho Htgt) as Ht.
    destruct (t <? 0) eqn:Hneg; [exact Hq|]. apply Z.ltb_ge in Hneg.
    destruct (_ && _); [exact Hq|].
    destruct (t =? 0).
    { unfold zstdfile_cleanup, zstdfile_init. cbv beta iota zeta.
      cbn [logic_offset].
      destruct (0 =? wrap64 t); [|exact I].
      destruct Hprog as [Hok0 _]. destruct Hfit as (_ & Hsz & _).
      split; [exists ZSTD_createDCtx; split; [reflexivity | exact Hok0]|].
      simpl. split; lia. }
    rewrite wrap64_small by lia.
    destruct (t >? logic_offset c) eqn:Hgt.
    - apply Z.gtb_lt in Hgt. unfold SSIZE_MAX in Hmax.
      pose proof (seek_skip_total (Z.to_nat (2 ^ 63)) fuel c (heap_add 1 p) t
                    (input_left c) Hr) as Hk.
      rewrite wrap64_small in Hk by lia.
      specialize (Hk ltac:(lia) ltac:(lia) ltac:(lia) Hf).
      destruct (seek_skip fuel c (heap_add 1 p) t) as [[[[o|] c1] p1]|w|];
        [| |exact I|exact Hk].
      + destruct (logic_offset c1 =? wrap64 o); [exact Hk | exact I].
      + exact Hk.
    - destruct (logic_offset c =? _); [exact Hq | exact I]. }
  destruct (zstdfile_seek fuel c offset whence p) as [[[[r x] c'] p']|w|];
    [|exact Hs|exact Hgoal].
  destruct Hs as (Hst' & _). split; assumption.
Qed.

Lemma run_ops_total (ops : list op) :
  forall c (p : proc) (b : Z),
    ready ok c -> logic_offset c <= b -> in_range b ops ->
    exists fuel0 : nat,
      forall fuel : nat,
        (fuel0 <= fuel)%nat ->
        match run_ops fuel c p ops with
        | Ret (c', _) => ready ok c'
        | Abort w => exists s, w = Exit1 s
        | OutOfFuel => False
        end.
Proof.
  induction ops as [|o rest IH]; intros c p b Hr Hb Hrange.
  { exists 0%nat. intros fuel _. exact Hr. }
  pose proof Hr as [Hst Hq].
  pose proof Hst as ((_ & _ & _ & _ & _ & _ & _ & _ & _ & Hlo) & _).
  destruct Hrange as (Harg & Hbound & Hrest).
  destruct o as [n|offset whence].
  - set (f1 := read_fuel c n).
    pose proof (read_total f1 c n p Hr Harg (le_n _)) as H1.
    pose proof (read_steady f1 c n p Hst Harg) as H2.
    destruct (zstdfile_read f1 c n p) as [[[[r x] c1] p1]|w|] eqn:Hread;
      [| |contradiction].
    + destruct H1 as [Hr1 _]. destruct H2 as (_ & Hrr & _ & Hl1 & _).
      cbn [bound_after] in *. unfold SSIZE_MAX in Hbound.
      rewrite wrap64_small in Hl1 by lia.
      destruct (IH c1 p1 (b + n) Hr1 ltac:(lia) Hrest) as [f2 Hf2].
      exists (Nat.max f1 f2). intros fuel Hf. cbn [run_ops].
      rewrite (read_fuel_mono f1 fuel c n p _ ltac:(lia) Hread)
        by discriminate.
      apply Hf2. lia.
    + exists f1. intros fuel Hf. cbn [run_ops].
      rewrite (read_fuel_mono f1 fuel c n p _ Hf Hread) by discriminate.
      exact H1.
  - pose proof (bound_after_seek_ge b offset whence) as Hge.
    set (f1 := (Z.to_nat (2 ^ 63) + 1
                + (Z.to_nat (2 * input_left c + 2 * bsz + 1) + 3))%nat).
    pose proof (seek_total f1 c offset whence p Hr ltac:(lia) Harg (le_n _))
      as H1.
    pose proof (seek_steady f1 c offset whence p Hst ltac:(lia) Harg) as H2.
    destruct (zstdfile_seek f1 c offset whence p) as [[[[r x] c1] p1]|w|]
      eqn:Hseek; [| |contradiction].
    + destruct H2 as (_ & Hcase).
      assert (Hb1 : logic_offset c1 <= bound_after b (OpSeek offset whence)).
      { destruct Hcase as [(_ & Hx & t & Htgt & Ht & _)
                          |(_ & _ & [[-> _]|(_ & _ & _ & _ & t & Htgt & Ht)])].
        - pose proof (target_bound c b offset whence t ltac:(lia) Harg Hbound
                        Htgt). lia.
        - lia.
        - pose proof (target_bound c b offset whence t ltac:(lia) Harg Hbound
                        Htgt). lia. }
      destruct (IH c1 p1 _ H1 Hb1 Hrest) as [f2 Hf2].
      exists (Nat.max f1 f2). intros fuel Hf. cbn [run_ops].
      rewrite (seek_fuel_mono f1 fuel c offset whence p _ ltac:(lia) Hseek)
        by discriminate.
      apply Hf2. lia.
    + exists f1. intros fuel Hf. cbn [run_ops].
      rewrite (seek_fuel_mono f1 fuel c offset whence p _ Hf Hseek)
        by discriminate.
      exact H1.
Qed.

(** X16.  Every call returns.  With an engine that makes progress (a call
    that is given input and room and reports no error consumes or
    produces at least one byte), after a successful [zstdopenfile] every
    sequence of read and seek calls with sizes up to SSIZE_MAX and
    offsets that keep the stream position within an off64_t runs to its
    end: each call returns, or the process is ended by the [exit(1)] that
    follows an engine or source error.  No loop of [zstdfile_read] or
    [zstdfile_seek] goes on for ever. *)
Theorem session_calls_return (inp : FILE) (mode : string) (p q : proc) c0
    (ops : list op) :
  opens_to inp mode p c0 -> in_range 0 ops ->
  exists fuel0 : nat,
    forall fuel : nat,
      (fuel0 <= fuel)%nat ->
      (exists c' q', run_ops fuel c0 q ops = Ret (c', q')) \/
      (exists s, run_ops fuel c0 q ops = Abort (Exit1 s)).
Proof.
  intros Ho Hrange.
  assert (Hr : ready ok c0).
  { rewrite (fresh_cookie_shape _ _ _ _ Ho p).
    split; [apply steady_init; reflexivity|].
    destruct Hprog as [Hok0 _]. destruct Hfit as (_ & Hsz & _).
    split; [exists ZSTD_createDCtx; split; [reflexivity | exact Hok0]|].
    simpl. split; lia. }
  assert (Hl : logic_offset c0 <= 0).
  { rewrite (fresh_cookie_shape _ _ _ _ Ho p). simpl. lia. }
  destruct (run_ops_total ops c0 q 0 Hr Hl Hrange) as [fuel0 H].
  exists fuel0. intros fuel Hf. specialize (H fuel Hf).
  destruct (run_ops fuel c0 q ops) as [[c' q']|w|]; [| |contradiction].
  - left. eauto.
  - right. destruct H as [s ->]. eauto.
Qed.

End Progress.

End WithEngine.

(** ** A stream decoded by one engine call

    The source is shorter than the input buffer and the first
    [ZSTD_decompressStream] call consumes it whole, producing [out] and
    returning [ret]: 0 when [data] ends with its frame, a hint for more
    input when [data] is cut off. *)

Section OneCallStream.
Variables (data out : list byte) (d1 : ZSTD_DCtx) (ret : Z).
Hypothesis Hdata : 0 < zlen data < ZSTD_DStreamInSize.
Hypothesis Hstep :
  ZSTD_decompressStream ZSTD_createDCtx data ZSTD_DStreamOutSize =
  mkStep ret d1 (zlen data) out.
Hypothesis Hok : ZSTD_isError ret = false.
Hypothesis Hout : zlen out < 2 ^ 32.

Local Abbreviation buf_at k := (buffered data out d1 k).

(** The first pass of the loop of the first read call: the source is read
    and decoded. *)
Lemma first_pass (fuel : nat) (n : Z) (p : proc) :
  0 < n ->
  read_loop (S (S fuel)) (fresh_cookie data) p 1 (mkLocals n 0 0 []) =
  read_loop (S fuel) (buf_at 0) p ret (mkLocals n 0 0 []).
Proof.
  intros Hn. rewrite read_loop_S, drain_none by (simpl; lia).
  cbn [l_size].
  assert (Hnz : (n =? 0) = false) by (apply Z.eqb_neq; lia).
  rewrite Hnz.
  change (obuf_pos (fresh_cookie data) =? outbuf_start (fresh_cookie data)) with true.
  change (negb true) with false. change (1 =? 0) with false. cbv iota.
  rewrite (first_refill data Hdata).
  match goal with |- context [reset_output ?c] => set (c1 := c) end.
  cbv beta iota zeta.
  assert (Hpend : pending_input (reset_output c1) = data).
  { unfold pending_input, reset_output, c1. simpl.
    rewrite Z.sub_0_r, drop_0, take_all by lia. reflexivity. }
  change (decomp (reset_output c1)) with (Some ZSTD_createDCtx).
  change (obuf_size (reset_output c1)) with ZSTD_DStreamOutSize.
  cbv beta iota zeta.
  rewrite Hpend, Hstep. cbn [es_ret]. rewrite Hok.
  assert (Hafter : after_engine (mkStep ret d1 (zlen data) out)
                     (reset_output c1) = buf_at 0).
  { unfold after_engine, reset_output, buffered, overwrite, c1. simpl.
    rewrite app_nil_r.
    rewrite wrap64_small by (pose proof (zlen_nonneg out); lia).
    reflexivity. }
  rewrite Hafter.
  change (f_error (in_ (buf_at 0))) with false.
  rewrite gtb_true by lia. reflexivity.
Qed.

(** Where the loop arrives at [out] when more is asked for than the
    buffer holds: the rest is delivered; then [eof] is set if this call
    saw the engine return 0, and else the end of the source is taken for
    a truncation. *)
Lemma buffered_rest (fuel : nat) (k n : Z) (p : proc) (r : Z) :
  0 <= k <= zlen out -> zlen out - k < n ->
  read_loop (S (S (S fuel))) (buf_at k) p r (mkLocals n 0 0 []) =
  Ret (if r =? 0 then set_eof true (buf_at (zlen out))
       else set_truncated true (buf_at (zlen out)),
       p, mkLocals (n - (zlen out - k)) 0 (zlen out - k) (drop k out)).
Proof.
  intros Hk Hn. rewrite read_loop_S.
  assert (Hd : drain (S (S fuel)) (buf_at k) (mkLocals n 0 0 []) =
               Some (buf_at (zlen out),
                     mkLocals (n - (zlen out - k)) 0 (zlen out - k) (drop k out))).
  { destruct (Z.eq_dec k (zlen out)) as [->|Hne].
    - rewrite drain_none by (simpl; lia).
      rewrite Z.sub_diag, Z.sub_0_r, drop_all by lia. reflexivity.
    - rewrite drain_step by (simpl; lia). cbv zeta.
      cbn [l_size l_total l_buf obuf_pos outbuf_start outbuf buffered buf_bytes].
      rewrite Z.min_l by lia.
      assert (Hz : (n - (zlen out - k) =? 0) = false) by (apply Z.eqb_neq; lia).
      rewrite Hz. fold (buf_at k).
      rewrite deliver_buffered by lia.
      replace (k + (zlen out - k)) with (zlen out) by lia.
      rewrite drain_none by (simpl; lia).
      rewrite Z.add_0_l, sint64_small by lia.
      rewrite (take_all (drop k out)) by (rewrite zlen_drop; lia).
      reflexivity. }
  rewrite Hd. cbn [l_size].
  assert (Hz : (n - (zlen out - k) =? 0) = false) by (apply Z.eqb_neq; lia).
  rewrite Hz.
  change (obuf_pos (buf_at (zlen out)) =? outbuf_start (buf_at (zlen out)))
    with (zlen out =? zlen out).
  rewrite Z.eqb_refl. change (negb true) with false. cbv iota.
  destruct (r =? 0); [reflexivity|].
  unfold refill, fread.
  cbn [ibuf_pos ibuf_size buffered in_ inbuf_size inbuf f_pos f_data f_fault
       f_eof f_error buf_bytes].
  rewrite Z.eqb_refl, drop_all by lia.
  change (take ZSTD_DStreamInSize (@nil byte)) with (@nil byte).
  change (zlen (@nil byte)) with 0.
  assert (Hlt : (0 <? ZSTD_DStreamInSize) = true) by (apply Z.ltb_lt; lia).
  rewrite Hlt. cbv beta iota zeta. cbn [f_error f_eof].
  change (0 =? 0) with true. cbn [andb].
  unfold overwrite. change (zlen (@nil byte)) with 0.
  rewrite drop_0, Z.add_0_r. cbn [app].
  destruct p as [e h s]. reflexivity.
Qed.

Local Abbreviation end_c := (at_end data out d1).
Local Abbreviation cut_c := (at_cut data out d1).

Lemma reads_at_eof c (fuel : nat) (m : Z) (q : proc) :
  eof c = true -> m <= SSIZE_MAX ->
  zstdfile_read fuel c m q = Ret (0, [], c, q).
Proof.
  intros He Hm. unfold zstdfile_read. rewrite gtb_false by exact Hm.
  destruct (m =? 0); [reflexivity|]. rewrite He. reflexivity.
Qed.

Lemma whole_read (fuel : nat) (n : Z) (p : proc) :
  zlen out < n <= SSIZE_MAX ->
  zstdfile_read (S (S (S (S (S fuel))))) (fresh_cookie data) n p =
  if ret =? 0 then Ret (zlen out, out, end_c, p)
  else if 0 <? zlen out then Ret (zlen out, out, cut_c, p)
  else Ret (-1, [], set_eof true cut_c, set_errno ENOBUFS p).
Proof.
  intros [Hn1 Hn2]. pose proof (zlen_nonneg out) as H0.
  unfold zstdfile_read. rewrite gtb_false by exact Hn2.
  assert (Hnz : (n =? 0) = false) by (apply Z.eqb_neq; lia).
  rewrite Hnz.
  change (eof (fresh_cookie data)) with false.
  change (truncated (fresh_cookie data)) with false.
  change (wrap64 (logic_offset (fresh_cookie data)
                  - decode_offset (fresh_cookie data))) with 0.
  change (negb (0 =? 0)) with false. cbv iota.
  rewrite first_pass by lia. rewrite buffered_rest by lia.
  unfold read_out. cbn [l_total l_buf].
  rewrite Z.sub_0_r, drop_0.
  rewrite gtb_false by (unfold SSIZE_MAX; lia).
  destruct (Z.eq_dec (zlen out) 0) as [Hz|Hz].
  - assert (Ho : out = []).
    { destruct out; [reflexivity|]. rewrite zlen_cons in Hz.
      pose proof (zlen_nonneg l). lia. }
    unfold at_end, at_cut. rewrite Ho. change (zlen (@nil byte)) with 0.
    change (0 >? 0) with false. change (0 <? 0) with false.
    cbv iota. destruct (ret =? 0); reflexivity.
  - rewrite gtb_true by lia.
    assert (Hp : (0 <? zlen out) = true) by (apply Z.ltb_lt; lia).
    rewrite Hp. destruct (ret =? 0); reflexivity.
Qed.

Lemma tail_read (fuel : nat) (k n : Z) (p : proc) :
  0 <= k < zlen out -> zlen out - k < n <= SSIZE_MAX ->
  zstdfile_read (S (S (S fuel))) (buf_at k) n p =
  Ret (zlen out - k, drop k out, cut_c, p).
Proof.
  intros Hk [Hn1 Hn2]. unfold zstdfile_read.
  rewrite gtb_false by exact Hn2.
  assert (Hnz : (n =? 0) = false) by (apply Z.eqb_neq; lia).
  rewrite Hnz. cbn [eof truncated buffered logic_offset decode_offset].
  rewrite Z.sub_diag. change (negb (wrap64 0 =? 0)) with false. cbv iota.
  change (wrap64 0) with 0. fold (buf_at k).
  rewrite buffered_rest by lia. change (1 =? 0) with false. cbv iota.
  unfold read_out. cbn [l_total l_buf].
  rewrite gtb_false by (unfold SSIZE_MAX; lia).
  rewrite gtb_true by lia. reflexivity.
Qed.

(** X13.  The end of a frame seen in the call that decodes it is a clean
    end of file.  On a source shorter than the input buffer that the first
    engine call consumes whole, returning 0: a first read call that asks
    for more than the stream holds returns the whole stream, sets [eof]
    and leaves [truncated] clear, and every later read returns 0 and
    changes nothing. *)
Theorem frame_end_in_first_read_is_eof (fuel : nat) (n : Z) (p : proc) :
  ret = 0 -> zlen out < n <= SSIZE_MAX ->
  zstdfile_read (S (S (S (S (S fuel))))) (fresh_cookie data) n p =
    Ret (zlen out, out, end_c, p) /\
  eof end_c = true /\ truncated end_c = false /\
  logic_offset end_c = zlen out /\
  forall (fuel' : nat) (m : Z) (q : proc),
    m <= SSIZE_MAX -> zstdfile_read fuel' end_c m q = Ret (0, [], end_c, q).
Proof.
  intros Hret Hn. rewrite whole_read by exact Hn. rewrite Hret.
  split; [reflexivity|]. repeat split.
  intros fuel' m q Hm. apply reads_at_eof; [reflexivity | exact Hm].
Qed.


(** X15.  The frame end is known only to the call that decoded it, [ret]
    being set to 1 at every call.  On a source shorter than the input
    buffer that the first engine call consumes whole: after a first read
    of part of the stream, a read call that asks for more than the rest
    returns the rest as a short read and marks the stream truncated,
    whether the engine had returned 0 or not, and the read call after it
    returns -1 with errno ENOBUFS. *)
Theorem tail_read_in_later_call_marks_truncated (fuel : nat) (n1 n2 : Z)
    (p : proc) :
  0 < n1 < zlen out -> zlen out - n1 < n2 <= SSIZE_MAX ->
  zstdfile_read (S (S (S fuel))) (fresh_cookie data) n1 p =
    Ret (n1, take n1 out, buf_at n1, p) /\
  zstdfile_read (S (S (S fuel))) (buf_at n1) n2 p =
    Ret (zlen out - n1, drop n1 out, cut_c, p) /\
  truncated cut_c = true /\ eof cut_c = false /\
  forall (fuel' : nat) (m : Z) (q : proc),
    0 < m <= SSIZE_MAX ->
    zstdfile_read fuel' cut_c m q =
    Ret (-1, [], set_eof true cut_c, set_errno ENOBUFS q).
Proof.
  intros Hn1 Hn2.
  split; [apply (first_read data out d1 ret Hdata Hstep Hok Hout); lia|].
  split; [apply tail_read; lia|].
  split; [reflexivity|]. split; [reflexivity|].
  intros fuel' m q Hm.
  rewrite (read_truncated fuel' cut_c m q eq_refl Hm). reflexivity.
Qed.

(** C10.  An emulated forward seek is not atomic.  Take a source that the
    engine consumes whole in its first call, decoding it to [out] without
    reaching the end of the frame (a stream cut off between two blocks),
    and seek from the fresh stream to a target [t] beyond [out].  The
    first read call of the skipping loop delivers all of [out], a short
    read that moves [logic_offset] from 0 to the length of [out]; the
    second one returns -1; and the seek returns -1 with errno ENOBUFS,
    leaves [*offset_] alone and frees its buffer, while [logic_offset]
    stays where the first read left it, strictly beyond its value at the
    start of the call. *)
Theorem forward_seek_not_atomic (fuel : nat) (t : Z) (p : proc) :
  ret <> 0 -> 0 < zlen out < bsz -> zlen out < t < 2 ^ 63 ->
  let c0 := fresh_cookie data in
  let c' := set_eof true cut_c in
  zstdfile_read (S (S (S (S (S fuel))))) c0
    (Z.min bsz (t - logic_offset c0)) (heap_add 1 p) =
    Ret (zlen out, out, cut_c, heap_add 1 p) /\
  zstdfile_read (S (S (S (S fuel)))) cut_c
    (Z.min bsz (t - logic_offset cut_c)) (heap_add 1 p) =
    Ret (-1, [], c', set_errno ENOBUFS (heap_add 1 p)) /\
  zstdfile_seek (S (S (S (S (S (S fuel)))))) c0 t SEEK_SET p =
    Ret (-1, t, c', set_errno ENOBUFS p) /\
  logic_offset c0 = 0 /\ logic_offset c' = zlen out /\
  logic_offset c0 < logic_offset c'.
Proof.
  intros Hret [Hpos Hsmall] [Ht Hmax]. cbv zeta.
  assert (Hl0 : logic_offset (fresh_cookie data) = 0) by reflexivity.
  assert (Hl1 : logic_offset cut_c = zlen out) by reflexivity.
  assert (Hb : bsz = 32768) by reflexivity.
  assert (Hread1 : forall f,
            zstdfile_read (S (S (S (S (S f))))) (fresh_cookie data)
              (Z.min bsz (t - 0)) (heap_add 1 p) =
            Ret (zlen out, out, cut_c, heap_add 1 p)).
  { intros f. rewrite whole_read by (unfold SSIZE_MAX; lia).
    apply Z.eqb_neq in Hret. rewrite Hret.
    assert (Hp : (0 <? zlen out) = true) by (apply Z.ltb_lt; exact Hpos).
    rewrite Hp. reflexivity. }
  assert (Hread2 : forall f,
            zstdfile_read f cut_c (Z.min bsz (t - zlen out)) (heap_add 1 p) =
            Ret (-1, [], set_eof true cut_c,
                 set_errno ENOBUFS (heap_add 1 p))).
  { intros f.
    rewrite (read_truncated f cut_c _ (heap_add 1 p) eq_refl)
      by (unfold SSIZE_MAX; lia).
    reflexivity. }
  rewrite Hl0, Hl1.
  split; [apply Hread1|]. split; [apply Hread2|].
  split; [|change (logic_offset (set_eof true cut_c)) with (zlen out); lia].
  unfold zstdfile_seek, seek_target.
  change (SEEK_SET =? SEEK_SET) with true. cbv iota.
  assert (H1 : (t <? 0) = false) by (apply Z.ltb_ge; lia).
  assert (H2 : (t <? sint64 (logic_offset (fresh_cookie data))) = false).
  { rewrite Hl0. change (sint64 0) with 0. apply Z.ltb_ge. lia. }
  assert (H3 : (t =? 0) = false) by (apply Z.eqb_neq; lia).
  rewrite H1, H2, H3. cbn [andb]. cbv zeta.
  rewrite wrap64_small by lia. rewrite Hl0.
  rewrite gtb_true by lia.
  cbn [seek_skip].
  rewrite wrap64_small by lia. rewrite Hl0.
  rewrite gtb_true by lia.
  rewrite (wrap64_small (t - 0)) by lia.
  rewrite Hread1.
  assert (H4 : (zlen out <? 0) = false) by (apply Z.ltb_ge; lia).
  assert (H5 : (zlen out =? 0) = false) by (apply Z.eqb_neq; lia).
  rewrite H4, H5. rewrite Hl1.
  rewrite gtb_true by lia.
  rewrite (wrap64_small (t - zlen out)) by lia.
  rewrite Hread2.
  change (-1 <? 0) with true. cbv iota.
  do 2 f_equal.
  destruct p as [e h s0]. unfold set_errno, heap_add. cbn. f_equal. lia.
Qed.

End OneCallStream.

End Coverage.

(** * Concrete streams, run on the reference engine *)

Import RefZstd.

(** Each conjunct of the goal by evaluation. *)
Ltac run_conj :=
  repeat match goal with |- _ /\ _ => split end; vm_compute; reflexivity.

(** A file that starts with the magic number is wrapped. *)
Lemma open_zstd_file (data : list byte) :
  take 4 data = magic ->
  zstdopenfile (file_of data) "r" p0 =
  (OpenCookie (fresh_cookie data), Some true, mkProc 0 4 1).
Proof.
  intros Hm. unfold zstdopenfile, fread.
  change (mode_has "w" "r" || mode_has "a" "r") with false. cbv iota.
  change (f_pos (file_of data)) with 0.
  change (f_data (file_of data)) with data.
  rewrite drop_0, Hm. reflexivity.
Qed.

Lemma open_hello :
  zstdopenfile (file_of hello_frame) "r" p0 =
  (OpenCookie hello_c0, Some true, mkProc 0 4 1).
Proof. apply open_zstd_file. reflexivity. Qed.

Lemma open_cut :
  zstdopenfile (file_of cut_frame) "r" p0 =
  (OpenCookie cut_c0, Some true, mkProc 0 4 1).
Proof. apply open_zstd_file. reflexivity. Qed.

Lemma open_big :
  zstdopenfile (file_of big_frame) "r" p0 =
  (OpenCookie big_c0, Some true, mkProc 0 4 1).
Proof. apply open_zstd_file. reflexivity. Qed.

Lemma opens_hello : opens_to (file_of hello_frame) "r" p0 hello_c0.
Proof. eexists. exact open_hello. Defined.

Lemma opens_cut : opens_to (file_of cut_frame) "r" p0 cut_c0.
Proof. eexists. exact open_cut. Defined.

(** The engine decodes the whole frame in its first call and reports the
    end of the frame. *)
Lemma engine_on_hello :
  ZSTD_decompressStream ZSTD_createDCtx hello_frame ZSTD_DStreamOutSize =
  mkStep 0 (FrameHeader []) 20 (list_byte_of_string "hello world").
Proof. vm_compute. reflexivity. Qed.

(** The general theorem on one-call streams applies to this frame. *)
Lemma hello_is_one_call_stream :
  exists c3,
    (forall (fuel : nat) (p : proc),
        zstdfile_read (S (S (S fuel))) (fresh_cookie hello_frame) 5 p =
        Ret (5, list_byte_of_string "hello",
             buffered hello_frame (list_byte_of_string "hello world")
               (FrameHeader []) 5, p)) /\
    (forall (fuel : nat) (p : proc),
        zstdfile_read (S (S fuel))
          (buffered hello_frame (list_byte_of_string "hello world")
             (FrameHeader []) 5) 6 p =
        Ret (6, list_byte_of_string " world",
             buffered hello_frame (list_byte_of_string "hello world")
               (FrameHeader []) 11, p)) /\
    (forall (fuel : nat) (n : Z) (p : proc),
        0 < n <= SSIZE_MAX ->
        zstdfile_read (S (S fuel))
          (buffered hello_frame (list_byte_of_string "hello world")
             (FrameHeader []) 11) n p =
        Ret (-1, [], c3, set_errno ENOBUFS p)) /\
    eof c3 = true /\ truncated c3 = true /\ logic_offset c3 = 11.
Proof.
  assert (Hdata : 0 < zlen hello_frame < ZSTD_DStreamInSize)
    by (split; reflexivity).
  assert (Hout : zlen (list_byte_of_string "hello world") < 2 ^ 32)
    by reflexivity.
  destruct (one_call_stream_then_error hello_frame
              (list_byte_of_string "hello world") (FrameHeader []) 0
              Hdata engine_on_hello eq_refl Hout 5 6)
    as (c3 & H1 & H2 & _ & _ & H3 & He & Ht & Ho);
    [lia | lia | reflexivity |].
  exists c3. repeat (split; [assumption|]). assumption.
Qed.

Lemma hello_read_5 (p : proc) :
  zstdfile_read 4 hello_c0 5 p =
  Ret (5, list_byte_of_string "hello", hello_c5, p).
Proof. destruct p as [e h s]. vm_compute. reflexivity. Qed.

Lemma hello_read_6 (p : proc) :
  zstdfile_read 4 hello_c5 6 p =
  Ret (6, list_byte_of_string " world", hello_c11, p).
Proof. destruct p as [e h s]. vm_compute. reflexivity. Qed.

Lemma hello_read_11 (p : proc) :
  zstdfile_read 4 hello_c0 11 p =
  Ret (11, list_byte_of_string "hello world", hello_all, p).
Proof. destruct p as [e h s]. vm_compute. reflexivity. Qed.

Lemma hello_c11_drained : drained hello_c11.
Proof. unfold drained. run_conj. Qed.

Lemma hello_all_drained : drained hello_all.
Proof. unfold drained. run_conj. Qed.

Lemma cut_read_8 (p : proc) :
  zstdfile_read 4 cut_c0 8 p =
  Ret (5, list_byte_of_string "hello", cut_c5, p).
Proof. destruct p as [e h s]. vm_compute. reflexivity. Qed.

Lemma cut_read_again (p : proc) :
  zstdfile_read 4 cut_c5 3 p = Ret (-1, [], cut_failed, set_errno ENOBUFS p).
Proof. destruct p as [e h s]. vm_compute. reflexivity. Qed.

Lemma reach_hello_c5 : reachable hello_c0 hello_c5.
Proof.
  eapply reach_read; [apply reach_open | exact (hello_read_5 p0)].
Defined.

Lemma reach_cut_c5 : reachable cut_c0 cut_c5.
Proof.
  eapply reach_read; [apply reach_open | exact (cut_read_8 p0)].
Defined.

Lemma reach_cut_failed : reachable cut_c0 cut_failed.
Proof.
  eapply reach_read; [apply reach_cut_c5 | exact (cut_read_again p0)].
Defined.

(** ** C1: "hello world" read in two calls, then one call more *)

(** C1 (what the code does).  On the 20-byte frame of "hello world" a read
    of 5 bytes returns 5 with "hello" and leaves [logic_offset] at 5, and
    a read of 6 bytes returns 6 with " world" and leaves it at 11, [eof]
    still clear.  The next read call, of any nonzero size, does not return
    0: it returns -1 with errno ENOBUFS and sets [truncated] and [eof]. *)
Theorem hello_world_then_error :
  zstdopenfile (file_of hello_frame) "r" p0 =
    (OpenCookie hello_c0, Some true, mkProc 0 4 1) /\
  (forall (fuel : nat) (p : proc), (4 <= fuel)%nat ->
      zstdfile_read fuel hello_c0 5 p =
      Ret (5, list_byte_of_string "hello", hello_c5, p)) /\
  logic_offset hello_c5 = 5 /\
  (forall (fuel : nat) (p : proc), (4 <= fuel)%nat ->
      zstdfile_read fuel hello_c5 6 p =
      Ret (6, list_byte_of_string " world", hello_c11, p)) /\
  logic_offset hello_c11 = 11 /\ eof hello_c11 = false /\
  (forall (fuel : nat) (n : Z) (p : proc),
      (2 <= fuel)%nat -> 0 < n <= SSIZE_MAX ->
      zstdfile_read fuel hello_c11 n p =
      Ret (-1, [], hello_failed, set_errno ENOBUFS p)) /\
  eof hello_failed = true /\ truncated hello_failed = true /\
  logic_offset hello_failed = 11.
Proof.
  split; [exact open_hello|].
  split.
  { intros fuel p Hf. eapply read_fuel_mono;
      [exact Hf | apply hello_read_5 | discriminate]. }
  split; [reflexivity|].
  split.
  { intros fuel p Hf. eapply read_fuel_mono;
      [exact Hf | apply hello_read_6 | discriminate]. }
  split; [reflexivity|]. split; [reflexivity|].
  split; [|run_conj].
  intros fuel n p Hf Hn.
  destruct (drained_read hello_c11 hello_c11_drained) as (c' & Hread & _).
  destruct fuel as [|[|fuel]]; try lia.
  rewrite (Hread fuel n p Hn). do 3 f_equal.
  pose proof (Hread 2%nat 1 p0 ltac:(unfold SSIZE_MAX; lia)) as H1.
  assert (H2 : zstdfile_read 4 hello_c11 1 p0 =
               Ret (-1, [], hello_failed, set_errno ENOBUFS p0))
    by (vm_compute; reflexivity).
  rewrite H2 in H1.
  apply (f_equal (fun o => match o with
                           | Ret (_, _, c, _) => c
                           | _ => hello_c0
                           end)) in H1.
  symmetry. exact H1.
Qed.

(** ** C3: the clean end of a stream on the error path *)

(** C3 (what the code does).  On the 20-byte frame of "hello world", once
    reads of 5 and 6 bytes have delivered the 11 decoded bytes, the stream
    stands at its clean end: the engine has reported the end of the frame,
    every byte is decoded and delivered, the source is at its end of file
    and has no error, and neither flag is set.  The next read call, of any
    nonzero size, arrives at [out] with nothing delivered and with
    [truncated] set, as for a stream cut short, and so it does not return
    the 0 of a clean end-of-stream: it sets [eof], sets errno to ENOBUFS
    and returns -1.  (The first two cases of the error path are as
    claimed, for every stream: [read_error_path].) *)
Theorem clean_end_takes_error_path :
  reachable hello_c0 hello_c11 /\
  ZSTD_decompressStream ZSTD_createDCtx hello_frame ZSTD_DStreamOutSize =
    mkStep 0 (FrameHeader []) (zlen hello_frame)
      (list_byte_of_string "hello world") /\
  logic_offset hello_c11 = zlen (list_byte_of_string "hello world") /\
  drained hello_c11 /\
  forall (fuel : nat) (n : Z) (p : proc),
    0 < n <= SSIZE_MAX ->
    exists cm pm l,
      arrives_out (S (S fuel)) hello_c11 n p = Ret (cm, pm, l) /\
      l_total l = 0 /\ truncated cm = true /\
      zstdfile_read (S (S fuel)) hello_c11 n p =
        Ret (-1, [], set_eof true cm, set_errno ENOBUFS pm) /\
      eof (set_eof true cm) = true /\
      p_errno (set_errno ENOBUFS pm) = ENOBUFS.
Proof.
  split.
  { eapply reach_read; [apply reach_hello_c5 | exact (hello_read_6 p0)]. }
  split; [exact engine_on_hello|]. split; [reflexivity|].
  split; [exact hello_c11_drained|].
  intros fuel n p Hn.
  destruct (drained_read hello_c11 hello_c11_drained) as (c' & Hread & _).
  specialize (Hread fuel n p Hn).
  destruct (read_error_path (S (S fuel)) hello_c11 n p Hn) as [_ Hpath].
  destruct (Hpath _ _ _ _ eq_refl Hread)
    as (cm & pm & l & Harr & _ & _ & Hcase).
  exists cm, pm, l. split; [exact Harr|].
  destruct Hcase as [(Hpos & Hr & _)
                    |[(Hz & Htr & _ & Hc' & He & Hp' & Herrno)
                     |(_ & _ & Hr & _)]]; [lia | | discriminate Hr].
  split; [exact Hz|]. split; [exact Htr|].
  rewrite Hread, Hc', Hp'. split; [reflexivity|].
  split; [reflexivity | reflexivity].
Qed.

(** ** C6: seeking past the end *)

(** From a fresh open the emulated skip meets the frame end inside one read
    call: the seek lands at the end and the next read returns 0. *)
Lemma seek_past_end_fresh :
  zstdfile_seek 5 hello_c0 100 SEEK_SET p0 = Ret (0, 11, hello_end, p0) /\
  logic_offset hello_end = 11 /\ eof hello_end = true /\
  zstdfile_read 4 hello_end 1 p0 = Ret (0, [], hello_end, p0).
Proof. run_conj. Qed.

(** The same from a fresh open once the stream is longer than one 32 KiB
    skip: on a frame of 40000 bytes the skipping loop reads 32768 bytes,
    then 7232 (a short read that marks the stream truncated), then gets
    -1, and the seek to 50000 fails with [logic_offset] at 40000. *)
Lemma seek_past_end_fresh_large :
  read_summary (zstdfile_read 5 big_c0 32768 p0) =
    Some (32768, 32768, 32768, false, false, 0) /\
  read_summary (zstdfile_read 5 (after_read big_c0 32768) 17232 p0) =
    Some (7232, 7232, 40000, false, true, 0) /\
  seek_summary (zstdfile_seek 6 big_c0 50000 SEEK_SET p0) =
    Some (-1, 50000, 40000, true, true, ENOBUFS).
Proof. run_conj. Qed.

(** C6 (what the code does).  After one read call has delivered exactly
    the 11 bytes of "hello world" the stream stands at the end of its
    decoded data with [eof] clear, and every seek to a target beyond 11
    fails: it returns -1 with errno ENOBUFS, leaves [*offset_] alone and
    marks the stream truncated, with [logic_offset] still 11.  On the
    frame of 40000 bytes the seek to 50000 fails in the same way right
    after the open, with [logic_offset] left at 40000. *)
Theorem seek_past_end_fails :
  (forall (fuel : nat) (p : proc), (4 <= fuel)%nat ->
      zstdfile_read fuel hello_c0 11 p =
      Ret (11, list_byte_of_string "hello world", hello_all, p)) /\
  logic_offset hello_all = 11 /\ eof hello_all = false /\
  truncated hello_all = false /\
  (exists c',
      (forall (fuel : nat) (target : Z) (p : proc),
          (3 <= fuel)%nat -> 11 < target <= SSIZE_MAX ->
          zstdfile_seek fuel hello_all target SEEK_SET p =
          Ret (-1, target, c', set_errno ENOBUFS p)) /\
      eof c' = true /\ truncated c' = true /\ logic_offset c' = 11) /\
  zstdopenfile (file_of big_frame) "r" p0 =
    (OpenCookie big_c0, Some true, mkProc 0 4 1) /\
  seek_summary (zstdfile_seek 6 big_c0 50000 SEEK_SET p0) =
    Some (-1, 50000, 40000, true, true, ENOBUFS).
Proof.
  split.
  { intros fuel p Hf. eapply read_fuel_mono;
      [exact Hf | apply hello_read_11 | discriminate]. }
  split; [reflexivity|]. split; [reflexivity|]. split; [reflexivity|].
  split; [|split; [exact open_big | vm_compute; reflexivity]].
  destruct (drained_seek hello_all hello_all_drained) as (c' & Hseek & He & Ht & Ho);
    [vm_compute; discriminate|].
  exists c'. split; [|auto].
  intros fuel target p Hf Hrange.
  destruct fuel as [|[|[|fuel]]]; try lia.
  apply (Hseek fuel target SEEK_SET target p); [reflexivity | exact Hrange].
Qed.

(** ** C2: the invariant as worded fails *)

Lemma cut_reads_after_truncation :
  read_seq 4 cut_c5 p0 [8; 8] = Ret ([-1; 0], cut_failed, set_errno ENOBUFS p0).
Proof. vm_compute. reflexivity. Qed.

Lemma error_then_zero_not_failing : ~ reads_fail_after_drain [-1; 0].
Proof.
  intros (k & Hk & Hpos & Hneg).
  destruct k as [|[|k]]; [| |lia]; simpl in *.
  - inversion Hneg as [|x l Hx Hl]; subst. inversion Hl; subst. lia.
  - inversion Hpos; subst. lia.
Qed.

Lemma truncated_reads_fail_spec_refuted : ~ truncated_reads_fail_spec.
Proof.
  intros Hspec. apply error_then_zero_not_failing.
  apply (Hspec cut_c5 p0 4%nat [8; 8] [-1; 0] cut_failed
           (set_errno ENOBUFS p0)).
  - reflexivity.
  - repeat constructor; unfold SSIZE_MAX; lia.
  - exact cut_reads_after_truncation.
Qed.

(** C2, counterexample.  The cut stream after its short read of 5 bytes has
    [truncated] set; two further read calls of 8 bytes return -1 and then
    0, so a read call after the failing one returns 0 and not an error. *)
Lemma truncated_then_zero_counterexample :
  exists (c : zstdfile) (p : proc) (fuel : nat) (sizes rs : list Z)
         (c' : zstdfile) (p' : proc),
    reachable cut_c0 c /\
    truncated c = true /\
    Forall (fun n => 0 < n <= SSIZE_MAX) sizes /\
    read_seq fuel c p sizes = Ret (rs, c', p') /\
    rs = [-1; 0] /\
    ~ reads_fail_after_drain rs.
Proof.
  exists cut_c5, p0, 4%nat, [8; 8], [-1; 0], cut_failed, (set_errno ENOBUFS p0).
  split; [exact reach_cut_c5|].
  split; [reflexivity|].
  split; [repeat constructor; unfold SSIZE_MAX; lia|].
  split; [exact cut_reads_after_truncation|].
  split; [reflexivity | exact error_then_zero_not_failing].
Qed.

(** ** The general theorems at concrete streams *)

(** C2 on the cut stream after its short read. *)
Lemma truncated_reads_error_then_zero_witness :
  truncated cut_c5 = true /\
  Forall (fun n => 0 < n <= SSIZE_MAX) [8; 8] /\
  read_seq 4 cut_c5 p0 [8; 8] =
    Ret ([-1; 0], set_eof true cut_c5, set_errno ENOBUFS p0).
Proof.
  assert (Ht : truncated cut_c5 = true) by reflexivity.
  assert (Hs : Forall (fun n => 0 < n <= SSIZE_MAX) [8; 8])
    by (repeat constructor; unfold SSIZE_MAX; lia).
  split; [exact Ht|]. split; [exact Hs|].
  exact (truncated_reads_error_then_zero 4 cut_c5 p0 [8; 8] Ht Hs).
Defined.

(** [read_error_path] on the cut stream after its short read, where a
    read of 8 bytes goes straight to [out]. *)
Lemma read_error_path_witness :
  0 < 8 <= SSIZE_MAX /\
  (eof cut_c5 = true -> zstdfile_read 4 cut_c5 8 p0 = Ret (0, [], cut_c5, p0)) /\
  (forall r b c' p',
      eof cut_c5 = false ->
      zstdfile_read 4 cut_c5 8 p0 = Ret (r, b, c', p') ->
      exists cm pm l,
        arrives_out 4 cut_c5 8 p0 = Ret (cm, pm, l) /\
        b = l_buf l /\ 0 <= l_total l /\
        ((0 < l_total l /\ r = l_total l /\ c' = cm /\ p' = pm) \/
         (l_total l = 0 /\ truncated cm = true /\ r = -1 /\
          c' = set_eof true cm /\ eof c' = true /\
          p' = set_errno ENOBUFS pm /\ p_errno p' = ENOBUFS) \/
         (l_total l = 0 /\ truncated cm = false /\ r = 0 /\
          c' = cm /\ p' = pm))).
Proof.
  assert (Hn : 0 < 8 <= SSIZE_MAX) by (unfold SSIZE_MAX; lia).
  split; [exact Hn|].
  exact (read_error_path 4 cut_c5 8 p0 Hn).
Defined.

(** C4 on a text file. *)
Lemma open_not_zstd_returns_source_witness :
  mode_has "w"%char "r" = false /\
  mode_has "a"%char "r" = false /\
  f_error plain_file = false /\
  zlen (list_byte_of_string "plai") = 4 /\
  le32dec (list_byte_of_string "plai") <> ZSTD_MAGICNUMBER /\
  zstdopenfile plain_file "r" p0 = (OpenPlain (rewind plain_file), Some false, p0) /\
  f_pos (rewind plain_file) = 0 /\
  f_data (rewind plain_file) = f_data plain_file /\
  p_heap (snd (zstdopenfile plain_file "r" p0)) = p_heap p0.
Proof.
  assert (Hm : le32dec (list_byte_of_string "plai") <> ZSTD_MAGICNUMBER)
    by (vm_compute; discriminate).
  split; [reflexivity|]. split; [reflexivity|]. split; [reflexivity|].
  split; [reflexivity|]. split; [exact Hm|].
  exact (open_not_zstd_returns_source plain_file "r" p0
           (list_byte_of_string "plai") eq_refl eq_refl eq_refl eq_refl
           eq_refl Hm).
Defined.

(** C5: a seek back to offset 3 from offset 5. *)
Lemma seek_rejected_unchanged_witness :
  seek_target hello_c5 3 SEEK_SET = Some 3 /\
  3 < logic_offset hello_c5 /\
  logic_offset hello_c5 <= SSIZE_MAX /\
  zstdfile_seek 5 hello_c5 3 SEEK_SET p0 = Ret (-1, 3, hello_c5, p0).
Proof.
  assert (Hr : logic_offset hello_c5 <= SSIZE_MAX)
    by (vm_compute; discriminate).
  assert (Hlt : 3 < logic_offset hello_c5) by reflexivity.
  split; [reflexivity|]. split; [exact Hlt|]. split; [exact Hr|].
  apply (seek_rejected_unchanged 5 hello_c5 3 SEEK_SET p0).
  right. exists 3. split; [reflexivity|]. right.
  split; [exact Hlt|]. split; [lia | exact Hr].
Defined.

(** C9 on the cut stream after its truncation error: the seek to 0
    gives back the cookie of the open, and "hello" is read again. *)
Lemma seek_zero_reinitializes_witness :
  eof cut_failed = true /\ truncated cut_failed = true /\
  seek_target cut_failed 0 SEEK_SET = Some 0 /\
  exists c' p',
    zstdfile_seek 5 cut_failed 0 SEEK_SET (set_errno ENOBUFS p0) =
      Ret (0, 0, c', p') /\
    c' = cut_c0 /\ eof c' = false /\ truncated c' = false /\
    logic_offset c' = 0 /\
    zstdfile_read 4 c' 8 p' =
      Ret (5, list_byte_of_string "hello", cut_c5, p').
Proof.
  split; [reflexivity|]. split; [reflexivity|]. split; [reflexivity|].
  destruct (seek_zero_reinitializes 5 cut_failed 0 SEEK_SET
              (set_errno ENOBUFS p0) eq_refl)
    as (c' & p' & Hseek & Hc' & _ & _ & _ & _ & He & Ht & Hl & _).
  exists c', p'. split; [exact Hseek|].
  assert (Heq : c' = cut_c0) by (rewrite Hc'; vm_compute; reflexivity).
  split; [exact Heq|]. split; [exact He|]. split; [exact Ht|].
  split; [exact Hl|]. rewrite Heq. apply cut_read_8.
Defined.

(** C7 on "hello world" after 5 bytes have been read. *)
Lemma rewind_then_read_is_fresh_read_witness :
  opens_to (file_of hello_frame) "r" p0 hello_c0 /\
  reachable hello_c0 hello_c5 /\
  seek_target hello_c5 0 SEEK_SET = Some 0 /\
  exists q',
    zstdfile_seek 5 hello_c5 0 SEEK_SET p0 = Ret (0, 0, hello_c0, q') /\
    forall (fuel' : nat) (chunk : Z) (q0 : proc),
      forget_proc (read_to_end fuel' chunk hello_c0 q') =
      forget_proc (read_to_end fuel' chunk hello_c0 q0).
Proof.
  split; [exact opens_hello|]. split; [exact reach_hello_c5|].
  split; [reflexivity|].
  exact (rewind_then_read_is_fresh_read (file_of hello_frame) "r" p0
           hello_c0 hello_c5 opens_hello reach_hello_c5 5 0 SEEK_SET p0
           eq_refl).
Defined.

(** Reading to the end does return: in chunks of 16 bytes it gives
    "hello world" and a final 0, both right after the open and after a
    rewind from offset 5. *)
Lemma hello_read_to_end :
  read_to_end 5 16 hello_c0 p0 =
    Ret (list_byte_of_string "hello world", 0, hello_c16, p0) /\
  zstdfile_seek 5 hello_c5 0 SEEK_SET p0 = Ret (0, 0, hello_c0, p0) /\
  eof hello_c16 = true /\ truncated hello_c16 = false.
Proof. run_conj. Qed.

(** C8 on the cut stream after its truncation error. *)
Lemma read_entry_offsets_equal_witness :
  opens_to (file_of cut_frame) "r" p0 cut_c0 /\
  reachable cut_c0 cut_failed /\
  decode_offset cut_failed = logic_offset cut_failed /\
  wrap64 (logic_offset cut_failed - decode_offset cut_failed) = 0 /\
  forall (fuel : nat) (size : Z) (q : proc),
    zstdfile_read fuel cut_failed size q <>
    Abort (AssertFailed "ignorebytes == 0").
Proof.
  split; [exact opens_cut|]. split; [exact reach_cut_failed|].
  exact (read_entry_offsets_equal (file_of cut_frame) "r" p0 cut_c0
           cut_failed opens_cut reach_cut_failed).
Defined.

(** * The further properties on the reference engine *)

Lemma zlen_take_drop {A : Type} (l : list A) :
  forall n, zlen (take n l) + zlen (drop n l) = zlen l.
Proof.
  induction l as [|x l IH]; intros n; cbn [take drop]; [reflexivity|].
  destruct (n <=? 0).
  - change (zlen (@nil A)) with 0. lia.
  - rewrite !zlen_cons. specialize (IH (n - 1)). lia.
Qed.

(** The reference engine consumes no more than it is given and writes no
    more than [cap] bytes. *)
Lemma zlen_take_bound {A : Type} (l : list A) :
  forall n, zlen (take n l) <= Z.max 0 n.
Proof.
  induction l as [|x l IH]; intros n; cbn [take].
  - change (zlen (@nil A)) with 0. lia.
  - destruct (n <=? 0) eqn:Hn.
    + change (zlen (@nil A)) with 0. lia.
    + apply Z.leb_gt in Hn. rewrite zlen_cons. specialize (IH (n - 1)). lia.
Qed.

Lemma zlen_take_some {A : Type} (x : A) (l : list A) (n : Z) :
  0 < n -> 1 <= zlen (take n (x :: l)).
Proof.
  intros Hn. rewrite zlen_take_min by lia. rewrite zlen_cons.
  pose proof (zlen_nonneg l). lia.
Qed.

Lemma zlen_pos_cons {A : Type} (l : list A) : 1 <= zlen l -> l <> [].
Proof. intros H ->. change (zlen (@nil A)) with 0 in H. lia. Qed.

Lemma fcs_width_pos (descr w : Z) : fcs_width descr = Some w -> 0 < w.
Proof.
  unfold fcs_width. cbv zeta.
  repeat match goal with
         | |- context [if ?b then _ else _] => destruct b
         end; intros H; inv H; lia.
Qed.

(** What [lia] needs to know of the pieces [take] and [drop] cut. *)
Ltac take_facts :=
  repeat match goal with
         | |- context [take ?n ?l] =>
             lazymatch goal with
             | _ : zlen (take n l) + zlen (drop n l) = zlen l |- _ => fail
             | _ =>
                 pose proof (zlen_take_drop l n);
                 pose proof (zlen_nonneg (take n l));
                 pose proof (zlen_nonneg (drop n l));
                 pose proof (zlen_take_bound l n)
             end
         end.

Ltac leaf :=
  cbn [es_consumed es_output es_ret es_dctx]; rewrite ?zlen_app;
  change (zlen (@nil byte)) with 0; lia.

Lemma run_fits (fuel : nat) :
  forall (d : dctx) (inp : list byte) (consumed cap : Z) (out : list byte),
    0 <= consumed -> zlen out <= cap ->
    0 <= es_consumed (run fuel d inp consumed cap out)
      <= consumed + zlen inp /\
    zlen (es_output (run fuel d inp consumed cap out)) <= cap.
Proof.
  induction fuel as [|fuel IH]; intros d inp consumed cap out Hc Hout;
    pose proof (zlen_nonneg inp) as Hi; pose proof (zlen_nonneg out) as Ho.
  { cbn [run es_consumed es_output]. lia. }
  assert (Hrec : forall d' inp' c' out',
             0 <= c' -> c' + zlen inp' <= consumed + zlen inp ->
             zlen out' <= cap ->
             0 <= es_consumed (run fuel d' inp' c' cap out')
               <= consumed + zlen inp /\
             zlen (es_output (run fuel d' inp' c' cap out')) <= cap).
  { intros d' inp' c' out' H1 H2 H3.
    destruct (IH d' inp' c' cap out' H1 H3) as [[? ?] ?]. lia. }
  destruct d as [acc|w acc|fcs done acc|fcs done last need
                |fcs done last need pending|pending]; cbn [run]; cbv zeta.
  - take_facts.
    destruct (_ <? 5); [destruct (negb _); leaf|].
    destruct (negb _); [leaf|].
    destruct (fcs_width _) as [w|]; [|leaf].
    apply Hrec; lia.
  - take_facts.
    destruct (_ <? w); [leaf|].
    destruct (_ >? WINDOW_MAX); [leaf|].
    apply Hrec; lia.
  - take_facts.
    destruct (_ <? 3); [leaf|].
    destruct (_ =? 3); [leaf|].
    destruct (negb _); [leaf|].
    destruct (_ >? Z.min _ _); [leaf|].
    destruct (0 <? _); [apply Hrec; lia|].
    destruct (Z.testbit _ 0); [leaf | apply Hrec; lia].
  - destruct inp as [|b l]; [leaf|].
    set (inp := b :: l) in *. take_facts.
    destruct (_ >? fcs); [leaf|].
    destruct (_ && _).
    + destruct (negb _); [leaf|].
      destruct (_ <=? _) eqn:Hroom; [apply Z.leb_le in Hroom; leaf|].
      apply Z.leb_gt in Hroom. take_facts. leaf.
    + apply Hrec; lia.
  - take_facts.
    assert (Ho' : zlen (out ++ take (cap - zlen out) pending) <= cap)
      by (rewrite zlen_app; lia).
    destruct (drop (cap - zlen out) pending) as [|x rest];
      [|cbn [es_consumed es_output]; lia].
    destruct (0 <? need); apply Hrec; lia.
  - take_facts.
    assert (Ho' : zlen (out ++ take (cap - zlen out) pending) <= cap)
      by (rewrite zlen_app; lia).
    destruct (drop (cap - zlen out) pending) as [|x rest];
      [|cbn [es_consumed es_output]; lia].
    destruct inp as [|b l]; cbn [es_consumed es_output].
    + change (zlen (@nil byte)) with 0 in *. lia.
    + rewrite zlen_cons in *. pose proof (zlen_nonneg l). lia.
Qed.

(** A call that reports no error takes nothing back: the input position
    and the output only grow. *)
Lemma run_mono (fuel : nat) :
  forall (d : dctx) (inp : list byte) (consumed cap : Z) (out : list byte),
    zlen out <= cap ->
    isError (es_ret (run fuel d inp consumed cap out)) = false ->
    consumed <= es_consumed (run fuel d inp consumed cap out) /\
    zlen out <= zlen (es_output (run fuel d inp consumed cap out)).
Proof.
  induction fuel as [|fuel IH]; intros d inp consumed cap out Hout;
    pose proof (zlen_nonneg out) as Ho.
  { cbn [run es_consumed es_output]. lia. }
  assert (Hrec : forall d' inp' c' out',
             consumed <= c' -> zlen out <= zlen out' -> zlen out' <= cap ->
             isError (es_ret (run fuel d' inp' c' cap out')) = false ->
             consumed <= es_consumed (run fuel d' inp' c' cap out') /\
             zlen out <= zlen (es_output (run fuel d' inp' c' cap out'))).
  { intros d' inp' c' out' H1 H2 H3 H4.
    destruct (IH d' inp' c' cap out' H3 H4). lia. }
  assert (Herr : forall e c o,
             isError e = true ->
             isError (es_ret (mkStep e d c o)) = false ->
             consumed <= es_consumed (mkStep e d c o) /\
             zlen out <= zlen (es_output (mkStep e d c o))).
  { intros e c o He H. cbn [es_ret] in H. congruence. }
  destruct d as [acc|w acc|fcs done acc|fcs done last need
                |fcs done last need pending|pending]; cbn [run]; cbv zeta.
  - take_facts.
    destruct (_ <? 5);
      [destruct (negb _); [apply Herr; reflexivity | intros _; leaf]|].
    destruct (negb _); [apply Herr; reflexivity|].
    destruct (fcs_width _) as [w|]; [|apply Herr; reflexivity].
    apply Hrec; lia.
  - take_facts.
    destruct (_ <? w); [intros _; leaf|].
    destruct (_ >? WINDOW_MAX); [apply Herr; reflexivity|].
    apply Hrec; lia.
  - take_facts.
    destruct (_ <? 3); [intros _; leaf|].
    destruct (_ =? 3); [apply Herr; reflexivity|].
    destruct (negb _); [apply Herr; reflexivity|].
    destruct (_ >? Z.min _ _); [apply Herr; reflexivity|].
    destruct (0 <? _); [apply Hrec; lia|].
    destruct (Z.testbit _ 0); [intros _; leaf | apply Hrec; lia].
  - destruct inp as [|b l]; [intros _; leaf|].
    set (inp := b :: l) in *. take_facts.
    destruct (_ >? fcs); [apply Herr; reflexivity|].
    destruct (_ && _).
    + destruct (negb _); [apply Herr; reflexivity|].
      destruct (_ <=? _) eqn:Hroom; [intros _; leaf|].
      apply Z.leb_gt in Hroom. take_facts. intros _. leaf.
    + apply Hrec; lia.
  - take_facts.
    assert (Ho' : zlen (out ++ take (cap - zlen out) pending) <= cap)
      by (rewrite zlen_app; lia).
    assert (Ho'' : zlen out <= zlen (out ++ take (cap - zlen out) pending))
      by (rewrite zlen_app; lia).
    destruct (drop (cap - zlen out) pending) as [|x rest];
      [|intros _; cbn [es_consumed es_output]; lia].
    destruct (0 <? need); apply Hrec; lia.
  - take_facts.
    assert (Ho'' : zlen out <= zlen (out ++ take (cap - zlen out) pending))
      by (rewrite zlen_app; lia).
    destruct (drop (cap - zlen out) pending) as [|x rest];
      [|intros _; cbn [es_consumed es_output]; lia].
    destruct inp as [|b l]; intros _; cbn [es_consumed es_output]; lia.
Qed.

Lemma ref_engine_fits : @engine_fits dctx engine.
Proof.
  split; [reflexivity|]. split; [split; reflexivity|].
  intros d inp cap Hcap.
  change (ZSTD_decompressStream d inp cap) with (decompressStream d inp cap).
  pose proof (run_fits (2 * List.length inp + 4) d inp 0 cap []
                ltac:(lia) Hcap) as H.
  pose proof (zlen_nonneg inp).
  unfold decompressStream. cbv zeta.
  destruct d as [[|b acc]|w acc|fcs done acc|fcs done last need
                |fcs done last need pending|pending]; try exact H.
  destruct (_ && _); [|exact H].
  cbn [es_consumed es_output]. change (zlen (@nil byte)) with 0. lia.
Qed.

Lemma hello_c0_steady : steady hello_c0.
Proof.
  exact (steady_init ref_engine_fits (cookie_alloc (file_of hello_frame)) p0
           eq_refl).
Qed.

Lemma hello_sizes :
  0 < zlen hello_frame < ZSTD_DStreamInSize /\
  zlen (list_byte_of_string "hello world") < 2 ^ 32.
Proof. repeat split. Qed.

(** The engine consumes the cut frame whole, delivers "hello" and asks
    for the six bytes of the second block. *)
Lemma engine_on_cut :
  ZSTD_decompressStream ZSTD_createDCtx cut_frame ZSTD_DStreamOutSize =
  mkStep 6 (BlockBody 11 5 true 6) (zlen cut_frame)
    (list_byte_of_string "hello").
Proof. vm_compute. reflexivity. Qed.

Lemma hello_end_eof : eof hello_end = true /\ logic_offset hello_end = 11.
Proof. run_conj. Qed.

(** C10 on the frame cut off behind the header of its second block: a
    seek from 0 to 8 fails with [logic_offset] left at 5. *)
Lemma forward_seek_not_atomic_witness :
  0 < zlen cut_frame < ZSTD_DStreamInSize /\
  ZSTD_decompressStream ZSTD_createDCtx cut_frame ZSTD_DStreamOutSize =
    mkStep 6 (BlockBody 11 5 true 6) (zlen cut_frame)
      (list_byte_of_string "hello") /\
  ZSTD_isError 6 = false /\
  6 <> 0 /\
  0 < zlen (list_byte_of_string "hello") < bsz /\
  zlen (list_byte_of_string "hello") < 8 < 2 ^ 63 /\
  zstdfile_seek 6 (fresh_cookie cut_frame) 8 SEEK_SET p0 =
    Ret (-1, 8,
         set_eof true
           (at_cut cut_frame (list_byte_of_string "hello")
              (BlockBody 11 5 true 6)),
         set_errno ENOBUFS p0) /\
  logic_offset (fresh_cookie cut_frame) <
  logic_offset
    (set_eof true
       (at_cut cut_frame (list_byte_of_string "hello")
          (BlockBody 11 5 true 6))).
Proof.
  assert (Hdata : 0 < zlen cut_frame < ZSTD_DStreamInSize)
    by (split; reflexivity).
  assert (Hout : zlen (list_byte_of_string "hello") < 2 ^ 32) by reflexivity.
  assert (Hret : 6 <> 0) by discriminate.
  assert (Hs : 0 < zlen (list_byte_of_string "hello") < bsz)
    by (split; reflexivity).
  assert (Ht : zlen (list_byte_of_string "hello") < 8 < 2 ^ 63)
    by (split; reflexivity).
  split; [exact Hdata|]. split; [exact engine_on_cut|].
  split; [reflexivity|]. split; [exact Hret|]. split; [exact Hs|].
  split; [exact Ht|].
  destruct (forward_seek_not_atomic cut_frame (list_byte_of_string "hello")
              (BlockBody 11 5 true 6) 6 Hdata engine_on_cut eq_refl Hout
              0 8 p0 Hret Hs Ht)
    as (_ & _ & H3 & _ & _ & H6).
  split; [exact H3 | exact H6].
Defined.

(** X6 on "hello world" read to its end: a seek to 50 stays at 11. *)
Lemma seek_at_eof_clamps_witness :
  eof hello_end = true /\
  0 <= logic_offset hello_end <= SSIZE_MAX /\
  seek_target hello_end 50 SEEK_SET = Some 50 /\
  logic_offset hello_end < 50 < 2 ^ 63 /\
  zstdfile_seek 2 hello_end 50 SEEK_SET p0 =
  Ret (0, logic_offset hello_end, hello_end, p0).
Proof.
  destruct hello_end_eof as [He Hl].
  assert (H1 : 0 <= logic_offset hello_end <= SSIZE_MAX)
    by (rewrite Hl; unfold SSIZE_MAX; lia).
  assert (H2 : logic_offset hello_end < 50 < 2 ^ 63) by (rewrite Hl; lia).
  split; [exact He|]. split; [exact H1|]. split; [reflexivity|].
  split; [exact H2|].
  exact (seek_at_eof_clamps 0 hello_end 50 SEEK_SET 50 p0 He H1 eq_refl H2).
Defined.

(** X9 on the cut stream: the short read of 5 bytes for 8 asked. *)
Lemma read_return_value_witness :
  engine_fits /\ steady cut_c0 /\ 0 <= 8 <= SSIZE_MAX /\
  zstdfile_read 4 cut_c0 8 p0 =
    Ret (5, list_byte_of_string "hello", cut_c5, p0) /\
  -1 <= 5 <= 8 /\ zlen (list_byte_of_string "hello") = Z.max 5 0 /\
  logic_offset cut_c5 = wrap64 (logic_offset cut_c0 + Z.max 5 0) /\
  (5 = -1 ->
   truncated cut_c5 = true /\ eof cut_c5 = true /\ p_errno p0 = ENOBUFS) /\
  (5 = 0 -> 8 = 0 \/ eof cut_c5 = true) /\
  (eof cut_c0 = true -> eof cut_c5 = true) /\
  (truncated cut_c0 = true -> truncated cut_c5 = true).
Proof.
  assert (Hs : 0 <= 8 <= SSIZE_MAX) by (unfold SSIZE_MAX; lia).
  assert (Hst : steady cut_c0)
    by exact (steady_init ref_engine_fits (cookie_alloc (file_of cut_frame))
                p0 eq_refl).
  split; [exact ref_engine_fits|]. split; [exact Hst|].
  split; [exact Hs|]. split; [exact (cut_read_8 p0)|].
  exact (read_return_value ref_engine_fits 4 cut_c0 8 p0 _ _ _ _ Hst Hs
           (cut_read_8 p0)).
Defined.

Lemma hello_seek_100 :
  zstdfile_seek 5 hello_c0 100 SEEK_SET p0 = Ret (0, 11, hello_end, p0).
Proof. vm_compute. reflexivity. Qed.

(** X10 on a seek past the end of "hello world": it returns 0 with [*offset_] = 11, short of the
    target 100, and [eof] is set. *)
Lemma seek_return_value_witness :
  engine_fits /\ steady hello_c0 /\ logic_offset hello_c0 <= SSIZE_MAX /\
  - 2 ^ 63 <= 100 < 2 ^ 63 /\
  zstdfile_seek 5 hello_c0 100 SEEK_SET p0 = Ret (0, 11, hello_end, p0) /\
  ((0 = 0 /\ 11 = logic_offset hello_end /\
    exists t, seek_target hello_c0 100 SEEK_SET = Some t /\ 0 <= 11 <= t /\
              (11 < t -> eof hello_end = true)) \/
   (0 = -1 /\ 11 = 100 /\
    ((hello_end = hello_c0 /\ p0 = p0) \/
     (truncated hello_end = true /\ eof hello_end = true /\
      p_errno p0 = ENOBUFS /\
      logic_offset hello_c0 <= logic_offset hello_end /\
      exists t, seek_target hello_c0 100 SEEK_SET = Some t /\
                logic_offset hello_end <= t)))).
Proof.
  assert (Hm : logic_offset hello_c0 <= SSIZE_MAX) by (vm_compute; discriminate).
  assert (Ho : - 2 ^ 63 <= 100 < 2 ^ 63) by lia.
  split; [exact ref_engine_fits|]. split; [exact hello_c0_steady|].
  split; [exact Hm|]. split; [exact Ho|]. split; [exact hello_seek_100|].
  exact (seek_return_value ref_engine_fits 5 hello_c0 100 SEEK_SET p0 _ _ _ _
           hello_c0_steady Hm Ho hello_seek_100).
Defined.

(** X13 on "hello world" read with a 16-byte buffer. *)
Lemma frame_end_in_first_read_is_eof_witness :
  zstdfile_read 5 (fresh_cookie hello_frame) 16 p0 =
    Ret (zlen (list_byte_of_string "hello world"),
         list_byte_of_string "hello world",
         at_end hello_frame (list_byte_of_string "hello world")
           (FrameHeader []), p0) /\
  zstdfile_read 5
    (at_end hello_frame (list_byte_of_string "hello world") (FrameHeader []))
    16 p0 =
    Ret (0, [],
         at_end hello_frame (list_byte_of_string "hello world")
           (FrameHeader []), p0).
Proof.
  destruct hello_sizes as [Hdata Hout].
  assert (Hn : zlen (list_byte_of_string "hello world") < 16 <= SSIZE_MAX)
    by (split; [reflexivity | unfold SSIZE_MAX; lia]).
  destruct (frame_end_in_first_read_is_eof hello_frame
              (list_byte_of_string "hello world") (FrameHeader []) 0 Hdata
              engine_on_hello eq_refl Hout 0 16 p0 eq_refl Hn)
    as (H1 & _ & _ & _ & H2).
  split; [exact H1|]. apply H2. unfold SSIZE_MAX. lia.
Defined.


(** X15 on "hello world": 5 bytes read, then 10 asked for. *)
Lemma tail_read_in_later_call_marks_truncated_witness :
  zstdfile_read 3 (fresh_cookie hello_frame) 5 p0 =
    Ret (5, take 5 (list_byte_of_string "hello world"),
         buffered hello_frame (list_byte_of_string "hello world")
           (FrameHeader []) 5, p0) /\
  zstdfile_read 3
    (buffered hello_frame (list_byte_of_string "hello world")
       (FrameHeader []) 5) 10 p0 =
    Ret (zlen (list_byte_of_string "hello world") - 5,
         drop 5 (list_byte_of_string "hello world"),
         at_cut hello_frame (list_byte_of_string "hello world")
           (FrameHeader []), p0) /\
  truncated (at_cut hello_frame (list_byte_of_string "hello world")
               (FrameHeader [])) = true.
Proof.
  destruct hello_sizes as [Hdata Hout].
  assert (H1 : 0 < 5 < zlen (list_byte_of_string "hello world"))
    by (split; reflexivity).
  assert (H2 : zlen (list_byte_of_string "hello world") - 5 < 10 <= SSIZE_MAX)
    by (split; [reflexivity | unfold SSIZE_MAX; lia]).
  destruct (tail_read_in_later_call_marks_truncated hello_frame
              (list_byte_of_string "hello world") (FrameHeader []) 0 Hdata
              engine_on_hello eq_refl Hout 0 5 10 p0 H1 H2)
    as (K1 & K2 & K3 & _).
  split; [exact K1|]. split; [exact K2 | exact K3].
Defined.

(** X8 on "hello world": a read, a rewind and a read of the whole. *)
Lemma session_fails_no_assertion_witness :
  engine_fits /\
  opens_to (file_of hello_frame) "r" p0 hello_c0 /\
  in_range 0 [OpRead 5; OpSeek 0 SEEK_SET; OpRead 11] /\
  run_ops 4 hello_c0 p0 [OpRead 5; OpSeek 0 SEEK_SET; OpRead 11] =
    Ret (hello_all, p0) /\
  steady hello_all.
Proof.
  assert (Hr : in_range 0 [OpRead 5; OpSeek 0 SEEK_SET; OpRead 11]).
  { unfold in_range, bound_after, SSIZE_MAX. cbn. repeat split; lia. }
  assert (Hrun : run_ops 4 hello_c0 p0 [OpRead 5; OpSeek 0 SEEK_SET; OpRead 11]
                 = Ret (hello_all, p0)) by (vm_compute; reflexivity).
  split; [exact ref_engine_fits|]. split; [exact opens_hello|].
  split; [exact Hr|]. split; [exact Hrun|].
  destruct (session_fails_no_assertion ref_engine_fits 4 (file_of hello_frame)
              "r" p0 p0 hello_c0 [OpRead 5; OpSeek 0 SEEK_SET; OpRead 11]
              opens_hello Hr) as (_ & _ & H).
  exact (H _ _ Hrun).
Defined.

(** X11 on "hello world": one read of 11 bytes, or reads of 5 and 6. *)
Lemma split_reads_are_one_read_witness :
  engine_fits /\ steady hello_c0 /\ [5; 6] <> [] /\
  Forall (fun n => 0 < n) [5; 6] /\ zsum [5; 6] <= SSIZE_MAX /\
  zstdfile_read 4 hello_c0 (zsum [5; 6]) p0 =
    Ret (zsum [5; 6], list_byte_of_string "hello world", hello_all, p0) /\
  read_chunks (List.length [5; 6] + 4) hello_c0 p0 [5; 6] =
    Ret (list_byte_of_string "hello world", hello_all, p0) /\
  read_seq (List.length [5; 6] + 4) hello_c0 p0 [5; 6] =
    Ret ([5; 6], hello_all, p0).
Proof.
  assert (Hne : [5; 6] <> (@nil Z)) by discriminate.
  assert (Hall : Forall (fun n => 0 < n) [5; 6]) by (repeat constructor).
  assert (Hmax : zsum [5; 6] <= SSIZE_MAX) by (vm_compute; discriminate).
  split; [exact ref_engine_fits|]. split; [exact hello_c0_steady|].
  split; [exact Hne|]. split; [exact Hall|]. split; [exact Hmax|].
  split; [exact (hello_read_11 p0)|].
  exact (split_reads_are_one_read ref_engine_fits 4 hello_c0 [5; 6] p0 _ _ _
           hello_c0_steady Hne Hall Hmax (hello_read_11 p0)).
Defined.

(** X12 on "hello world": a seek to 5 leaves what reading "hello"
    leaves. *)
Lemma seek_is_read_and_discard_witness :
  engine_fits /\ steady hello_c0 /\
  seek_target hello_c0 5 SEEK_SET = Some 5 /\
  logic_offset hello_c0 < 5 <= SSIZE_MAX /\
  zstdfile_read 4 hello_c0 (5 - logic_offset hello_c0) p0 =
    Ret (5 - logic_offset hello_c0, list_byte_of_string "hello", hello_c5,
         p0) /\
  zstdfile_seek (2 * Z.to_nat (5 / bsz + 1) + 1 + 4) hello_c0 5 SEEK_SET p0 =
    Ret (0, 5, hello_c5, p0) /\
  logic_offset hello_c5 = 5.
Proof.
  assert (Ht : logic_offset hello_c0 < 5 <= SSIZE_MAX)
    by (split; [reflexivity | vm_compute; discriminate]).
  split; [exact ref_engine_fits|]. split; [exact hello_c0_steady|].
  split; [reflexivity|]. split; [exact Ht|].
  split; [exact (hello_read_5 p0)|].
  exact (seek_is_read_and_discard ref_engine_fits 4 hello_c0 5 SEEK_SET 5 p0
           _ _ _ hello_c0_steady eq_refl Ht (hello_read_5 p0)).
Defined.


(** ** The reference engine makes progress *)

Lemma slack_range (d : dctx) : 1 <= slack d <= 3.
Proof. destruct d; cbn [slack]; lia. Qed.

(** With two steps for each input byte and the slack of its session,
    [run] ends on its own, and then in a sane session. *)
Lemma run_sane (fuel : nat) :
  forall (d : dctx) (inp : list byte) (consumed cap : Z) (out : list byte),
    sane d ->
    2 * zlen inp + slack d <= Z.of_nat fuel ->
    sane (es_dctx (run fuel d inp consumed cap out)).
Proof.
  induction fuel as [|fuel IH]; intros d inp consumed cap out Hd Hf;
    pose proof (zlen_nonneg inp) as Hi; pose proof (slack_range d) as Hs.
  { lia. }
  assert (Hrec : forall d' inp' c' out',
             sane d' -> 2 * zlen inp' + slack d' < 2 * zlen inp + slack d ->
             sane (es_dctx (run fuel d' inp' c' cap out'))).
  { intros d' inp' c' out' H1 H2. apply IH; [exact H1 | lia]. }
  destruct d as [acc|w acc|fcs done acc|fcs done last need
                |fcs done last need pending|pending]; cbn [run]; cbv zeta;
    cbn [sane] in Hd; cbn [slack] in Hrec.
  - take_facts.
    destruct (_ <? 5) eqn:Hlt.
    { apply Z.ltb_lt in Hlt.
      destruct (negb _); cbn [es_dctx sane]; [exact Hd | exact Hlt]. }
    apply Z.ltb_ge in Hlt. rewrite zlen_app in Hlt.
    destruct (negb _); [exact Hd|].
    destruct (fcs_width _) as [w|] eqn:Hw; [|exact Hd].
    apply Hrec; cbn [sane slack].
    + apply fcs_width_pos in Hw. change (zlen (@nil byte)) with 0. exact Hw.
    + lia.
  - take_facts.
    destruct (_ <? w) eqn:Hlt.
    { apply Z.ltb_lt in Hlt. exact Hlt. }
    apply Z.ltb_ge in Hlt. rewrite zlen_app in Hlt.
    destruct (_ >? WINDOW_MAX); [exact Hd|].
    apply Hrec; cbn [sane slack]; [change (zlen (@nil byte)) with 0; lia | lia].
  - take_facts.
    destruct (_ <? 3) eqn:Hlt.
    { apply Z.ltb_lt in Hlt. exact Hlt. }
    apply Z.ltb_ge in Hlt. rewrite zlen_app in Hlt.
    destruct (_ =? 3); [exact Hd|].
    destruct (negb _); [exact Hd|].
    destruct (_ >? Z.min _ _); [exact Hd|].
    destruct (0 <? _) eqn:Hpos.
    { apply Z.ltb_lt in Hpos. apply Hrec; cbn [sane slack]; [exact Hpos | lia]. }
    destruct (Z.testbit _ 0); [cbn [es_dctx sane]; change (zlen (@nil byte)) with 0; lia|].
    apply Hrec; cbn [sane slack]; [change (zlen (@nil byte)) with 0; lia | lia].
  - destruct inp as [|b l]; [exact Hd|].
    pose proof (zlen_take_some b l need Hd) as Hgot.
    set (inp := b :: l) in *. take_facts.
    destruct (_ >? fcs); [exact Hd|].
    destruct (_ && _).
    + destruct (negb _); [exact Hd|].
      destruct (_ <=? _); cbn [es_dctx sane];
        [change (zlen (@nil byte)) with 0; lia | exact I].
    + apply Hrec; cbn [sane slack]; [apply zlen_pos_cons; exact Hgot | lia].
  - destruct (drop (cap - zlen out) pending) as [|x rest];
      [|cbn [es_dctx sane]; discriminate].
    destruct (0 <? need) eqn:Hpos.
    + apply Z.ltb_lt in Hpos. apply Hrec; cbn [sane slack]; [exact Hpos | lia].
    + apply Hrec; cbn [sane slack]; [change (zlen (@nil byte)) with 0; lia | lia].
  - destruct (drop (cap - zlen out) pending) as [|x rest]; [|exact I].
    destruct inp as [|b l]; cbn [es_dctx sane];
      [exact I | change (zlen (@nil byte)) with 0; lia].
Qed.

(** From a sane session, with input and room, a call that reports no
    error consumes or produces at least one byte. *)
Lemma run_moves (fuel : nat) (d : dctx) (inp : list byte) (consumed cap : Z)
    (out : list byte) :
  sane d -> inp <> [] -> zlen out < cap ->
  isError (es_ret (run (S fuel) d inp consumed cap out)) = false ->
  consumed < es_consumed (run (S fuel) d inp consumed cap out) \/
  zlen out < zlen (es_output (run (S fuel) d inp consumed cap out)).
Proof.
  intros Hd Hinp Hroom.
  destruct inp as [|b l]; [congruence|]. clear Hinp.
  pose proof (zlen_nonneg out) as Ho.
  assert (Hrec : forall d' inp' c' out',
             (consumed < c' /\ zlen out <= zlen out' \/
              consumed <= c' /\ zlen out < zlen out') ->
             zlen out' <= cap ->
             isError (es_ret (run fuel d' inp' c' cap out')) = false ->
             consumed < es_consumed (run fuel d' inp' c' cap out') \/
             zlen out < zlen (es_output (run fuel d' inp' c' cap out'))).
  { intros d' inp' c' out' H1 H2 H3.
    destruct (run_mono fuel d' inp' c' cap out' H2 H3). lia. }
  assert (Herr : forall e c o,
             isError e = true ->
             isError (es_ret (mkStep e d c o)) = false ->
             consumed < es_consumed (mkStep e d c o) \/
             zlen out < zlen (es_output (mkStep e d c o))).
  { intros e c o He H. cbn [es_ret] in H. congruence. }
  destruct d as [acc|w acc|fcs done acc|fcs done last need
                |fcs done last need pending|pending]; cbn [run]; cbv zeta;
    cbn [sane] in Hd.
  - pose proof (zlen_take_some b l (5 - zlen acc) ltac:(lia)) as Hgot.
    set (inp := b :: l) in *. take_facts.
    destruct (_ <? 5);
      [destruct (negb _); [apply Herr; reflexivity | intros _; left; leaf]|].
    destruct (negb _); [apply Herr; reflexivity|].
    destruct (fcs_width _) as [w|]; [|apply Herr; reflexivity].
    apply Hrec; lia.
  - pose proof (zlen_take_some b l (w - zlen acc) ltac:(lia)) as Hgot.
    set (inp := b :: l) in *. take_facts.
    destruct (_ <? w); [intros _; left; leaf|].
    destruct (_ >? WINDOW_MAX); [apply Herr; reflexivity|].
    apply Hrec; lia.
  - pose proof (zlen_take_some b l (3 - zlen acc) ltac:(lia)) as Hgot.
    set (inp := b :: l) in *. take_facts.
    destruct (_ <? 3); [intros _; left; leaf|].
    destruct (_ =? 3); [apply Herr; reflexivity|].
    destruct (negb _); [apply Herr; reflexivity|].
    destruct (_ >? Z.min _ _); [apply Herr; reflexivity|].
    destruct (0 <? _); [apply Hrec; lia|].
    destruct (Z.testbit _ 0); [intros _; left; leaf | apply Hrec; lia].
  - pose proof (zlen_take_some b l need Hd) as Hgot.
    set (inp := b :: l) in *. take_facts.
    destruct (_ >? fcs); [apply Herr; reflexivity|].
    destruct (_ && _).
    + destruct (negb _); [apply Herr; reflexivity|].
      destruct (_ <=? _) eqn:Hfit; [intros _; left; leaf|].
      apply Z.leb_gt in Hfit. intros _. right.
      cbn [es_output]. rewrite zlen_app, zlen_take_min by lia. lia.
    + apply Hrec; lia.
  - assert (Hp : 1 <= zlen pending).
    { destruct pending as [|x p]; [congruence|].
      rewrite zlen_cons. pose proof (zlen_nonneg p). lia. }
    assert (Hgrow : zlen out < zlen (out ++ take (cap - zlen out) pending)
                    <= cap)
      by (rewrite zlen_app, zlen_take_min by lia; lia).
    destruct (drop (cap - zlen out) pending) as [|x rest];
      [|intros _; right; cbn [es_output]; lia].
    destruct (0 <? need); apply Hrec; lia.
  - pose proof (zlen_nonneg pending) as Hp.
    assert (Hgrow : zlen (out ++ take (cap - zlen out) pending)
                    = zlen out + Z.min (cap - zlen out) (zlen pending))
      by (rewrite zlen_app, zlen_take_min by lia; lia).
    destruct (drop (cap - zlen out) pending) as [|x rest] eqn:Hdrop.
    + intros _. left. cbn [es_consumed]. lia.
    + intros _. right. cbn [es_output].
      pose proof (zlen_take_drop pending (cap - zlen out)) as Htd.
      rewrite Hdrop, zlen_cons in Htd. pose proof (zlen_nonneg rest).
      pose proof (zlen_nonneg (take (cap - zlen out) pending)). lia.
Qed.

Lemma ref_engine_progresses : @engine_progresses dctx engine sane.
Proof.
  split; [cbn; lia|]. intros d inp cap Hd.
  change (ZSTD_decompressStream d inp cap) with (decompressStream d inp cap).
  change (@ZSTD_isError dctx engine) with isError.
  assert (Hsane : sane (es_dctx (run (2 * List.length inp + 4) d inp 0 cap []))).
  { apply run_sane; [exact Hd|]. pose proof (slack_range d). unfold zlen. lia. }
  assert (Hmove : inp <> [] -> 0 < cap ->
            isError (es_ret (run (2 * List.length inp + 4) d inp 0 cap []))
              = false ->
            0 < es_consumed (run (2 * List.length inp + 4) d inp 0 cap []) \/
            0 < zlen (es_output (run (2 * List.length inp + 4) d inp 0 cap []))).
  { intros Hinp Hcap Herr.
    replace (2 * List.length inp + 4)%nat
      with (S (2 * List.length inp + 3)) in * by lia.
    pose proof (run_moves _ d inp 0 cap [] Hd Hinp Hcap Herr) as H.
    change (zlen (@nil byte)) with 0 in H. exact H. }
  unfold decompressStream. cbv zeta.
  destruct d as [[|b acc]|w acc|fcs done acc|fcs done last need
                |fcs done last need pending|pending];
    try (split; [exact Hsane | exact Hmove]).
  destruct (_ && _); [|split; [exact Hsane | exact Hmove]].
  cbn [es_dctx es_ret es_consumed es_output].
  split; [exact Hd|]. intros _ _ H. vm_compute in H. discriminate.
Qed.

(** X16 on "hello world": a read, a rewind and a read of the whole. *)
Lemma session_calls_return_witness :
  engine_fits /\ engine_progresses sane /\
  opens_to (file_of hello_frame) "r" p0 hello_c0 /\
  in_range 0 [OpRead 5; OpSeek 0 SEEK_SET; OpRead 11] /\
  exists fuel0 : nat,
    forall fuel : nat,
      (fuel0 <= fuel)%nat ->
      (exists c' q',
          run_ops fuel hello_c0 p0 [OpRead 5; OpSeek 0 SEEK_SET; OpRead 11] =
          Ret (c', q')) \/
      (exists s,
          run_ops fuel hello_c0 p0 [OpRead 5; OpSeek 0 SEEK_SET; OpRead 11] =
          Abort (Exit1 s)).
Proof.
  assert (Hr : in_range 0 [OpRead 5; OpSeek 0 SEEK_SET; OpRead 11]).
  { unfold in_range, bound_after, SSIZE_MAX. cbn. repeat split; lia. }
  split; [exact ref_engine_fits|]. split; [exact ref_engine_progresses|].
  split; [exact opens_hello|]. split; [exact Hr|].
  exact (session_calls_return ref_engine_fits sane ref_engine_progresses
           (file_of hello_frame) "r" p0 p0 hello_c0
           [OpRead 5; OpSeek 0 SEEK_SET; OpRead 11] opens_hello Hr).
Defined.

(** ** Opening, on concrete modes *)

(** A mode [fopencookie] refuses: the cookie is built and torn down again,
    and NULL is returned with errno EINVAL. *)
Lemma open_refused_by_fopencookie :
  zstdopenfile (file_of hello_frame) "x" p0 =
  (OpenNull (file_of hello_frame), None, set_errno EINVAL p0).
Proof. vm_compute. reflexivity. Qed.

(** [zstdopen] on a file system that holds the frame under "f.zst": a read
    mode gives the cookie stream over two open streams; "w" empties the
    file; "wx" fails with EEXIST and leaves it alone; "x" fails in
    [fopen]. *)
Lemma zstdopen_modes :
  let w := mkWorld p0 (fs_store "f.zst"%string hello_frame (fun _ => None)) in
  zstdopen "f.zst"%string "r" w =
    (Some (OpenCookie hello_c0), Some true,
     mkWorld (mkProc 0 4 2) (w_fs w)) /\
  (fst (fst (zstdopen "f.zst"%string "w" w)) = None /\
   p_errno (w_proc (snd (zstdopen "f.zst"%string "w" w))) = EINVAL /\
   w_fs (snd (zstdopen "f.zst"%string "w" w)) "f.zst"%string = Some []) /\
  zstdopen "f.zst"%string "wx" w =
    (None, None, mkWorld (set_errno EEXIST p0) (w_fs w)) /\
  zstdopen "f.zst"%string "x" w =
    (None, None, mkWorld (set_errno EINVAL p0) (w_fs w)) /\
  zstdopen "g.zst"%string "r" w =
    (None, None, mkWorld (set_errno ENOENT p0) (w_fs w)).
Proof. cbv zeta. repeat split; vm_compute; reflexivity. Qed.
